(** * USB VPN router: the failover monitor and the router configuration

    A shallow embedding of [usb_vpn_router/monitor.py] (class [VPNMonitor]
    and the entry point [main]), of the helpers of [usb_vpn_router/utils.py] it calls ([run_command],
    [check_interface_exists]) and of [usb_vpn_router/config.py]
    ([RouterConfig.validate]), followed by their neighbours:
    [get_interface_ip] and the two validators of [utils.py],
    [RouterConfig.get_network_info], the configuration [installer.py]
    builds, and [_get_wan_interface] of [cli.py].

    The Python code drives the operating system through external commands
    ([ip], [iptables], [ping]).  The commands it issues are kept as the
    argument vectors of the source ([argv]); what they do is given by a small
    in-memory kernel ([Kernel], [exec]) holding the pieces of system state
    the monitor touches: network links, the routes of the policy table
    [usb_vpn] (its default routes, which the monitor writes, and the other
    routes, which it only sees listed), and the masquerade rules of the NAT
    POSTROUTING chain.  Python exceptions are modelled by a state-and-exception monad. *)

From Stdlib Require Import ZArith String Ascii List Lia Bool.
From stdpp Require Import base option list gmap strings pretty.
From coqutil Require Import Z.bitblast.

Local Open Scope string_scope.
Local Open Scope Z_scope.

(** ** Text helpers *)

Module Text.

(** [s.startswith(p)]. *)
Fixpoint prefix (p s : string) : bool :=
  match p with
  | EmptyString => true
  | String a p' =>
      match s with
      | EmptyString => false
      | String b s' => Ascii.eqb a b && prefix p' s'
      end
  end.

(** Python's [sub in s] on [str]. *)
Fixpoint contains (sub s : string) : bool :=
  prefix sub s ||
  match s with
  | EmptyString => false
  | String _ s' => contains sub s'
  end.

Definition newline : string := String (ascii_of_nat 10) EmptyString.

Definition is_newline (c : ascii) : bool := Nat.eqb (nat_of_ascii c) 10.

(** [str.join]-free concatenation of a list of lines. *)
Definition unlines (ls : list string) : string :=
  fold_right (fun l acc => l ++ newline ++ acc)%string EmptyString ls.

Definition is_digit (c : ascii) : bool :=
  let n := nat_of_ascii c in Nat.leb 48 n && Nat.leb n 57.

Definition is_dot (c : ascii) : bool := Nat.eqb (nat_of_ascii c) 46.

Fixpoint drop (n : nat) (s : string) : string :=
  match n, s with
  | O, _ => s
  | S n', String _ s' => drop n' s'
  | S _, EmptyString => EmptyString
  end.

(** The longest prefix of [s] made of the characters of the class
    [[\d\.]]. *)
Fixpoint span_digits_dots (s : string) : string :=
  match s with
  | String c s' =>
      if is_digit c || is_dot c then String c (span_digits_dots s')
      else EmptyString
  | EmptyString => EmptyString
  end.

End Text.

(** ** Exceptions and the command monad *)

(** The exception classes the modelled code can meet.  [KeyboardInterrupt]
    derives from [BaseException] only, the others from [Exception]. *)
Inductive exn : Type :=
| CalledProcessError (returncode : Z)
| OSError
| ValueError (msg : string)
| OverflowError (msg : string)
| KeyboardInterrupt.

Definition is_Exception (e : exn) : bool :=
  match e with
  | KeyboardInterrupt => false
  | _ => true
  end.

Definition is_CalledProcessError (e : exn) : bool :=
  match e with
  | CalledProcessError _ => true
  | _ => false
  end.

Definition is_ValueError (e : exn) : bool :=
  match e with
  | ValueError _ => true
  | _ => false
  end.

(** [str(e)], shortened to the class of the exception. *)
Definition exn_str (e : exn) : string :=
  match e with
  | CalledProcessError _ => "Command returned non-zero exit status"
  | OSError => "OSError"
  | ValueError m => m
  | OverflowError m => m
  | KeyboardInterrupt => ""
  end.

Inductive result (A : Type) : Type :=
| Ret (a : A)
| Raise (e : exn).
Arguments Ret {A} a.
Arguments Raise {A} e.

(** ** The commands of the monitor *)

Inductive ipt_op : Type := IptCheck | IptAppend | IptDelete.

Inductive cmd : Type :=
| IpLinkShow (ifc : string)
| IpAddrShow (ifc : string)
| Ping (ifc : string) (timeout : Z) (host : string)
| IpRouteShowTable
| IpRouteShowDev (ifc : string)
| IpRouteDelDefault
| IpRouteAddDefault (via : option string) (dev : string)
| IptMasquerade (op : ipt_op) (out_ifc : string) (src : string).

Definition ipt_flag (op : ipt_op) : string :=
  match op with
  | IptCheck => "-C"
  | IptAppend => "-A"
  | IptDelete => "-D"
  end.

(** The argument vector of each command, as written in the source. *)
Definition argv (c : cmd) : list string :=
  match c with
  | IpLinkShow i => ["ip"; "link"; "show"; i]
  | IpAddrShow i => ["ip"; "addr"; "show"; i]
  | Ping i t h => ["ping"; "-I"; i; "-c"; "1"; "-W"; pretty t; h]
  | IpRouteShowTable => ["ip"; "route"; "show"; "table"; "usb_vpn"]
  | IpRouteShowDev i => ["ip"; "route"; "show"; "dev"; i]
  | IpRouteDelDefault => ["ip"; "route"; "del"; "default"; "table"; "usb_vpn"]
  | IpRouteAddDefault None d =>
      ["ip"; "route"; "add"; "default"; "dev"; d; "table"; "usb_vpn"]
  | IpRouteAddDefault (Some g) d =>
      ["ip"; "route"; "add"; "default"; "via"; g; "dev"; d; "table"; "usb_vpn"]
  | IptMasquerade op o s =>
      ["iptables"; "-t"; "nat"; ipt_flag op; "POSTROUTING";
       "-o"; o; "-s"; s; "-j"; "MASQUERADE"]
  end.

(** ** The in-memory kernel *)

(** A network link: its IPv4 addresses, the hosts that answer a ping sent
    through it, the text [ip route show dev] prints for it, and the gateway
    addresses the kernel accepts as a next hop on it. *)
Record Link : Type := mkLink {
  lk_inet : list string;
  lk_reach : list string;
  lk_routes : string;
  lk_onlink : list string;
}.

(** A default route of the policy table. *)
Record nexthop : Type := mkNexthop {
  nh_via : option string;
  nh_dev : string;
}.

(** A route of the policy table to a destination other than [default]. *)
Record route : Type := mkRoute {
  rt_dst : string;
  rt_via : option string;
  rt_dev : string;
}.

(** A masquerade rule of the NAT POSTROUTING chain: [-o out -s src]. *)
Record masq : Type := mkMasq {
  mq_out : string;
  mq_src : string;
}.

Global Instance nexthop_eq_dec : EqDecision nexthop.
Proof. solve_decision. Defined.

Global Instance masq_eq_dec : EqDecision masq.
Proof. solve_decision. Defined.

(** The system state the monitor reads and writes.  [k_defaults] holds the
    default routes of table [usb_vpn], keyed by metric: the kernel keeps at
    most one route per destination and metric.  [k_others] holds the other
    routes of that table; the monitor never writes them, other actors may.
    [k_nat] is the ordered rule list of the chain; the same rule may occur
    several times. *)
Record Kernel : Type := mkKernel {
  k_links : gmap string Link;
  k_defaults : gmap N nexthop;
  k_others : list route;
  k_nat : list masq;
}.

(** The smallest metric among the default routes, if there is one. *)
Definition lowest_metric (m : gmap N nexthop) : option N :=
  foldr (fun k acc =>
           match acc with
           | None => Some k
           | Some j => Some (N.min k j)
           end) None (map_to_list m).*1.

Definition render_route (e : N * nexthop) : string :=
  ("default"
   ++ match nh_via e.2 with
      | Some g => " via " ++ g
      | None => ""
      end
   ++ " dev " ++ nh_dev e.2
   ++ (if N.eqb e.1 0 then "" else " metric " ++ pretty e.1))%string.

Definition render_other (r : route) : string :=
  (rt_dst r
   ++ match rt_via r with
      | Some g => " via " ++ g
      | None => ""
      end
   ++ " dev " ++ rt_dev r)%string.

(** What [ip route show table usb_vpn] prints: one line per route of the
    table, the default routes in the enumeration order of the map, then the
    other routes. *)
Definition render_table (m : gmap N nexthop) (others : list route) : string :=
  Text.unlines ((render_route <$> map_to_list m) ++ (render_other <$> others)).

(** What [ip addr show IFACE] prints for a link. *)
Definition render_addr (ifc : string) (l : Link) : string :=
  Text.unlines
    ((ifc ++ ": <UP,LOWER_UP> mtu 1500")%string
     :: ((fun a => "    inet " ++ a ++ " scope global " ++ ifc)%string
           <$> lk_inet l)).

Definition render_link (ifc : string) : string :=
  Text.unlines [(ifc ++ ": <UP,LOWER_UP> mtu 1500")%string].

(** First occurrence of a rule removed, as [iptables -D] does. *)
Fixpoint remove_first (r : masq) (l : list masq) : list masq :=
  match l with
  | [] => []
  | x :: l' => if bool_decide (x = r) then l' else x :: remove_first r l'
  end.

Record CompletedProcess : Type := mkCompleted {
  returncode : Z;
  stdout : string;
}.

(** The effect of a command that could be started: exit status, standard
    output, and the kernel afterwards. *)
Definition exec (c : cmd) (k : Kernel) : CompletedProcess * Kernel :=
  match c with
  | IpLinkShow i =>
      match k_links k !! i with
      | Some _ => (mkCompleted 0 (render_link i), k)
      | None => (mkCompleted 1 "", k)
      end
  | IpAddrShow i =>
      match k_links k !! i with
      | Some l => (mkCompleted 0 (render_addr i l), k)
      | None => (mkCompleted 1 "", k)
      end
  | Ping i _ h =>
      match k_links k !! i with
      | Some l =>
          (mkCompleted (if bool_decide (h ∈ lk_reach l) then 0 else 1) "", k)
      | None => (mkCompleted 2 "", k)
      end
  | IpRouteShowTable =>
      (mkCompleted 0 (render_table (k_defaults k) (k_others k)), k)
  | IpRouteShowDev i =>
      match k_links k !! i with
      | Some l => (mkCompleted 0 (lk_routes l), k)
      | None => (mkCompleted 1 "", k)
      end
  | IpRouteDelDefault =>
      match lowest_metric (k_defaults k) with
      | Some m =>
          (mkCompleted 0 "",
           mkKernel (k_links k) (delete m (k_defaults k)) (k_others k)
             (k_nat k))
      | None => (mkCompleted 2 "", k)
      end
  | IpRouteAddDefault via dev =>
      match k_links k !! dev, k_defaults k !! 0%N with
      | Some l, None =>
          if match via with
             | Some g => bool_decide (g ∈ lk_onlink l)
             | None => true
             end
          then (mkCompleted 0 "",
                mkKernel (k_links k)
                         (<[0%N := mkNexthop via dev]> (k_defaults k))
                         (k_others k) (k_nat k))
          else (mkCompleted 2 "", k)
      | _, _ => (mkCompleted 2 "", k)
      end
  | IptMasquerade op o s =>
      let r := mkMasq o s in
      match op with
      | IptCheck =>
          (mkCompleted (if bool_decide (r ∈ k_nat k) then 0 else 1) "", k)
      | IptAppend =>
          (mkCompleted 0 "",
           mkKernel (k_links k) (k_defaults k) (k_others k) (k_nat k ++ [r]))
      | IptDelete =>
          if bool_decide (r ∈ k_nat k)
          then (mkCompleted 0 "",
                mkKernel (k_links k) (k_defaults k) (k_others k)
                  (remove_first r (k_nat k)))
          else (mkCompleted 1 "", k)
      end
  end.

(** ** The world: kernel, pending faults, and the history of the run *)

(** What can go wrong with a command beyond what the kernel state decides:
    the process cannot be started ([FaultSpawn], an [OSError] in
    [subprocess.run]), or it exits with a non-zero status without having
    done anything ([FaultExit]). *)
Inductive fault : Type :=
| NoFault
| FaultExit (rc : positive)
| FaultSpawn.

Inductive level : Type := info | warn | error.

(** What the history records: each command with its exit status ([None]
    when it could not be started) and the kernel it left, each logged
    message, each sleep, each line written by [click.echo]. *)
Inductive event : Type :=
| EvRun (c : cmd) (status : option Z) (after : Kernel)
| EvLog (lvl : level) (msg : string)
| EvSleep (secs : Z)
| EvEcho (line : string).

(** [w_faults] is consumed one entry per command; when it is exhausted no
    further fault occurs.  [w_trace] is chronological. *)
Record World : Type := mkWorld {
  w_kernel : Kernel;
  w_faults : list fault;
  w_trace : list event;
}.

Definition M (A : Type) : Type := World -> result A * World.

Definition ret {A} (a : A) : M A := fun w => (Ret a, w).

Definition raise {A} (e : exn) : M A := fun w => (Raise e, w).

Definition bind {A B} (c : M A) (f : A -> M B) : M B :=
  fun w =>
    match c w with
    | (Ret a, w') => f a w'
    | (Raise e, w') => (Raise e, w')
    end.

Notation "x <- c ;; k" := (bind c (fun x => k))
  (at level 100, c at next level, right associativity).
Notation "c ;;; k" := (bind c (fun _ => k))
  (at level 100, right associativity).

(** [try: c except CLASS as e: h e], where [handles] tells the class. *)
Definition try_except {A} (c : M A) (handles : exn -> bool) (h : exn -> M A)
  : M A :=
  fun w =>
    match c w with
    | (Ret a, w') => (Ret a, w')
    | (Raise e, w') => if handles e then h e w' else (Raise e, w')
    end.

Definition emit (e : event) : M unit :=
  fun w => (Ret tt, mkWorld (w_kernel w) (w_faults w) (w_trace w ++ [e])).

Definition next_fault (fs : list fault) : fault :=
  match fs with
  | [] => NoFault
  | f :: _ => f
  end.

(** The world after a command: one fault entry used up, the command entered
    in the history with its status and the kernel it left. *)
Definition record (w : World) (c : cmd) (status : option Z) (k' : Kernel)
  : World :=
  mkWorld k' (tail (w_faults w)) (w_trace w ++ [EvRun c status k']).

(** What [subprocess.run] hands back for a process that ran: with [check], a
    non-zero exit status raises [CalledProcessError]; without
    [capture_output] the standard output is not available to the caller. *)
Definition completed (check capture_output : bool) (p : CompletedProcess)
  : result CompletedProcess :=
  if check && negb (returncode p =? 0)
  then Raise (CalledProcessError (returncode p))
  else Ret (mkCompleted (returncode p)
                        (if capture_output then stdout p else "")).

(** [utils.run_command]. *)
Definition run_command (c : cmd) (check capture_output : bool)
  : M CompletedProcess :=
  fun w =>
    match next_fault (w_faults w) with
    | FaultSpawn => (Raise OSError, record w c None (w_kernel w))
    | FaultExit rc =>
        (completed check capture_output (mkCompleted (Z.pos rc) ""),
         record w c (Some (Z.pos rc)) (w_kernel w))
    | NoFault =>
        let '(p, k') := exec c (w_kernel w) in
        (completed check capture_output p,
         record w c (Some (returncode p)) k')
    end.

(** ** [utils.check_interface_exists] *)

Definition check_interface_exists (interface : string) : M bool :=
  try_except
    (result <- run_command (IpLinkShow interface) false true ;;
     ret (returncode result =? 0))
    is_Exception
    (fun _ => ret false).

(** ** [monitor.VPNMonitor] *)

Inductive vpn : Type := tailscale | openvpn | none.

Record VPNMonitor : Type := mkMonitor {
  check_interval : Z;
  ping_timeout : Z;
  test_host : string;
  running : bool;
  usb_network : string;
  tailscale_interface : string;
  openvpn_interface : string;
}.

(** [VPNMonitor.__init__]. *)
Definition VPNMonitor_init (check_interval ping_timeout : Z)
    (test_host : string) : VPNMonitor :=
  {| check_interval := check_interval;
     ping_timeout := ping_timeout;
     test_host := test_host;
     running := false;
     usb_network := "192.168.64.0/24";
     tailscale_interface := "tailscale0";
     openvpn_interface := "tun0" |}.

Definition set_running (self : VPNMonitor) (b : bool) : VPNMonitor :=
  {| check_interval := check_interval self;
     ping_timeout := ping_timeout self;
     test_host := test_host self;
     running := b;
     usb_network := usb_network self;
     tailscale_interface := tailscale_interface self;
     openvpn_interface := openvpn_interface self |}.

(** [_signal_handler]: clears the running flag. *)
Definition _signal_handler (self : VPNMonitor) : VPNMonitor :=
  set_running self false.

(** [_log_with_timestamp]; the clock reading put in front of the message is
    left out. *)
Definition _log_with_timestamp (lvl : level) (message : string) : M unit :=
  emit (EvLog lvl message).

Definition check_interface_connectivity (self : VPNMonitor)
    (interface : string) : M bool :=
  exists_ <- check_interface_exists interface ;;
  if negb exists_ then ret false
  else
    has_ip <-
      try_except
        (result <- run_command (IpAddrShow interface) true true ;;
         ret (Text.contains "inet " (stdout result)))
        is_Exception
        (fun _ => ret false) ;;
    if negb has_ip then ret false
    else
      try_except
        (result <- run_command
                     (Ping interface (ping_timeout self) (test_host self))
                     false true ;;
         ret (returncode result =? 0))
        is_Exception
        (fun _ => ret false).

(** Python truth value of a [str]. *)
Definition truthy (s : string) : bool :=
  match s with
  | EmptyString => false
  | _ => true
  end.

(** The decision [get_current_vpn] takes on a completed listing. *)
Definition classify_listing (self : VPNMonitor) (result : CompletedProcess)
  : vpn :=
  if (returncode result =? 0) && truthy (stdout result) then
    if Text.contains (tailscale_interface self) (stdout result) then tailscale
    else if Text.contains (openvpn_interface self) (stdout result) then openvpn
    else none
  else none.

Definition get_current_vpn (self : VPNMonitor) : M vpn :=
  try_except
    (result <- run_command IpRouteShowTable false true ;;
     ret (classify_listing self result))
    is_Exception
    (fun _ => ret none).

(** [re.search(r'^100\.[\d\.]+', text, re.MULTILINE)]: the first line start
    at which ["100."] is followed by at least one digit or dot; the match is
    the longest such run. *)
Definition match_gateway_here (s : string) : option string :=
  if Text.prefix "100." s then
    match Text.span_digits_dots (Text.drop 4 s) with
    | EmptyString => None
    | r => Some ("100." ++ r)%string
    end
  else None.

Fixpoint search_gateway_from (at_line_start : bool) (s : string)
  : option string :=
  match s with
  | EmptyString => None
  | String c s' =>
      match (if at_line_start then match_gateway_here s else None) with
      | Some g => Some g
      | None => search_gateway_from (Text.is_newline c) s'
      end
  end.

Definition search_gateway (text : string) : option string :=
  search_gateway_from true text.

Definition switch_to_tailscale (self : VPNMonitor) : M bool :=
  _log_with_timestamp info "Switching USB routing to Tailscale..." ;;;
  try_except
    (run_command IpRouteDelDefault false false ;;;
     result <- run_command (IpRouteShowDev (tailscale_interface self))
                 true true ;;
     (match search_gateway (stdout result) with
      | Some gateway =>
          run_command
            (IpRouteAddDefault (Some gateway) (tailscale_interface self))
            true false
      | None =>
          run_command (IpRouteAddDefault None (tailscale_interface self))
            true false
      end) ;;;
     run_command
       (IptMasquerade IptDelete (openvpn_interface self) (usb_network self))
       false false ;;;
     try_except
       (run_command
          (IptMasquerade IptCheck (tailscale_interface self)
             (usb_network self))
          true false)
       is_CalledProcessError
       (fun _ =>
          run_command
            (IptMasquerade IptAppend (tailscale_interface self)
               (usb_network self))
            true false) ;;;
     _log_with_timestamp info "Switched to Tailscale successfully" ;;;
     ret true)
    is_Exception
    (fun e =>
       _log_with_timestamp error
         ("Failed to switch to Tailscale: " ++ exn_str e)%string ;;;
       ret false).

Definition switch_to_openvpn (self : VPNMonitor) : M bool :=
  _log_with_timestamp info "Switching USB routing to OpenVPN..." ;;;
  try_except
    (run_command IpRouteDelDefault false false ;;;
     run_command (IpRouteAddDefault None (openvpn_interface self))
       true false ;;;
     run_command
       (IptMasquerade IptDelete (tailscale_interface self) (usb_network self))
       false false ;;;
     try_except
       (run_command
          (IptMasquerade IptCheck (openvpn_interface self) (usb_network self))
          true false)
       is_CalledProcessError
       (fun _ =>
          run_command
            (IptMasquerade IptAppend (openvpn_interface self)
               (usb_network self))
            true false) ;;;
     _log_with_timestamp info "Switched to OpenVPN successfully" ;;;
     ret true)
    is_Exception
    (fun e =>
       _log_with_timestamp error
         ("Failed to switch to OpenVPN: " ++ exn_str e)%string ;;;
       ret false).

(** The longest sleep, in seconds, whose length in nanoseconds fits the
    signed 64-bit integer the interpreter converts it to. *)
Definition sleep_max : Z := 9223372036.

(** [time.sleep] on an [int]: the length is converted first, which raises
    [OverflowError] when it does not fit; a negative length is then refused
    with [ValueError]. *)
Definition sleep (secs : Z) : M unit :=
  if (secs <? - sleep_max) || (sleep_max <? secs) then
    raise (OverflowError "timestamp too large to convert to C _PyTime_t")
  else if secs <? 0 then
    raise (ValueError "sleep length must be non-negative")
  else emit (EvSleep secs).

(** The failover logic of one cycle, after the three readings. *)
Definition failover (self : VPNMonitor) (current_vpn : vpn)
    (tailscale_up openvpn_up : bool) : M unit :=
  match current_vpn with
  | tailscale =>
      if negb tailscale_up && openvpn_up then
        _log_with_timestamp warn "Tailscale down, failing over to OpenVPN" ;;;
        switch_to_openvpn self ;;;
        ret tt
      else ret tt
  | openvpn =>
      if tailscale_up then
        _log_with_timestamp info
          "Tailscale is back up, switching back from OpenVPN" ;;;
        switch_to_tailscale self ;;;
        ret tt
      else if negb openvpn_up then
        _log_with_timestamp error
          "WARNING: OpenVPN is down and Tailscale unavailable!"
      else ret tt
  | none =>
      if tailscale_up then
        _log_with_timestamp info "Tailscale available, enabling VPN routing" ;;;
        switch_to_tailscale self ;;;
        ret tt
      else if openvpn_up then
        _log_with_timestamp info "OpenVPN available, enabling VPN routing" ;;;
        switch_to_openvpn self ;;;
        ret tt
      else
        _log_with_timestamp warn "WARNING: No VPN connections available!"
  end.

(** The body of the [try] of [monitor_loop], up to the sleep. *)
Definition monitor_cycle (self : VPNMonitor) : M unit :=
  current_vpn <- get_current_vpn self ;;
  tailscale_up <- check_interface_connectivity self (tailscale_interface self) ;;
  openvpn_up <- check_interface_connectivity self (openvpn_interface self) ;;
  failover self current_vpn tailscale_up openvpn_up.

(** ** The poll loop *)

(** How a run of the loop stands after a bounded number of iterations. *)
Inductive loop_end : Type :=
| Stopped              (* the [while] test found the running flag cleared *)
| Interrupted          (* [break] on [KeyboardInterrupt] *)
| Escaped (e : exn)    (* an exception left [monitor_loop] *)
| StillRunning.        (* the iterations asked for are done, the loop goes on *)

Section Loop.

(** What happens outside the process while it sleeps in cycle [n]: other
    actors change the kernel state, and a termination signal may arrive,
    which runs [_signal_handler]. *)
Variable outside : nat -> Kernel -> Kernel.
Variable signal_at : nat -> bool.

Definition during_sleep (n : nat) (self : VPNMonitor) (w : World)
  : VPNMonitor * World :=
  (if signal_at n then _signal_handler self else self,
   mkWorld (outside n (w_kernel w)) (w_faults w) (w_trace w)).

Definition finish (how : loop_end) (self : VPNMonitor) (w : World)
  : loop_end * VPNMonitor * World :=
  (how, self,
   snd (_log_with_timestamp info "VPN failover monitor stopped" w)).

(** [iterations] bounds the number of passes through the [while] body;
    [n] is the index of the current cycle. *)
Fixpoint loop_from (iterations n : nat) (self : VPNMonitor) (w : World)
  : loop_end * VPNMonitor * World :=
  match iterations with
  | O => (StillRunning, self, w)
  | S iterations' =>
      if negb (running self) then finish Stopped self w
      else
        match (monitor_cycle self ;;; sleep (check_interval self)) w with
        | (Ret _, w1) =>
            let '(self', w2) := during_sleep n self w1 in
            loop_from iterations' (S n) self' w2
        | (Raise KeyboardInterrupt, w1) => finish Interrupted self w1
        | (Raise e, w1) =>
            match (_log_with_timestamp error
                     ("Monitor error: " ++ exn_str e)%string ;;;
                   sleep (check_interval self)) w1 with
            | (Ret _, w2) =>
                let '(self', w3) := during_sleep n self w2 in
                loop_from iterations' (S n) self' w3
            | (Raise e', w2) => (Escaped e', self, w2)
            end
        end
  end.

Definition monitor_loop (iterations : nat) (self : VPNMonitor) (w : World)
  : loop_end * VPNMonitor * World :=
  let w0 := snd (_log_with_timestamp info "VPN failover monitor started" w) in
  loop_from iterations 0 (set_running self true) w0.

End Loop.

(** [get_status]. *)
Record Status : Type := mkStatus {
  st_current_vpn : vpn;
  st_tailscale : bool;
  st_openvpn : bool;
  st_monitor_running : bool;
}.

Definition get_status (self : VPNMonitor) : M Status :=
  current_vpn <- get_current_vpn self ;;
  tailscale_status <- check_interface_connectivity self (tailscale_interface self) ;;
  openvpn_status <- check_interface_connectivity self (openvpn_interface self) ;;
  ret (mkStatus current_vpn tailscale_status openvpn_status (running self)).

(** ** [monitor.main]

    The command-line entry point of the failover controller.  The three
    options are the only values it is started from: the monitor is built
    from them as they come, and no [RouterConfig] is constructed. *)

(** How a run of [main] stands after a bounded number of loop iterations. *)
Inductive main_end : Type :=
| Returned             (* [main] returned *)
| Exit (code : Z)      (* [sys.exit] *)
| Uncaught (e : exn)   (* an exception left [main] *)
| Running.             (* the loop goes on *)

Definition vpn_str (v : vpn) : string :=
  match v with
  | tailscale => "tailscale"
  | openvpn => "openvpn"
  | none => "none"
  end.

Definition up_down (b : bool) : string := if b then "UP" else "DOWN".

Definition main (outside : nat -> Kernel -> Kernel) (signal_at : nat -> bool)
    (iterations : nat) (check_interval ping_timeout : Z) (test_host : string)
    (status_only : bool) (w : World) : main_end * World :=
  let monitor := VPNMonitor_init check_interval ping_timeout test_host in
  if status_only then
    match get_status monitor w with
    | (Ret status, w1) =>
        (Returned,
         snd ((emit (EvEcho ("Current VPN: " ++ vpn_str (st_current_vpn status))) ;;;
               emit (EvEcho ("Tailscale: " ++ up_down (st_tailscale status))) ;;;
               emit (EvEcho ("OpenVPN: " ++ up_down (st_openvpn status)))) w1))
    | (Raise e, w1) => (Uncaught e, w1)
    end
  else
    match monitor_loop outside signal_at iterations monitor w with
    | (StillRunning, _, w1) => (Running, w1)
    | (Escaped KeyboardInterrupt, _, w1) =>
        (Returned, snd (emit (EvLog info "Monitor stopped by user") w1))
    | (Escaped e, _, w1) =>
        (Exit 1, snd (emit (EvLog error ("Monitor failed: " ++ exn_str e)) w1))
    | (_, _, w1) => (Returned, w1)
    end.

(** ** Python's [ipaddress] module, as far as [RouterConfig.validate] uses it

    Addresses are 32-bit integers.  [AddressValueError] and
    [NetmaskValueError] are subclasses of [ValueError] and are not told
    apart; the error messages are abbreviated. *)

Module Ipaddress.

Definition ALL_ONES : Z := 2 ^ 32 - 1.
Definition max_prefixlen : Z := 32.

Fixpoint split (sep : ascii) (s : string) : list string :=
  match s with
  | EmptyString => [EmptyString]
  | String c s' =>
      if Ascii.eqb c sep then EmptyString :: split sep s'
      else match split sep s' with
           | x :: xs => String c x :: xs
           | [] => [String c EmptyString]
           end
  end.

Fixpoint all_digits (s : string) : bool :=
  match s with
  | EmptyString => true
  | String c s' => Text.is_digit c && all_digits s'
  end.

(** [s.isascii() and s.isdigit()]: false on the empty string. *)
Definition isdigit (s : string) : bool :=
  match s with
  | EmptyString => false
  | _ => all_digits s
  end.

Fixpoint int_acc (acc : Z) (s : string) : Z :=
  match s with
  | EmptyString => acc
  | String c s' => int_acc (10 * acc + (Z.of_nat (nat_of_ascii c) - 48)) s'
  end.

(** [int(s, 10)] on a string of digits. *)
Definition int (s : string) : Z := int_acc 0 s.

Definition _parse_octet (octet_str : string) : result Z :=
  if negb (truthy octet_str) then
    Raise (ValueError "Empty octet not permitted")
  else if negb (isdigit octet_str) then
    Raise (ValueError "Only decimal digits permitted")
  else if Nat.ltb 3 (String.length octet_str) then
    Raise (ValueError "At most 3 characters permitted")
  else if negb (String.eqb octet_str "0") && Text.prefix "0" octet_str then
    Raise (ValueError "Leading zeros are not permitted")
  else if 255 <? int octet_str then
    Raise (ValueError "Octet > 255 not permitted")
  else Ret (int octet_str).

Definition from_octets (a b c d : Z) : Z :=
  Z.lor (Z.shiftl a 24) (Z.lor (Z.shiftl b 16) (Z.lor (Z.shiftl c 8) d)).

Definition _ip_int_from_string (ip_str : string) : result Z :=
  if negb (truthy ip_str) then Raise (ValueError "Address cannot be empty")
  else
    match split "." ip_str with
    | [o1; o2; o3; o4] =>
        match _parse_octet o1, _parse_octet o2,
              _parse_octet o3, _parse_octet o4 with
        | Ret a, Ret b, Ret c, Ret d => Ret (from_octets a b c d)
        | Raise e, _, _, _ => Raise e
        | _, Raise e, _, _ => Raise e
        | _, _, Raise e, _ => Raise e
        | _, _, _, Raise e => Raise e
        end
    | _ => Raise (ValueError "Expected 4 octets")
    end.

(** [IPv4Address(address)] for a [str] argument. *)
Definition IPv4Address (address : string) : result Z :=
  if Text.contains "/" address then Raise (ValueError "Unexpected '/'")
  else _ip_int_from_string address.

Definition bit_length (x : Z) : Z :=
  if x =? 0 then 0 else Z.log2 x + 1.

Definition _count_righthand_zero_bits (number bits : Z) : Z :=
  if number =? 0 then bits
  else Z.min bits (bit_length (Z.land (Z.lnot number) (number - 1))).

Definition _ip_int_from_prefix (prefixlen : Z) : Z :=
  Z.lxor ALL_ONES (Z.shiftr ALL_ONES prefixlen).

Definition _prefix_from_prefix_string (prefixlen_str : string) : result Z :=
  if negb (isdigit prefixlen_str) then Raise (ValueError "invalid netmask")
  else
    let prefixlen := int prefixlen_str in
    if (0 <=? prefixlen) && (prefixlen <=? max_prefixlen) then Ret prefixlen
    else Raise (ValueError "invalid netmask").

Definition _prefix_from_ip_int (ip_int : Z) : result Z :=
  let trailing_zeroes := _count_righthand_zero_bits ip_int max_prefixlen in
  let prefixlen := max_prefixlen - trailing_zeroes in
  let leading_ones := Z.shiftr ip_int trailing_zeroes in
  let all_ones := Z.shiftl 1 prefixlen - 1 in
  if negb (leading_ones =? all_ones) then
    Raise (ValueError "Netmask pattern mixes zeroes and ones")
  else Ret prefixlen.

Definition _prefix_from_ip_string (ip_str : string) : result Z :=
  match _ip_int_from_string ip_str with
  | Raise _ => Raise (ValueError "invalid netmask")
  | Ret ip_int =>
      match _prefix_from_ip_int ip_int with
      | Ret p => Ret p
      | Raise _ =>
          match _prefix_from_ip_int (Z.lxor ip_int ALL_ONES) with
          | Ret p => Ret p
          | Raise _ => Raise (ValueError "invalid netmask")
          end
      end
  end.

(** [_make_netmask] for a [str] argument: the prefix length. *)
Definition _make_netmask (arg : string) : result Z :=
  match _prefix_from_prefix_string arg with
  | Ret p => Ret p
  | Raise _ => _prefix_from_ip_string arg
  end.

Record Network : Type := mkNetwork {
  network_address : Z;
  prefixlen : Z;
}.

Definition netmask (n : Network) : Z := _ip_int_from_prefix (prefixlen n).

(** [IPv4Network(address, strict)] for a [str] argument. *)
Definition IPv4Network (address : string) (strict : bool) : result Network :=
  match split "/" address with
  | addr :: rest =>
      match rest with
      | _ :: _ :: _ => Raise (ValueError "Only one '/' permitted")
      | _ =>
          match IPv4Address addr with
          | Raise e => Raise e
          | Ret packed =>
              match (match rest with
                     | mask :: _ => _make_netmask mask
                     | [] => Ret max_prefixlen
                     end) with
              | Raise e => Raise e
              | Ret p =>
                  let m := _ip_int_from_prefix p in
                  if negb (Z.land packed m =? packed) then
                    if strict then Raise (ValueError "has host bits set")
                    else Ret (mkNetwork (Z.land packed m) p)
                  else Ret (mkNetwork packed p)
              end
          end
      end
  | [] => Raise (ValueError "Address cannot be empty")
  end.

Definition octet (ip : Z) (i : Z) : Z :=
  Z.land (Z.shiftr ip (8 * (3 - i))) 255.

(** [str(address)]. *)
Definition address_str (ip : Z) : string :=
  (pretty (Z.to_N (octet ip 0)) ++ "." ++ pretty (Z.to_N (octet ip 1)) ++ "."
   ++ pretty (Z.to_N (octet ip 2)) ++ "." ++ pretty (Z.to_N (octet ip 3)))%string.

(** [str(network)]. *)
Definition network_str (n : Network) : string :=
  (address_str (network_address n) ++ "/" ++ pretty (Z.to_N (prefixlen n)))%string.

(** [address in network]. *)
Definition contains (n : Network) (ip : Z) : bool :=
  Z.land ip (netmask n) =? network_address n.

(** [network.hostmask], [network.broadcast_address] and
    [network.num_addresses]. *)
Definition hostmask (n : Network) : Z := Z.lxor (netmask n) ALL_ONES.

Definition broadcast_address (n : Network) : Z :=
  Z.lor (network_address n) (hostmask n).

Definition num_addresses (n : Network) : Z :=
  broadcast_address n - network_address n + 1.

End Ipaddress.

(** ** [utils.validate_ip_address] and [utils.validate_network_cidr] *)

Definition validate_ip_address (ip : string) : result bool :=
  match Ipaddress.IPv4Address ip with
  | Ret _ => Ret true
  | Raise e => if is_ValueError e then Ret false else Raise e
  end.

Definition validate_network_cidr (cidr : string) : result bool :=
  match Ipaddress.IPv4Network cidr false with
  | Ret _ => Ret true
  | Raise e => if is_ValueError e then Ret false else Raise e
  end.

(** ** [config.RouterConfig] *)

Module Config.

Record RouterConfig : Type := mkConfig {
  usb_network : string;
  usb_ip : string;
  usb_dhcp_start : string;
  usb_dhcp_end : string;
  wan_interface : string;
  usb_interface : string;
  tailscale_interface : string;
  openvpn_interface : string;
  use_tailscale_exit : bool;
  enable_vpn_failover : bool;
  dashboard_enabled : bool;
  dashboard_port : Z;
  dashboard_host : string;
}.

(** The field defaults of the dataclass. *)
Definition default : RouterConfig :=
  {| usb_network := "192.168.64.0/24";
     usb_ip := "192.168.64.1";
     usb_dhcp_start := "192.168.64.50";
     usb_dhcp_end := "192.168.64.150";
     wan_interface := "wlan0";
     usb_interface := "usb0";
     tailscale_interface := "tailscale0";
     openvpn_interface := "tun0";
     use_tailscale_exit := false;
     enable_vpn_failover := true;
     dashboard_enabled := false;
     dashboard_port := 8000;
     dashboard_host := "0.0.0.0" |}.

(** The fields, by the type of value they hold. *)
Inductive field : Type -> Type :=
| F_usb_network : field string
| F_usb_ip : field string
| F_usb_dhcp_start : field string
| F_usb_dhcp_end : field string
| F_wan_interface : field string
| F_usb_interface : field string
| F_tailscale_interface : field string
| F_openvpn_interface : field string
| F_use_tailscale_exit : field bool
| F_enable_vpn_failover : field bool
| F_dashboard_enabled : field bool
| F_dashboard_port : field Z
| F_dashboard_host : field string.

(** Attribute assignment [self.f = v].  The class is declared with a bare
    [@dataclass]: its instances are not frozen, and an assignment stores
    the value without any check. *)
Definition setattr {T} (self : RouterConfig) (f : field T) : T -> RouterConfig :=
  let '(mkConfig a b c d e g h i j k l m n) := self in
  match f in field T return T -> RouterConfig with
  | F_usb_network => fun v => mkConfig v b c d e g h i j k l m n
  | F_usb_ip => fun v => mkConfig a v c d e g h i j k l m n
  | F_usb_dhcp_start => fun v => mkConfig a b v d e g h i j k l m n
  | F_usb_dhcp_end => fun v => mkConfig a b c v e g h i j k l m n
  | F_wan_interface => fun v => mkConfig a b c d v g h i j k l m n
  | F_usb_interface => fun v => mkConfig a b c d e v h i j k l m n
  | F_tailscale_interface => fun v => mkConfig a b c d e g v i j k l m n
  | F_openvpn_interface => fun v => mkConfig a b c d e g h v j k l m n
  | F_use_tailscale_exit => fun v => mkConfig a b c d e g h i v k l m n
  | F_enable_vpn_failover => fun v => mkConfig a b c d e g h i j v l m n
  | F_dashboard_enabled => fun v => mkConfig a b c d e g h i j k v m n
  | F_dashboard_port => fun v => mkConfig a b c d e g h i j k l v n
  | F_dashboard_host => fun v => mkConfig a b c d e g h i j k l m v
  end.

(** Attribute access [self.f]. *)
Definition getattr {T} (self : RouterConfig) (f : field T) : T :=
  match f in field T return T with
  | F_usb_network => usb_network self
  | F_usb_ip => usb_ip self
  | F_usb_dhcp_start => usb_dhcp_start self
  | F_usb_dhcp_end => usb_dhcp_end self
  | F_wan_interface => wan_interface self
  | F_usb_interface => usb_interface self
  | F_tailscale_interface => tailscale_interface self
  | F_openvpn_interface => openvpn_interface self
  | F_use_tailscale_exit => use_tailscale_exit self
  | F_enable_vpn_failover => enable_vpn_failover self
  | F_dashboard_enabled => dashboard_enabled self
  | F_dashboard_port => dashboard_port self
  | F_dashboard_host => dashboard_host self
  end.

(** The checks of the inner [try] block of [validate]. *)
Definition check_addresses (self : RouterConfig)
    (network : Ipaddress.Network) : result unit :=
  match Ipaddress.IPv4Address (usb_ip self) with
  | Raise e => Raise e
  | Ret ip =>
  match Ipaddress.IPv4Address (usb_dhcp_start self) with
  | Raise e => Raise e
  | Ret dhcp_start =>
  match Ipaddress.IPv4Address (usb_dhcp_end self) with
  | Raise e => Raise e
  | Ret dhcp_end =>
      if negb (Ipaddress.contains network ip) then
        Raise (ValueError "USB IP not in network")
      else if negb (Ipaddress.contains network dhcp_start) then
        Raise (ValueError "DHCP start not in network")
      else if negb (Ipaddress.contains network dhcp_end) then
        Raise (ValueError "DHCP end not in network")
      else if dhcp_end <=? dhcp_start then
        Raise (ValueError "DHCP start must be less than DHCP end")
      else Ret tt
  end end end.

(** [validate]: returns the object as the method leaves it (the network
    field is rewritten in normal form), or the exception raised. *)
Definition validate (self : RouterConfig) : result RouterConfig :=
  match Ipaddress.IPv4Network (usb_network self) false with
  | Raise e =>
      if is_ValueError e
      then Raise (ValueError ("Invalid USB network: " ++ exn_str e)%string)
      else Raise e
  | Ret network =>
      let self := setattr self F_usb_network (Ipaddress.network_str network) in
      match check_addresses self network with
      | Raise e =>
          if is_ValueError e
          then Raise (ValueError
                        ("Invalid IP configuration: " ++ exn_str e)%string)
          else Raise e
      | Ret _ =>
          if negb ((1 <=? dashboard_port self) && (dashboard_port self <=? 65535))
          then Raise (ValueError "Invalid dashboard port")
          else Ret self
      end
  end.

(** Construction: the generated [__init__] stores the fields and
    [__post_init__] calls [validate]. *)
Definition RouterConfig_new (fields : RouterConfig) : result RouterConfig :=
  validate fields.

(** [from_dict]. *)
Definition from_dict (fields : RouterConfig) : result RouterConfig :=
  RouterConfig_new fields.

(** What the checks of [validate] ask of the fields: a client subnet in
    CIDR form, the router address and the two DHCP bounds inside it, the
    first bound below the second, and a port between 1 and 65535. *)
Definition acceptable (c : RouterConfig) : Prop :=
  exists network ip lo hi,
    Ipaddress.IPv4Network (usb_network c) false = Ret network /\
    Ipaddress.IPv4Address (usb_ip c) = Ret ip /\
    Ipaddress.IPv4Address (usb_dhcp_start c) = Ret lo /\
    Ipaddress.IPv4Address (usb_dhcp_end c) = Ret hi /\
    Ipaddress.contains network ip = true /\
    Ipaddress.contains network lo = true /\
    Ipaddress.contains network hi = true /\
    lo < hi /\
    1 <= dashboard_port c <= 65535.

(** The dictionary [get_network_info] returns. *)
Record NetworkInfo : Type := mkNetworkInfo {
  ni_network : string;
  ni_netmask : string;
  ni_broadcast : string;
  ni_prefix_length : Z;
  ni_host_count : Z;
}.

(** [get_network_info]: the network field is parsed again, here with the
    default [strict=True]. *)
Definition get_network_info (self : RouterConfig) : result NetworkInfo :=
  match Ipaddress.IPv4Network (usb_network self) true with
  | Raise e => Raise e
  | Ret network =>
      Ret {| ni_network :=
               Ipaddress.address_str (Ipaddress.network_address network);
             ni_netmask := Ipaddress.address_str (Ipaddress.netmask network);
             ni_broadcast :=
               Ipaddress.address_str (Ipaddress.broadcast_address network);
             ni_prefix_length := Ipaddress.prefixlen network;
             ni_host_count := Ipaddress.num_addresses network - 2 |}
  end.

(** The configuration [installer.main] builds from its command-line
    options; the other fields keep their defaults. *)
Definition installer_config (use_tailscale_exit enable_vpn_failover : bool)
    (wan_interface usb_network : string) : result RouterConfig :=
  RouterConfig_new
    (setattr
       (setattr
          (setattr
             (setattr default F_use_tailscale_exit use_tailscale_exit)
             F_enable_vpn_failover enable_vpn_failover)
          F_wan_interface wan_interface)
       F_usb_network usb_network).

End Config.

(** ** Vocabulary of the specification

    The specification speaks of a primary and a secondary backend, of
    [Probe], [CurrentBackend] and [SwitchTo]; the definitions below name the
    parts of the code it means. *)

Inductive backend : Type := Primary | Secondary.

Definition other (b : backend) : backend :=
  match b with
  | Primary => Secondary
  | Secondary => Primary
  end.

Definition interface_of (self : VPNMonitor) (b : backend) : string :=
  match b with
  | Primary => tailscale_interface self
  | Secondary => openvpn_interface self
  end.

Definition vpn_of (b : backend) : vpn :=
  match b with
  | Primary => tailscale
  | Secondary => openvpn
  end.

Definition Probe (self : VPNMonitor) (b : backend) : M bool :=
  check_interface_connectivity self (interface_of self b).

Definition CurrentBackend (self : VPNMonitor) : M vpn := get_current_vpn self.

Definition SwitchTo (self : VPNMonitor) (b : backend) : M bool :=
  match b with
  | Primary => switch_to_tailscale self
  | Secondary => switch_to_openvpn self
  end.

(** The masquerade rule of the client subnet on a backend's interface. *)
Definition rule_of (self : VPNMonitor) (b : backend) : masq :=
  mkMasq (interface_of self b) (usb_network self).

(** The masquerade rules of the client subnet in a kernel. *)
Definition client_rules (self : VPNMonitor) (k : Kernel) : list masq :=
  filter (fun r => mq_src r = usb_network self) (k_nat k).

Definition is_ping (e : event) : bool :=
  match e with
  | EvRun (Ping _ _ _) _ _ => true
  | _ => false
  end.

(** A command of the history that did not complete with status 0. *)
Definition failed (e : event) : bool :=
  match e with
  | EvRun _ (Some 0) _ => false
  | EvRun _ _ _ => true
  | _ => false
  end.

Definition command_of (e : event) : option cmd :=
  match e with
  | EvRun c _ _ => Some c
  | _ => None
  end.

Definition commands (evs : list event) : list cmd := omap command_of evs.

Definition is_log (e : event) : bool :=
  match e with
  | EvLog _ _ => true
  | _ => false
  end.

(** The log line that opens a switch to a backend. *)
Definition switch_announce (b : backend) : event :=
  match b with
  | Primary => EvLog info "Switching USB routing to Tailscale..."
  | Secondary => EvLog info "Switching USB routing to OpenVPN..."
  end.

(** The monitor object as [main] builds it. *)
Definition monitor (check_interval ping_timeout : Z) (test_host : string)
  : VPNMonitor :=
  VPNMonitor_init check_interval ping_timeout test_host.

(** The events a computation adds to the history of a world. *)
Definition emitted {A} (c : M A) (w : World) : list event :=
  drop (length (w_trace w)) (w_trace (c w).2).

(** Weakest precondition of a computation for a postcondition on its result
    and final world. *)
Definition wp {A} (c : M A) (w : World) (Q : result A -> World -> Prop)
  : Prop :=
  Q (c w).1 (c w).2.

(** The default route of the policy table that is in effect: the one with
    the lowest metric. *)
Definition active_default (k : Kernel) : option nexthop :=
  m ← lowest_metric (k_defaults k); k_defaults k !! m.

(** What [CurrentBackend] reads when the listing command runs normally. *)
Definition listing (k : Kernel) : CompletedProcess :=
  mkCompleted 0 (render_table (k_defaults k) (k_others k)).

(** A computation that always returns a value. *)
Definition returns {A} (c : M A) : Prop :=
  forall w, exists a w', c w = (Ret a, w').

(** A computation whose exceptions, if any, are of class [Exception]. *)
Definition raises_only_Exception {A} (c : M A) : Prop :=
  forall w e w', c w = (Raise e, w') -> is_Exception e = true.

(** A result that, when it is an exception, is a [ValueError]. *)
Definition only_ValueError {A} (r : result A) : Prop :=
  forall e, r = Raise e -> exists m, e = ValueError m.

(** A computation that only adds to the history. *)
Definition extends_trace {A} (c : M A) : Prop :=
  forall w, exists evs, w_trace (c w).2 = (w_trace w ++ evs)%list.

(** The transition table of the failover controller as the specification
    gives it (section 4.4): for a state and the two reachability samples,
    the backend to switch to if any, the level of the message logged when
    there is no switch, and the next state. *)
Record row : Type := mkRow {
  row_switch : option backend;
  row_log : option level;
  row_next : vpn;
}.

Definition transition_table (state : vpn) (primary_up secondary_up : bool)
  : row :=
  match state, primary_up, secondary_up with
  | none, true, _ => mkRow (Some Primary) None tailscale
  | none, false, true => mkRow (Some Secondary) None openvpn
  | none, false, false => mkRow None (Some warn) none
  | tailscale, true, _ => mkRow None None tailscale
  | tailscale, false, true => mkRow (Some Secondary) None openvpn
  | tailscale, false, false => mkRow None (Some error) tailscale
  | openvpn, true, _ => mkRow (Some Primary) None tailscale
  | openvpn, false, true => mkRow None None openvpn
  | openvpn, false, false => mkRow None (Some error) openvpn
  end.

(** The policy table without its default route of lowest metric: what
    [ip route del default] leaves. *)
Definition delete_lowest (m : gmap N nexthop) : gmap N nexthop :=
  match lowest_metric m with
  | Some i => delete i m
  | None => m
  end.

(** The commands of a switch, in the order the source issues them; [gw] is
    the gateway found for the primary backend. *)
Definition switch_commands (self : VPNMonitor) (b : backend)
    (gw : option string) : list cmd :=
  let target := interface_of self b in
  let other_ifc := interface_of self (other b) in
  [IpRouteDelDefault]
  ++ match b with
     | Primary => [IpRouteShowDev target; IpRouteAddDefault gw target]
     | Secondary => [IpRouteAddDefault None target]
     end
  ++ [IptMasquerade IptDelete other_ifc (usb_network self);
      IptMasquerade IptCheck target (usb_network self);
      IptMasquerade IptAppend target (usb_network self)].

(** The kernel a command leaves, and whether it exits with status 0, when
    no fault occurs. *)
Definition after (c : cmd) (k : Kernel) : Kernel := (exec c k).2.

Definition succeeds (c : cmd) (k : Kernel) : bool :=
  returncode (exec c k).1 =? 0.

(** The kernel a switch leaves when no fault occurs during it. *)
Definition settle (self : VPNMonitor) (b : backend) (k : Kernel) : Kernel :=
  let target := interface_of self b in
  let net := usb_network self in
  let k1 := after IpRouteDelDefault k in
  let gw :=
    match b with
    | Primary => search_gateway (stdout (exec (IpRouteShowDev target) k1).1)
    | Secondary => None
    end in
  if match b with
     | Primary => succeeds (IpRouteShowDev target) k1
     | Secondary => true
     end
     && succeeds (IpRouteAddDefault gw target) k1
  then
    let k2 := after (IpRouteAddDefault gw target) k1 in
    let k3 := after (IptMasquerade IptDelete (interface_of self (other b)) net) k2 in
    if succeeds (IptMasquerade IptCheck target net) k3 then k3
    else after (IptMasquerade IptAppend target net) k3
  else k1.

(** The commands of a switch that run with [check=True] outside the inner
    [try]: a non-zero exit status of one of them raises in the switch. *)
Definition checked (c : cmd) : bool :=
  match c with
  | IpRouteShowDev _ => true
  | IpRouteAddDefault _ _ => true
  | IptMasquerade IptAppend _ _ => true
  | _ => false
  end.

(** An event at which a switch gives up: a command that could not be
    started, or a checked command that exited with a non-zero status. *)
Definition aborting (e : event) : bool :=
  match e with
  | EvRun _ None _ => true
  | EvRun c (Some status) _ => checked c && negb (status =? 0)
  | _ => false
  end.

(** How often a rule occurs in a chain. *)
Definition occurrences (r : masq) (l : list masq) : nat :=
  length (filter (fun x => x = r) l).

(** What an event of the history says about a rule: whether the kernel a
    command left holds it. *)
Definition holds_rule (r : masq) (e : event) : Prop :=
  match e with
  | EvRun _ _ k => r ∈ k_nat k
  | _ => True
  end.

(** ** Worlds used as examples *)

Definition client_net : string := "192.168.64.0/24".

Definition up_link : Link :=
  mkLink ["10.0.0.2/24"] ["1.1.1.1"] "" [].

(** A policy table an outside actor can produce: the default route in effect
    leaves through the secondary interface, and a second default route of
    higher metric leaves through the primary one. *)
Definition two_defaults : Kernel :=
  mkKernel ∅
    (<[0%N := mkNexthop None "tun0"]>
       (<[5%N := mkNexthop None "tailscale0"]> ∅))
    [] [mkMasq "tun0" client_net].

(** A policy table without any default route: its only route leads to the
    subnet of the secondary tunnel. *)
Definition stray_route : Kernel :=
  mkKernel ∅ ∅ [mkRoute "10.8.0.0/24" None "tun0"] [].

(** Traffic runs through the secondary backend; both links are up. *)
Definition on_secondary : Kernel :=
  mkKernel (<["tailscale0" := up_link]> (<["tun0" := up_link]> ∅))
    (<[0%N := mkNexthop None "tun0"]> ∅)
    [] [mkMasq "tun0" client_net].

(** Traffic runs through the primary backend; the secondary link is gone. *)
Definition secondary_gone : Kernel :=
  mkKernel (<["tailscale0" := up_link]> ∅)
    (<[0%N := mkNexthop None "tailscale0"]> ∅)
    [] [mkMasq "tailscale0" client_net].

(** The rule of the secondary backend was appended twice. *)
Definition doubled_rule : Kernel :=
  mkKernel (<["tailscale0" := up_link]> (<["tun0" := up_link]> ∅))
    (<[0%N := mkNexthop None "tun0"]> ∅)
    [] [mkMasq "tun0" client_net; mkMasq "tun0" client_net].

(** Two default routes, and no link for the secondary backend. *)
Definition two_routes_no_link : Kernel :=
  mkKernel ∅
    (<[0%N := mkNexthop None "eth0"]>
       (<[5%N := mkNexthop None "eth1"]> ∅))
    [] [].

(** Traffic runs through the primary backend; both links are down. *)
Definition both_down : Kernel :=
  mkKernel ∅ (<[0%N := mkNexthop None "tailscale0"]> ∅)
    [] [mkMasq "tailscale0" client_net].

Definition quiet (k : Kernel) : World := mkWorld k [] [].

Definition nobody (n : nat) (k : Kernel) : Kernel := k.

Definition no_signal (n : nat) : bool := false.

(** The chain of a fault-free switch: the first occurrence of the other
    backend's rule [o] removed, the target's rule [t] appended if absent. *)
Definition ensure_only (t o : masq) (l : list masq) : list masq :=
  let l' := if bool_decide (o ∈ l) then remove_first o l else l in
  if bool_decide (t ∈ l') then l' else l' ++ [t].

(** The default route a fault-free switch can install, given the links: none
    when the target link is missing or the gateway found is not on it. *)
Definition route_for (self : VPNMonitor) (b : backend)
    (links : gmap string Link) : option nexthop :=
  l ← links !! interface_of self b;
  match b with
  | Primary =>
      let gw := search_gateway (lk_routes l) in
      if match gw with
         | Some g => bool_decide (g ∈ lk_onlink l)
         | None => true
         end
      then Some (mkNexthop gw (interface_of self b))
      else None
  | Secondary => Some (mkNexthop None (interface_of self b))
  end.

(** What a probe answers when no fault occurs: the link exists, the listing
    of its addresses shows one, and the test host answers through it. *)
Definition reachable (self : VPNMonitor) (k : Kernel) (interface : string)
  : bool :=
  match k_links k !! interface with
  | Some l =>
      Text.contains "inet " (render_addr interface l)
      && bool_decide (test_host self ∈ lk_reach l)
  | None => false
  end.

(** The switch the failover logic starts, if any, for a reading of the
    current backend and the two probes. *)
Definition decision (current_vpn : vpn) (tailscale_up openvpn_up : bool)
  : option backend :=
  match current_vpn with
  | tailscale => if negb tailscale_up && openvpn_up then Some Secondary else None
  | openvpn => if tailscale_up then Some Primary else None
  | none =>
      if tailscale_up then Some Primary
      else if openvpn_up then Some Secondary
      else None
  end.

(** The characters of a string. *)
Definition chars (s : string) : list ascii := list_ascii_of_string s.

(** The commands of a probe, in the order the source issues them. *)
Definition probe_commands (self : VPNMonitor) (interface : string)
  : list cmd :=
  [IpLinkShow interface; IpAddrShow interface;
   Ping interface (ping_timeout self) (test_host self)].

(** Whether a switch can install its default route when no fault occurs. *)
Definition installs (self : VPNMonitor) (b : backend) (k : Kernel) : bool :=
  match route_for self b (k_links k) with
  | Some _ => true
  | None => false
  end.

(** Traffic runs through the primary backend, whose link has lost its
    connectivity; the secondary link is up. *)
Definition secondary_up : Kernel :=
  mkKernel
    (<["tailscale0" := mkLink ["100.64.0.2/32"] [] "" []]>
       (<["tun0" := up_link]> ∅))
    (<[0%N := mkNexthop None "tailscale0"]> ∅)
    [] [mkMasq "tailscale0" client_net].

(** What every parsed network satisfies: a 32-bit network address without
    host bits, and a prefix length between 0 and 32. *)
Definition well_formed_network (n : Ipaddress.Network) : Prop :=
  0 <= Ipaddress.network_address n < 2 ^ 32 /\
  0 <= Ipaddress.prefixlen n <= 32 /\
  Z.land (Ipaddress.network_address n) (Ipaddress.netmask n)
  = Ipaddress.network_address n.

(** The address [192.168.64.0], which the defaults of the configuration
    lie around. *)
Definition default_base : Z := Ipaddress.from_octets 192 168 64 0.

(** ** [utils.get_interface_ip]

    [re.search(r'inet (\d+\.\d+\.\d+\.\d+)/\d+', text)] on ASCII text.  A
    run of digits is matched greedily, and no shorter run can be followed by
    the dot or the slash the pattern asks for next, so the match at a
    position is decided without backtracking. *)

(** The longest prefix of decimal digits, and what follows it. *)
Fixpoint span_digits (s : string) : string * string :=
  match s with
  | String c s' =>
      if Text.is_digit c
      then (String c (span_digits s').1, (span_digits s').2)
      else (EmptyString, s)
  | EmptyString => (EmptyString, EmptyString)
  end.

(** [\d+] followed by the character [c]: the digits and the rest. *)
Definition digits_then (c : ascii) (s : string) : option (string * string) :=
  match span_digits s with
  | (EmptyString, _) => None
  | (d, String c' r) => if Ascii.eqb c' c then Some (d, r) else None
  | (_, EmptyString) => None
  end.

(** The pattern matched at the start of [s]: the text of group 1. *)
Definition match_inet_here (s : string) : option string :=
  if Text.prefix "inet " s then
    match digits_then "." (Text.drop 5 s) with
    | Some (a, r1) =>
    match digits_then "." r1 with
    | Some (b, r2) =>
    match digits_then "." r2 with
    | Some (c, r3) =>
    match digits_then "/" r3 with
    | Some (d, r4) =>
        match span_digits r4 with
        | (EmptyString, _) => None
        | _ => Some (a ++ "." ++ b ++ "." ++ c ++ "." ++ d)%string
        end
    | None => None
    end
    | None => None
    end
    | None => None
    end
    | None => None
    end
  else None.

Fixpoint search_inet (s : string) : option string :=
  match match_inet_here s with
  | Some ip => Some ip
  | None =>
      match s with
      | String _ s' => search_inet s'
      | EmptyString => None
      end
  end.

Definition get_interface_ip (interface : string) : M (option string) :=
  try_except
    (result <- run_command (IpAddrShow interface) false true ;;
     if (returncode result =? 0) && truthy (stdout result)
     then ret (search_inet (stdout result))
     else ret None)
    is_Exception
    (fun _ => ret None).

(** A non-empty run of decimal digits. *)
Definition digits (s : string) : Prop :=
  s <> EmptyString /\ Forall (fun c => Text.is_digit c = true) (chars s).

(** Traffic runs through the secondary backend; the primary link answers,
    but the gateway its route listing names is not accepted as a next hop. *)
Definition primary_unroutable : Kernel :=
  mkKernel
    (<["tailscale0" :=
         mkLink ["100.64.0.2/32"] ["1.1.1.1"] "100.64.0.1 dev tailscale0" []]>
       (<["tun0" := up_link]> ∅))
    (<[0%N := mkNexthop None "tun0"]> ∅)
    [] [mkMasq "tun0" client_net].

(** No route of the policy table other than the default routes is listed
    with [name] in its line. *)
Definition others_avoid (name : string) (k : Kernel) : Prop :=
  Forall (fun r => Text.contains name (render_other r) = false) (k_others k).

(** [secondary_up] with the subnet route of the tunnel in the policy
    table. *)
Definition secondary_up_subnet : Kernel :=
  mkKernel (k_links secondary_up) (k_defaults secondary_up)
    [mkRoute "10.8.0.0/24" None "tun0"] (k_nat secondary_up).

(** The kernel a cycle leaves when no fault occurs. *)
Definition cycle_settle (self : VPNMonitor) (k : Kernel) : Kernel :=
  match decision (classify_listing self (listing k))
          (reachable self k (tailscale_interface self))
          (reachable self k (openvpn_interface self)) with
  | Some b => settle self b k
  | None => k
  end.

(** ** [cli._get_wan_interface]

    The [for] loop over the candidate names, then the fallback. *)
Fixpoint first_existing (interfaces : list string) : M string :=
  match interfaces with
  | [] => ret "wlan0"
  | interface :: rest =>
      exists_ <- check_interface_exists interface ;;
      if exists_ then ret interface else first_existing rest
  end.

Definition _get_wan_interface : M string :=
  first_existing ["wlan0"; "eth0"; "enp0s3"].

(** * Properties *)

(** ** Reasoning rules for the command monad *)

Section WpRules.

Context {A B : Type}.

Lemma wp_ret (a : A) w (Q : result A -> World -> Prop) :
  Q (Ret a) w -> wp (ret a) w Q.
Proof. exact id. Qed.

Lemma wp_raise e w (Q : result A -> World -> Prop) :
  Q (Raise e) w -> wp (raise e) w Q.
Proof. exact id. Qed.

Lemma wp_bind (c : M A) (f : A -> M B) w (Q : result B -> World -> Prop) :
  wp c w (fun r w' =>
            match r with
            | Ret a => wp (f a) w' Q
            | Raise e => Q (Raise e) w'
            end) ->
  wp (bind c f) w Q.
Proof.
  unfold wp, bind. destruct (c w) as [[a|e] w']; simpl; auto.
Qed.

Lemma wp_try (c : M A) (handles : exn -> bool) (h : exn -> M A) w
    (Q : result A -> World -> Prop) :
  wp c w (fun r w' =>
            match r with
            | Ret a => Q (Ret a) w'
            | Raise e => if handles e then wp (h e) w' Q else Q (Raise e) w'
            end) ->
  wp (try_except c handles h) w Q.
Proof.
  unfold wp, try_except. destruct (c w) as [[a|e] w']; simpl; auto.
  destruct (handles e); auto.
Qed.

Lemma wp_conseq (c : M A) w (Q Q' : result A -> World -> Prop) :
  wp c w Q -> (forall r w', Q r w' -> Q' r w') -> wp c w Q'.
Proof. unfold wp. auto. Qed.

End WpRules.

Lemma wp_emit e w (Q : result unit -> World -> Prop) :
  Q (Ret tt) (mkWorld (w_kernel w) (w_faults w) (w_trace w ++ [e])) ->
  wp (emit e) w Q.
Proof. exact id. Qed.

Lemma wp_log lvl msg w (Q : result unit -> World -> Prop) :
  Q (Ret tt) (mkWorld (w_kernel w) (w_faults w) (w_trace w ++ [EvLog lvl msg])) ->
  wp (_log_with_timestamp lvl msg) w Q.
Proof. exact id. Qed.

(** A command either cannot be started, or exits with an injected status
    leaving the kernel alone, or runs on the kernel. *)
Lemma wp_run c check cap w (Q : result CompletedProcess -> World -> Prop) :
  (next_fault (w_faults w) = FaultSpawn ->
   Q (Raise OSError) (record w c None (w_kernel w))) ->
  (forall rc,
      next_fault (w_faults w) = FaultExit rc ->
      Q (completed check cap (mkCompleted (Z.pos rc) ""))
        (record w c (Some (Z.pos rc)) (w_kernel w))) ->
  (next_fault (w_faults w) = NoFault ->
   Q (completed check cap (exec c (w_kernel w)).1)
     (record w c (Some (returncode (exec c (w_kernel w)).1))
        (exec c (w_kernel w)).2)) ->
  wp (run_command c check cap) w Q.
Proof.
  intros Hs He Hn. unfold wp, run_command.
  destruct (next_fault (w_faults w)); simpl; auto.
  destruct (exec c (w_kernel w)); simpl in *; auto.
Qed.

(** ** Which operations can raise *)

Section Returns.

Context {A B : Type}.

Lemma returns_ret (a : A) : returns (ret a).
Proof. intros w. by eexists _, _. Qed.

Lemma returns_bind (c : M A) (f : A -> M B) :
  returns c -> (forall a, returns (f a)) -> returns (bind c f).
Proof.
  intros Hc Hf w. unfold bind. destruct (Hc w) as (a & w' & ->). apply Hf.
Qed.

Lemma returns_try (c : M A) (h : exn -> M A) :
  raises_only_Exception c -> (forall e, returns (h e)) ->
  returns (try_except c is_Exception h).
Proof.
  intros Hc Hh w. unfold try_except.
  destruct (c w) as [[a|e] w'] eqn:E; [by eexists _, _|].
  rewrite (Hc _ _ _ E). apply Hh.
Qed.

Lemma only_Exception_returns (c : M A) :
  returns c -> raises_only_Exception c.
Proof. intros Hc w e w' E. destruct (Hc w) as (a & w1 & H). congruence. Qed.

Lemma only_Exception_bind (c : M A) (f : A -> M B) :
  raises_only_Exception c -> (forall a, raises_only_Exception (f a)) ->
  raises_only_Exception (bind c f).
Proof.
  intros Hc Hf w e w'. unfold bind.
  destruct (c w) as [[a|e1] w1] eqn:E.
  - apply Hf.
  - intros [= <- <-]. eapply Hc, E.
Qed.

Lemma only_Exception_try (c : M A) handles (h : exn -> M A) :
  raises_only_Exception c -> (forall e, raises_only_Exception (h e)) ->
  raises_only_Exception (try_except c handles h).
Proof.
  intros Hc Hh w e w'. unfold try_except.
  destruct (c w) as [[a|e1] w1] eqn:E; [discriminate|].
  destruct (handles e1).
  - apply Hh.
  - intros [= <- <-]. eapply Hc, E.
Qed.

End Returns.

Lemma returns_log lvl msg : returns (_log_with_timestamp lvl msg).
Proof. intros w. by eexists _, _. Qed.

Lemma only_Exception_run c check cap :
  raises_only_Exception (run_command c check cap).
Proof.
  intros w e w'. unfold run_command, completed.
  destruct (next_fault (w_faults w)).
  - destruct (exec c (w_kernel w)) as [p k'].
    destruct (check && negb (returncode p =? 0)); [|discriminate].
    by intros [= <- _].
  - destruct (check && _); [|discriminate]. by intros [= <- _].
  - by intros [= <- _].
Qed.

Create HintDb returns.
#[export] Hint Resolve returns_ret returns_log only_Exception_run : returns.
#[export] Hint Extern 2 (returns (bind _ _)) =>
  apply returns_bind; [|intros ?] : returns.
#[export] Hint Extern 2 (returns (try_except _ is_Exception _)) =>
  apply returns_try; [|intros ?] : returns.
#[export] Hint Extern 2 (raises_only_Exception (bind _ _)) =>
  apply only_Exception_bind; [|intros ?] : returns.
#[export] Hint Extern 2 (raises_only_Exception (try_except _ _ _)) =>
  apply only_Exception_try; [|intros ?] : returns.
#[export] Hint Extern 5 (raises_only_Exception _) =>
  apply only_Exception_returns : returns.
#[export] Hint Extern 3 (returns (if ?b then _ else _)) => destruct b : returns.
#[export] Hint Extern 3 (returns (match ?x with _ => _ end)) => destruct x : returns.
#[export] Hint Extern 3 (raises_only_Exception (match ?x with _ => _ end)) =>
  destruct x : returns.

Lemma check_interface_exists_returns i : returns (check_interface_exists i).
Proof. unfold check_interface_exists. auto 10 with returns. Qed.

Lemma probe_returns self i : returns (check_interface_connectivity self i).
Proof.
  unfold check_interface_connectivity.
  apply returns_bind; [apply check_interface_exists_returns|intros ?].
  auto 12 with returns.
Qed.

Lemma get_current_vpn_returns self : returns (get_current_vpn self).
Proof. unfold get_current_vpn. auto 10 with returns. Qed.

Lemma switch_to_tailscale_returns self : returns (switch_to_tailscale self).
Proof. unfold switch_to_tailscale. auto 20 with returns. Qed.

Lemma switch_to_openvpn_returns self : returns (switch_to_openvpn self).
Proof. unfold switch_to_openvpn. auto 20 with returns. Qed.

#[export] Hint Resolve probe_returns get_current_vpn_returns
  switch_to_tailscale_returns switch_to_openvpn_returns : returns.

Lemma failover_returns self cur up1 up2 : returns (failover self cur up1 up2).
Proof. unfold failover. destruct cur, up1, up2; cbn; auto 10 with returns. Qed.

Lemma monitor_cycle_returns self : returns (monitor_cycle self).
Proof.
  unfold monitor_cycle.
  repeat (apply returns_bind; [auto with returns|intros ?]).
  apply failover_returns.
Qed.
(** ** Concatenation of strings *)

Module StringFacts.

Lemma app_cons c (s t : string) : (String c s ++ t = String c (s ++ t))%string.
Proof. reflexivity. Qed.

Lemma app_empty (t : string) : ("" ++ t = t)%string.
Proof. reflexivity. Qed.

Lemma app_assoc (a b c : string) : ((a ++ b) ++ c = a ++ b ++ c)%string.
Proof. induction a as [|x a IH]; [done|]. by rewrite !app_cons, IH. Qed.

End StringFacts.

(** ** Substrings *)

Module TextFacts.
Import Text.

Lemma prefix_app p a b : prefix p a = true -> prefix p (a ++ b) = true.
Proof.
  revert a. induction p as [|c p IH]; intros a; [reflexivity|].
  destruct a as [|d a]; simpl; [discriminate|].
  intros [-> H]%andb_true_iff. simpl. auto.
Qed.

Lemma prefix_here s t : prefix s (s ++ t) = true.
Proof.
  induction s as [|c s IH]; simpl; [reflexivity|].
  by rewrite Ascii.eqb_refl.
Qed.

Lemma contains_app_l sub a b :
  contains sub a = true -> contains sub (a ++ b) = true.
Proof.
  induction a as [|c a IH]; simpl.
  - rewrite orb_false_r. destruct sub; [|discriminate].
    intros _. destruct b; reflexivity.
  - intros [H|H]%orb_true_iff; apply orb_true_iff.
    + left. exact (prefix_app sub (String c a) b H).
    + right. auto.
Qed.

Lemma contains_app_r sub a b :
  contains sub b = true -> contains sub (a ++ b) = true.
Proof.
  intros H. induction a as [|c a IH]; simpl; auto.
  rewrite IH. apply orb_true_r.
Qed.

Lemma contains_here sub t : contains sub (sub ++ t) = true.
Proof.
  destruct sub as [|c sub]; simpl.
  - destruct t; reflexivity.
  - by rewrite Ascii.eqb_refl, prefix_here.
Qed.

Lemma contains_unlines sub l ls :
  l ∈ ls -> contains sub l = true -> contains sub (unlines ls) = true.
Proof.
  intros Hin Hl. induction ls as [|x ls IH]; [by apply elem_of_nil in Hin|].
  apply elem_of_cons in Hin as [->|Hin]; cbn [unlines fold_right].
  - by apply contains_app_l.
  - apply contains_app_r, contains_app_r, IH, Hin.
Qed.

Lemma unlines_cons l ls : unlines (l :: ls) = (l ++ newline ++ unlines ls)%string.
Proof. reflexivity. Qed.

Lemma unlines_app l1 l2 : unlines (l1 ++ l2) = (unlines l1 ++ unlines l2)%string.
Proof.
  induction l1 as [|x l1 IH]; [reflexivity|].
  change ((x :: l1) ++ l2)%list with (x :: (l1 ++ l2))%list.
  rewrite !unlines_cons, IH. by rewrite !StringFacts.app_assoc.
Qed.

Lemma contains_unlines_r sub l1 l2 :
  contains sub (unlines l2) = true -> contains sub (unlines (l1 ++ l2)) = true.
Proof. rewrite unlines_app. apply contains_app_r. Qed.

(** A string without a line break is found in a text only inside one of
    its lines. *)
Lemma prefix_line sub a b :
  contains newline sub = false ->
  prefix sub (a ++ newline ++ b) = prefix sub a.
Proof.
  revert a. induction sub as [|c sub IH]; intros a Hn; [reflexivity|].
  cbn in Hn. apply orb_false_iff in Hn as [Hc Hn].
  rewrite andb_true_r in Hc.
  destruct a as [|d a].
  - rewrite StringFacts.app_empty. unfold newline.
    rewrite StringFacts.app_cons. cbn [prefix]. by rewrite Ascii.eqb_sym, Hc.
  - rewrite StringFacts.app_cons. cbn [prefix]. f_equal. apply IH, Hn.
Qed.

Lemma contains_line sub a b :
  sub <> "" -> contains newline sub = false ->
  contains sub (a ++ newline ++ b) = contains sub a || contains sub b.
Proof.
  intros Hs Hn. induction a as [|d a IH].
  - pose proof (prefix_line sub "" b Hn) as Hp.
    rewrite StringFacts.app_empty in *. unfold newline in *.
    rewrite StringFacts.app_cons, StringFacts.app_empty in *.
    cbn [contains]. rewrite Hp. by destruct sub.
  - pose proof (prefix_line sub (String d a) b Hn) as Hp.
    rewrite StringFacts.app_cons in *.
    cbn [contains]. rewrite Hp, IH. by rewrite orb_assoc.
Qed.

Lemma contains_unlines_eq sub ls :
  sub <> "" -> contains newline sub = false ->
  contains sub (unlines ls) = existsb (contains sub) ls.
Proof.
  intros Hs Hn. induction ls as [|l ls IH].
  - by destruct sub.
  - rewrite unlines_cons. cbn [existsb]. by rewrite contains_line, IH.
Qed.

Lemma contains_nonempty sub s :
  sub <> "" -> contains sub s = true -> truthy s = true.
Proof. intros Hs. destruct s; simpl; [|reflexivity]. destruct sub; [done|discriminate]. Qed.

End TextFacts.

Lemma render_route_names_dev e : Text.contains (nh_dev e.2) (render_route e) = true.
Proof.
  unfold render_route.
  apply (TextFacts.contains_app_r _ "default").
  apply TextFacts.contains_app_r.
  apply (TextFacts.contains_app_r _ " dev ").
  apply TextFacts.contains_here.
Qed.

Lemma render_table_names_dev (m : gmap N nexthop) others i nh :
  m !! i = Some nh -> Text.contains (nh_dev nh) (render_table m others) = true.
Proof.
  intros H. unfold render_table.
  apply (TextFacts.contains_unlines _ (render_route (i, nh))).
  - apply elem_of_app. left.
    apply list_elem_of_fmap. exists (i, nh). split; [done|].
    by apply elem_of_map_to_list.
  - apply (render_route_names_dev (i, nh)).
Qed.

Lemma render_table_empty : render_table ∅ [] = "".
Proof. unfold render_table. by rewrite map_to_list_empty. Qed.

Lemma existsb_fmap {A B} (f : B -> bool) (g : A -> B) (l : list A) :
  existsb f (g <$> l) = existsb (fun x => f (g x)) l.
Proof. induction l as [|x l IH]; [reflexivity|]. cbn. by rewrite IH. Qed.

(** Where an interface name can stand in the listing of the policy table:
    in the line of a default route or in the line of another route. *)
Lemma render_table_contains name (m : gmap N nexthop) others :
  name <> "" -> Text.contains Text.newline name = false ->
  Text.contains name (render_table m others)
  = existsb (fun e => Text.contains name (render_route e)) (map_to_list m)
    || existsb (fun r => Text.contains name (render_other r)) others.
Proof.
  intros Hs Hn. unfold render_table.
  rewrite TextFacts.contains_unlines_eq by done.
  by rewrite existsb_app, !existsb_fmap.
Qed.

Lemma others_avoid_existsb name k :
  others_avoid name k ->
  existsb (fun r => Text.contains name (render_other r)) (k_others k) = false.
Proof.
  unfold others_avoid. induction 1 as [|r rs Hr _ IH]; [reflexivity|].
  cbn. by rewrite Hr, IH.
Qed.

Lemma existsb_others_avoid name k :
  existsb (fun r => Text.contains name (render_other r)) (k_others k) = false ->
  others_avoid name k.
Proof.
  unfold others_avoid. induction (k_others k) as [|r rs IH]; [constructor|].
  cbn. intros [Hr Hrs]%orb_false_iff. constructor; auto.
Qed.

(** ** Symbolic execution of the monitor's operations *)

(** The same rule with the outcome of a started command left abstract, for
    properties of the history that do not depend on the kernel. *)
Lemma wp_run_any c check cap w (Q : result CompletedProcess -> World -> Prop) :
  Q (Raise OSError) (record w c None (w_kernel w)) ->
  (forall p k',
      Q (completed check cap p) (record w c (Some (returncode p)) k')) ->
  wp (run_command c check cap) w Q.
Proof.
  intros Hs Hp. apply wp_run; [by intros _| |].
  - intros rc _. apply (Hp (mkCompleted (Z.pos rc) "")).
  - intros _. apply Hp.
Qed.

Ltac wp_simpl :=
  unfold completed;
  cbn [ is_Exception is_CalledProcessError andb negb returncode
       stdout fst snd exec Z.eqb record w_kernel w_faults w_trace
       k_links k_defaults k_nat].

Ltac wp_case x := destruct x eqn:?.

Ltac wp_struct :=
  lazymatch goal with
  | |- wp (bind _ _) _ _ => apply wp_bind
  | |- wp (try_except _ _ _) _ _ => apply wp_try
  | |- wp (ret _) _ _ => apply wp_ret
  | |- wp (raise _) _ _ => apply wp_raise
  | |- wp (_log_with_timestamp _ _) _ _ => apply wp_log
  | |- wp (emit _) _ _ => apply wp_emit
  end.

Ltac wp_branch :=
  lazymatch goal with
  | |- wp (if ?b then _ else _) _ _ => wp_case b
  | |- wp (match ?x with _ => _ end) _ _ => wp_case x
  | |- match (if ?b then _ else _) with _ => _ end => wp_case b
  | |- if ?b then _ else _ => wp_case b
  end.

(** Execution against the kernel: every fault and every kernel condition is
    a case. *)
Ltac wp_step :=
  first
    [ wp_struct
    | lazymatch goal with
      | |- wp (run_command _ _ _) _ _ =>
          apply wp_run; [intros ? | intros ? ? | intros ?]
      | |- context [@lookup string Link _ _ ?i ?m] =>
          lazymatch goal with
          | H : @lookup string Link _ _ i m = _ |- _ => rewrite H
          | _ => wp_case (@lookup string Link _ _ i m)
          end
      | |- context [lowest_metric ?m] => wp_case (lowest_metric m)
      | |- context [@lookup N nexthop _ _ ?i ?m] =>
          wp_case (@lookup N nexthop _ _ i m)
      | |- context [bool_decide ?P] => wp_case (bool_decide P)
      end
    | wp_branch ];
  wp_simpl.

Ltac wp_go := repeat wp_step.

(** Execution with abstract command outcomes. *)
Ltac wp_step_any :=
  first
    [ wp_struct
    | lazymatch goal with
      | |- wp (run_command _ _ _) _ _ => apply wp_run_any; [ | intros ? ? ]
      end
    | wp_branch ];
  wp_simpl.

Ltac wp_go_any := repeat wp_step_any.

Ltac wp_post Q :=
  unfold Q; wp_simpl; eexists _, _; split; [reflexivity|];
  split; [rewrite <- ?app_assoc; reflexivity|]; cbn [app].

Lemma emitted_app {A} (c : M A) w evs :
  w_trace (c w).2 = (w_trace w ++ evs)%list -> emitted c w = evs.
Proof. unfold emitted. intros ->. by rewrite drop_app_length. Qed.

Ltac not_in_list :=
  let H := fresh in
  intros H;
  repeat (apply elem_of_cons in H as [H|H]; [simpl in H; discriminate H|]);
  by apply elem_of_nil in H.

(** A switch never raises; its history starts with its announcement, and
    announces nothing else. *)
Lemma switch_events self b w :
  exists ok w' evs,
    SwitchTo self b w = (Ret ok, w') /\
    w_trace w' = (w_trace w ++ switch_announce b :: evs)%list /\
    forall b', switch_announce b' ∉ evs.
Proof.
  set (Q := fun (r : result bool) w' => exists ok evs, r = Ret ok /\
    w_trace w' = (w_trace w ++ switch_announce b :: evs)%list /\
    forall b', switch_announce b' ∉ evs).
  cut (wp (SwitchTo self b) w Q).
  { unfold wp, Q. destruct (SwitchTo self b w) as [r w']. simpl.
    intros (rb & evs & -> & H). eauto. }
  destruct b; unfold SwitchTo, switch_to_tailscale, switch_to_openvpn.
  all: wp_go_any.
  all: wp_post Q.
  all: intros []; not_in_list.
Qed.

(** ** The connectivity prober *)

Lemma no_inet_no_match ci pt th b l :
  lk_inet l = [] ->
  Text.contains "inet " (render_addr (interface_of (monitor ci pt th) b) l)
  = false.
Proof. intros H. unfold render_addr. rewrite H. destruct b; reflexivity. Qed.

(** C4: a probe never raises.  It answers false without sending a ping when
    the backend's interface does not exist or has no address, it answers
    false as soon as one of its commands fails or cannot be run, and when it
    answers true the ping through that interface, with the configured
    timeout and target, has exited with status 0. *)
Theorem probe_fail_closed ci pt th (b : backend) (w : World) :
  let self := monitor ci pt th in
  exists r w' evs,
    Probe self b w = (Ret r, w') /\
    w_trace w' = (w_trace w ++ evs)%list /\
    ((k_links (w_kernel w) !! interface_of self b = None \/
      exists l, k_links (w_kernel w) !! interface_of self b = Some l /\
                lk_inet l = []) ->
     r = false /\ Forall (fun e => is_ping e = false) evs) /\
    (Exists (fun e => failed e = true) evs -> r = false) /\
    (r = true ->
     EvRun (Ping (interface_of self b) pt th) (Some 0) (w_kernel w) ∈ evs).
Proof.
  intros self.
  set (Q := fun (r : result bool) w' => exists rb evs, r = Ret rb /\
    w_trace w' = (w_trace w ++ evs)%list /\
    ((k_links (w_kernel w) !! interface_of self b = None \/
      exists l, k_links (w_kernel w) !! interface_of self b = Some l /\
                lk_inet l = []) ->
     rb = false /\ Forall (fun e => is_ping e = false) evs) /\
    (Exists (fun e => failed e = true) evs -> rb = false) /\
    (rb = true ->
     EvRun (Ping (interface_of self b) pt th) (Some 0) (w_kernel w) ∈ evs)).
  cut (wp (Probe self b) w Q).
  { unfold wp, Q. destruct (Probe self b w) as [r w']. simpl.
    intros (rb & evs & -> & H). eauto. }
  unfold Probe, check_interface_connectivity, check_interface_exists.
  wp_go.
  all: wp_post Q.
  all: try (split; [intros _; split; [reflexivity|repeat constructor]|];
            split; [reflexivity|discriminate]).
  all: subst self; split;
    [intros [?|(l0 & [= <-] & Hin)];
     [discriminate
     |match goal with
      | HC : negb (Text.contains _ _) = false |- _ =>
          rewrite (no_inet_no_match ci pt th b _ Hin) in HC; discriminate HC
      end]|].
  all: try (split; [reflexivity|discriminate]).
  all: split; [|intros _; repeat constructor].
  all: intros HE;
    repeat (apply Exists_cons in HE as [HE|HE]; [discriminate HE|]);
    by apply Exists_nil in HE.
Qed.

(** ** The routing state reader *)

Lemma get_current_vpn_eq self w :
  get_current_vpn self w =
  match next_fault (w_faults w) with
  | FaultSpawn => (Ret none, record w IpRouteShowTable None (w_kernel w))
  | FaultExit rc =>
      (Ret none, record w IpRouteShowTable (Some (Z.pos rc)) (w_kernel w))
  | NoFault =>
      (Ret (classify_listing self (listing (w_kernel w))),
       record w IpRouteShowTable (Some 0) (w_kernel w))
  end.
Proof.
  unfold get_current_vpn, try_except, bind, run_command.
  destruct (next_fault (w_faults w)); reflexivity.
Qed.

Lemma classify_listing_eq ci pt th text :
  classify_listing (monitor ci pt th) (mkCompleted 0 text) =
  if truthy text then
    if Text.contains "tailscale0" text then tailscale
    else if Text.contains "tun0" text then openvpn else none
  else none.
Proof. reflexivity. Qed.

Lemma classify_primary_mentioned ci pt th text :
  Text.contains "tailscale0" text = true ->
  classify_listing (monitor ci pt th) (mkCompleted 0 text) = tailscale.
Proof.
  intros H. rewrite classify_listing_eq, H.
  destruct text; [discriminate H|reflexivity].
Qed.

Lemma classify_secondary_inv ci pt th text :
  classify_listing (monitor ci pt th) (mkCompleted 0 text) = openvpn ->
  Text.contains "tailscale0" text = false /\ Text.contains "tun0" text = true.
Proof.
  rewrite classify_listing_eq.
  destruct (truthy text); [|discriminate].
  destruct (Text.contains "tailscale0" text); [discriminate|].
  destruct (Text.contains "tun0" text); [auto|discriminate].
Qed.

(** C10: the reader is a total function of the listing of the policy table,
    and the primary interface is looked for first: a listing that mentions
    the primary interface gives Primary whether or not it also mentions the
    secondary one, and Secondary is reported only for a listing that does not
    mention the primary interface. *)
Theorem current_backend_primary_first ci pt th :
  let self := monitor ci pt th in
  (forall w, exists w',
      CurrentBackend self w =
      (Ret (match next_fault (w_faults w) with
            | NoFault => classify_listing self (listing (w_kernel w))
            | _ => none
            end), w')) /\
  (forall text,
      Text.contains (interface_of self Primary) text = true ->
      Text.contains (interface_of self Secondary) text = true ->
      classify_listing self (mkCompleted 0 text) = tailscale) /\
  (forall text,
      classify_listing self (mkCompleted 0 text) = openvpn ->
      Text.contains (interface_of self Primary) text = false).
Proof.
  intros self. split; [|split].
  - intros w. unfold CurrentBackend. rewrite get_current_vpn_eq.
    destruct (next_fault (w_faults w)); eauto.
  - intros text H _. by apply classify_primary_mentioned.
  - intros text H. by apply classify_secondary_inv in H as [? _].
Qed.

Example two_defaults_listed :
  Text.contains "tun0" (stdout (listing two_defaults)) = true /\
  Text.contains "tailscale0" (stdout (listing two_defaults)) = true /\
  (CurrentBackend (monitor 30 5 "1.1.1.1") (mkWorld two_defaults [] [])).1
  = Ret tailscale.
Proof. vm_compute. auto. Qed.

(** C6, at the inputs where the code departs from the claim and from its
    own docstring, which has the reader tell which VPN is currently routing
    the traffic.  With the table [two_defaults] the default route in effect
    leaves through the secondary interface, yet the reader answers Primary:
    it finds the primary interface's name in the line of the route of
    higher metric.  With the table [stray_route] there is no default route,
    yet the reader answers Secondary: it finds the secondary interface's
    name in the line of a route to another destination. *)
Theorem current_backend_not_by_default_route :
  let self := monitor 30 5 "1.1.1.1" in
  active_default two_defaults = Some (mkNexthop None "tun0") /\
  Text.contains "default dev tun0" (stdout (listing two_defaults)) = true /\
  Text.contains "default dev tailscale0 metric 5"
    (stdout (listing two_defaults)) = true /\
  (CurrentBackend self (quiet two_defaults)).1 = Ret tailscale /\
  active_default stray_route = None /\
  stdout (listing stray_route) = Text.unlines ["10.8.0.0/24 dev tun0"] /\
  (CurrentBackend self (quiet stray_route)).1 = Ret openvpn.
Proof. vm_compute. repeat split. Qed.

(** What the reader does in general: it never raises; it answers None when
    the listing command fails or cannot be run and when the table is
    empty; otherwise it answers by the interface names found in the
    listing: Primary as soon as a listed default route leaves through the
    primary interface, Secondary when a listed default route leaves through
    the secondary interface and the listing does not contain the primary
    interface's name, None when the listing contains neither name. *)
Lemma current_backend_by_listing ci pt th (w : World) :
  let self := monitor ci pt th in
  let table := k_defaults (w_kernel w) in
  let text := render_table table (k_others (w_kernel w)) in
  exists v w',
    CurrentBackend self w = (Ret v, w') /\
    (next_fault (w_faults w) <> NoFault -> v = none) /\
    (next_fault (w_faults w) = NoFault ->
     ((exists m nh, table !! m = Some nh /\ nh_dev nh = interface_of self Primary)
      -> v = tailscale) /\
     ((exists m nh, table !! m = Some nh /\ nh_dev nh = interface_of self Secondary)
      -> Text.contains (interface_of self Primary) text = false
      -> v = openvpn) /\
     (Text.contains (interface_of self Primary) text = false
      -> Text.contains (interface_of self Secondary) text = false
      -> v = none) /\
     (table = ∅ -> k_others (w_kernel w) = [] -> v = none)).
Proof.
  intros self table text. unfold CurrentBackend. rewrite get_current_vpn_eq.
  destruct (next_fault (w_faults w)) eqn:Hf.
  - eexists _, _. split; [reflexivity|]. split; [done|]. intros _.
    unfold listing. subst self. fold table. fold text.
    rewrite classify_listing_eq.
    change (interface_of (monitor ci pt th) Primary) with "tailscale0".
    change (interface_of (monitor ci pt th) Secondary) with "tun0".
    repeat split.
    + intros (m & nh & Hm & Hd).
      apply (render_table_names_dev _ (k_others (w_kernel w))) in Hm.
      rewrite Hd in Hm. fold text in Hm.
      rewrite Hm. destruct text; [discriminate Hm|reflexivity].
    + intros (m & nh & Hm & Hd) Hp.
      apply (render_table_names_dev _ (k_others (w_kernel w))) in Hm.
      rewrite Hd in Hm. fold text in Hm.
      rewrite Hp, Hm. destruct text; [discriminate Hm|reflexivity].
    + intros -> ->. by destruct (truthy _).
    + intros Ht Ho. subst text table. by rewrite Ht, Ho, render_table_empty.
  - eexists _, _. split; [reflexivity|]. split; [done|discriminate].
  - eexists _, _. split; [reflexivity|]. split; [done|discriminate].
Qed.

(** ** Histories only grow *)

Section Extends.

Context {A B : Type}.

Lemma extends_ret (a : A) : extends_trace (ret a).
Proof. intros w. exists []. by rewrite app_nil_r. Qed.

Lemma extends_raise e : extends_trace (@raise A e).
Proof. intros w. exists []. by rewrite app_nil_r. Qed.

Lemma extends_bind (c : M A) (f : A -> M B) :
  extends_trace c -> (forall a, extends_trace (f a)) ->
  extends_trace (bind c f).
Proof.
  intros Hc Hf w. destruct (Hc w) as (e1 & H1). unfold bind.
  destruct (c w) as [[a|e] w1]; cbn in *.
  - destruct (Hf a w1) as (e2 & H2). exists (e1 ++ e2)%list.
    by rewrite H2, H1, app_assoc.
  - by exists e1.
Qed.

Lemma extends_try (c : M A) handles (h : exn -> M A) :
  extends_trace c -> (forall e, extends_trace (h e)) ->
  extends_trace (try_except c handles h).
Proof.
  intros Hc Hh w. destruct (Hc w) as (e1 & H1). unfold try_except.
  destruct (c w) as [[a|e] w1]; cbn in *; [by exists e1|].
  destruct (handles e); [|by exists e1].
  destruct (Hh e w1) as (e2 & H2). exists (e1 ++ e2)%list.
  by rewrite H2, H1, app_assoc.
Qed.

End Extends.

Lemma extends_emit e : extends_trace (emit e).
Proof. intros w. by exists [e]. Qed.

Lemma extends_log lvl msg : extends_trace (_log_with_timestamp lvl msg).
Proof. apply extends_emit. Qed.

Lemma extends_run c check cap : extends_trace (run_command c check cap).
Proof.
  intros w. unfold run_command.
  destruct (next_fault (w_faults w)); [destruct (exec c (w_kernel w))| |];
    by eexists [_].
Qed.

Lemma extends_sleep secs : extends_trace (sleep secs).
Proof.
  unfold sleep. destruct (_ || _); [apply extends_raise|].
  destruct (secs <? 0); [apply extends_raise|apply extends_emit].
Qed.

Create HintDb extends.
#[export] Hint Resolve extends_ret extends_raise extends_emit extends_log
  extends_run extends_sleep : extends.
#[export] Hint Extern 2 (extends_trace (bind _ _)) =>
  apply extends_bind; [|intros ?] : extends.
#[export] Hint Extern 2 (extends_trace (try_except _ _ _)) =>
  apply extends_try; [|intros ?] : extends.
#[export] Hint Extern 3 (extends_trace (if ?b then _ else _)) =>
  destruct b : extends.
#[export] Hint Extern 3 (extends_trace (match ?x with _ => _ end)) =>
  destruct x : extends.

Lemma extends_probe self i : extends_trace (check_interface_connectivity self i).
Proof.
  unfold check_interface_connectivity, check_interface_exists.
  auto 20 with extends.
Qed.

Lemma extends_switch_to_tailscale self : extends_trace (switch_to_tailscale self).
Proof. unfold switch_to_tailscale. auto 20 with extends. Qed.

Lemma extends_switch_to_openvpn self : extends_trace (switch_to_openvpn self).
Proof. unfold switch_to_openvpn. auto 20 with extends. Qed.

#[export] Hint Resolve extends_probe extends_switch_to_tailscale
  extends_switch_to_openvpn : extends.

Lemma extends_failover self cur up1 up2 :
  extends_trace (failover self cur up1 up2).
Proof. unfold failover. destruct cur, up1, up2; cbn; auto 10 with extends. Qed.

(** ** The decision of a cycle *)

Lemma failover_switch self msg lvl b w :
  forall b',
    switch_announce b' ∈
      emitted (_log_with_timestamp lvl msg;;; SwitchTo self b;;; ret tt) w ->
    EvLog lvl msg <> switch_announce b' ->
    b' = b.
Proof.
  intros b' Hin Hmsg.
  destruct (switch_events self b
              (mkWorld (w_kernel w) (w_faults w)
                 (w_trace w ++ [EvLog lvl msg]))) as (ok & w' & evs & E & Ht & Hn).
  rewrite (emitted_app _ w (EvLog lvl msg :: switch_announce b :: evs)) in Hin.
  - apply elem_of_cons in Hin as [Hin|Hin]; [congruence|].
    apply elem_of_cons in Hin as [Hin|Hin]; [|by apply Hn in Hin].
    by destruct b, b'.
  - unfold bind, _log_with_timestamp, emit at 1. cbn. rewrite E. cbn.
    rewrite Ht. cbn. by rewrite <- app_assoc.
Qed.

(** The switch a cycle starts is never to the backend just read as current. *)
Lemma failover_target self cur up1 up2 w b :
  switch_announce b ∈ emitted (failover self cur up1 up2) w -> vpn_of b <> cur.
Proof.
  unfold failover.
  destruct cur, up1, up2; cbn [negb andb];
    try (change (switch_to_openvpn self) with (SwitchTo self Secondary));
    try (change (switch_to_tailscale self) with (SwitchTo self Primary));
    try (intros H%failover_switch; [by subst|by destruct b]);
    unfold emitted, ret, _log_with_timestamp, emit; cbn;
    rewrite ?drop_app_length, ?drop_all; intros H;
    try (by apply elem_of_nil in H);
    apply list_elem_of_singleton in H; by destruct b.
Qed.

Lemma extends_cycle_rest self cur :
  extends_trace
    (tailscale_up <- check_interface_connectivity self (tailscale_interface self);;
     openvpn_up <- check_interface_connectivity self (openvpn_interface self);;
     failover self cur tailscale_up openvpn_up).
Proof.
  repeat (apply extends_bind; [auto with extends|intros ?]).
  apply extends_failover.
Qed.

(** The first command of a cycle is the reading of the policy table. *)
Lemma cycle_trace_head self secs w :
  exists st evs,
    w_trace ((monitor_cycle self;;; sleep secs) w).2 =
    (w_trace w ++ EvRun IpRouteShowTable st (w_kernel w) :: evs)%list.
Proof.
  pose proof (get_current_vpn_eq self w) as E.
  assert (exists cur st,
             get_current_vpn self w =
             (Ret cur, record w IpRouteShowTable st (w_kernel w)))
    as (cur & st & E1).
  { rewrite E. destruct (next_fault (w_faults w)); eauto. }
  assert (extends_trace
            ((tailscale_up <- check_interface_connectivity self
                                (tailscale_interface self);;
              openvpn_up <- check_interface_connectivity self
                              (openvpn_interface self);;
              failover self cur tailscale_up openvpn_up);;; sleep secs))
    as Hrest.
  { apply extends_bind; [apply extends_cycle_rest|intros _].
    apply extends_sleep. }
  destruct (Hrest (record w IpRouteShowTable st (w_kernel w))) as (evs & Hevs).
  exists st, evs.
  unfold monitor_cycle, bind in *. rewrite E1. cbn [fst snd] in *.
  rewrite Hevs. cbn. by rewrite <- app_assoc.
Qed.

Section LoopTrace.

Variable outside : nat -> Kernel -> Kernel.
Variable signal_at : nat -> bool.

Lemma loop_from_extends iterations : forall n self w,
  exists evs,
    w_trace (loop_from outside signal_at iterations n self w).2
    = (w_trace w ++ evs)%list.
Proof.
  induction iterations as [|k IH]; intros n self w.
  - exists []. cbn. by rewrite app_nil_r.
  - cbn [loop_from]. destruct (negb (running self)).
    { by exists [EvLog info "VPN failover monitor stopped"]. }
    assert (extends_trace (monitor_cycle self;;; sleep (check_interval self)))
      as H1.
    { apply extends_bind; [|intros _; apply extends_sleep].
      unfold monitor_cycle. apply extends_bind; [|intros ?; apply extends_cycle_rest].
      unfold get_current_vpn. auto 10 with extends. }
    destruct (H1 w) as (e1 & He1).
    destruct ((monitor_cycle self;;; sleep (check_interval self)) w)
      as [[[]|e] w1]; cbn [snd] in He1.
    + destruct (IH (S n) (during_sleep outside signal_at n self w1).1
                  (during_sleep outside signal_at n self w1).2) as (e2 & He2).
      destruct (during_sleep outside signal_at n self w1) as [s' w2] eqn:Ed.
      cbn [fst snd] in He2. exists (e1 ++ e2)%list.
      rewrite He2. pose proof (f_equal (fun p => w_trace p.2) Ed) as Ht; cbn in Ht; rewrite <- Ht.
      cbn. by rewrite He1, app_assoc.
    + assert (forall msg, extends_trace
                (_log_with_timestamp error msg;;;
                 sleep (check_interval self))) as H2.
      { intros msg. auto with extends. }
      assert (exists e2, forall x,
                 w_trace
                   (match (_log_with_timestamp error
                             ("Monitor error: " ++ exn_str e);;;
                           sleep (check_interval self)) w1 with
                    | (Ret _, w2) =>
                        let '(self', w3) :=
                          during_sleep outside signal_at n self w2 in
                        loop_from outside signal_at k (S n) self' w3
                    | (Raise e', w2) => (Escaped e', x, w2)
                    end).2 = (w_trace w1 ++ e2)%list) as (e2 & He2).
      { destruct (H2 ("Monitor error: " ++ exn_str e) w1) as (e2 & He2).
        destruct ((_log_with_timestamp error _;;; sleep _) w1)
          as [[[]|e'] w2]; cbn [snd] in He2.
        - destruct (IH (S n) (during_sleep outside signal_at n self w2).1
                      (during_sleep outside signal_at n self w2).2)
            as (e3 & He3).
          destruct (during_sleep outside signal_at n self w2)
            as [s' w3] eqn:Ed.
          cbn [fst snd] in He3. exists (e2 ++ e3)%list. intros ?.
          rewrite He3. pose proof (f_equal (fun p => w_trace p.2) Ed) as Ht; cbn in Ht; rewrite <- Ht.
          cbn. by rewrite He2, app_assoc.
        - exists e2. intros ?. exact He2. }
      destruct e.
      1-4: exists (e1 ++ e2)%list; rewrite (He2 self), He1; by rewrite app_assoc.
      exists (e1 ++ [EvLog info "VPN failover monitor stopped"])%list.
      cbn. by rewrite He1, app_assoc.
Qed.

End LoopTrace.

(** The loop announces itself and then reads the policy table: whatever the
    monitor was built from, these are the first two events of a run. *)
Lemma loop_trace_head outside signal_at iterations self w :
  exists st evs,
    w_trace (monitor_loop outside signal_at (S iterations) self w).2 =
    (w_trace w ++ EvLog info "VPN failover monitor started"
       :: EvRun IpRouteShowTable st (w_kernel w) :: evs)%list.
Proof.
  unfold monitor_loop. cbn [loop_from set_running running negb].
  set (self1 := set_running self true).
  set (w0 := (_log_with_timestamp info "VPN failover monitor started" w).2).
  destruct (cycle_trace_head self1 (check_interval self1) w0) as (st & e1 & H1).
  exists st.
  assert (forall w1 : World,
             w_trace w1 =
             (w_trace w0 ++ EvRun IpRouteShowTable st (w_kernel w0) :: e1)%list ->
             forall e2, exists evs,
               (w_trace w1 ++ e2 =
                w_trace w ++ EvLog info "VPN failover monitor started"
                  :: EvRun IpRouteShowTable st (w_kernel w) :: evs)%list)
    as Hshape.
  { intros w1 -> e2. exists (e1 ++ e2)%list. subst w0. cbn.
    by rewrite <- !app_assoc. }
  destruct ((monitor_cycle self1;;; sleep (check_interval self1)) w0)
    as [[[]|e] w1]; cbn [snd] in H1.
  + destruct (loop_from_extends outside signal_at iterations 1
                (during_sleep outside signal_at 0 self1 w1).1
                (during_sleep outside signal_at 0 self1 w1).2) as (e2 & He2).
    destruct (during_sleep outside signal_at 0 self1 w1) as [s' w2] eqn:Ed.
    cbn [fst snd] in He2. rewrite He2.
    pose proof (f_equal (fun p => w_trace p.2) Ed) as Ht; cbn in Ht; rewrite <- Ht. cbn [w_trace].
    by apply Hshape.
  + assert (exists e2,
               w_trace
                 (match (_log_with_timestamp error
                           ("Monitor error: " ++ exn_str e);;;
                         sleep (check_interval self1)) w1 with
                  | (Ret _, w2) =>
                      let '(self', w3) :=
                        during_sleep outside signal_at 0 self1 w2 in
                      loop_from outside signal_at iterations 1 self' w3
                  | (Raise e', w2) => (Escaped e', self1, w2)
                  end).2 = (w_trace w1 ++ e2)%list) as (e2 & He2).
    { assert (extends_trace
                (_log_with_timestamp error ("Monitor error: " ++ exn_str e);;;
                 sleep (check_interval self1))) as H2
        by auto with extends.
      destruct (H2 w1) as (e2 & He2).
      destruct ((_log_with_timestamp error _;;; sleep _) w1)
        as [[[]|e'] w2]; cbn [snd] in He2.
      - destruct (loop_from_extends outside signal_at iterations 1
                    (during_sleep outside signal_at 0 self1 w2).1
                    (during_sleep outside signal_at 0 self1 w2).2)
          as (e3 & He3).
        destruct (during_sleep outside signal_at 0 self1 w2)
          as [s' w3] eqn:Ed.
        cbn [fst snd] in He3. exists (e2 ++ e3)%list.
        rewrite He3. pose proof (f_equal (fun p => w_trace p.2) Ed) as Ht; cbn in Ht; rewrite <- Ht.
        cbn. by rewrite He2, app_assoc.
      - exists e2. exact He2. }
    destruct e.
    1-4: rewrite He2; by apply Hshape.
    unfold finish. cbn. by apply Hshape.
Qed.


(** ** The transition table *)

(** Except in the row "on the primary backend, both backends unreachable",
    the failover logic does what the table of the specification says: it
    switches to the backend of the row after a log line, or logs at the
    level of the row, or does nothing. *)
Lemma failover_follows_table self state up1 up2 :
  (state, up1, up2) <> (tailscale, false, false) ->
  match row_switch (transition_table state up1 up2),
        row_log (transition_table state up1 up2) with
  | Some b, _ =>
      exists lvl msg,
        failover self state up1 up2 =
        (_log_with_timestamp lvl msg;;; SwitchTo self b;;; ret tt)
  | None, Some lvl =>
      exists msg, failover self state up1 up2 = _log_with_timestamp lvl msg
  | None, None => failover self state up1 up2 = ret tt
  end.
Proof.
  destruct state, up1, up2; cbn; intros H; try done; eauto.
Qed.

(** C1, at the input where the code departs from the table: the monitor
    reads the primary backend as current and finds both backends
    unreachable.  The table asks for an error to be logged; the code leaves
    the world as it is, history included, while in the same situation on the
    secondary backend it logs an error. *)
Theorem on_primary_both_down_logs_nothing self w :
  transition_table tailscale false false = mkRow None (Some error) tailscale /\
  failover self tailscale false false w = (Ret tt, w) /\
  emitted (failover self openvpn false false) w =
  [EvLog error "WARNING: OpenVPN is down and Tailscale unavailable!"].
Proof.
  repeat split. unfold emitted, failover. cbn. by rewrite drop_app_length.
Qed.

(** The same on a whole cycle: the default route leaves through the primary
    interface and neither link exists; the cycle runs its three readings and
    logs nothing. *)
Example cycle_on_primary_both_down :
  let w := (monitor_cycle (monitor 30 5 "1.1.1.1") (quiet both_down)).2 in
  commands (w_trace w) =
  [IpRouteShowTable; IpLinkShow "tailscale0"; IpLinkShow "tun0"] /\
  filter (fun e => is_log e = true) (w_trace w) = [] /\
  w_kernel w = both_down.
Proof. vm_compute. auto. Qed.

(** ** The route switcher *)

Lemma target_not_other ci pt th b :
  rule_of (monitor ci pt th) b <> rule_of (monitor ci pt th) (other b).
Proof. by destruct b. Qed.

Lemma elem_of_remove_first r o l : r ∈ l -> r <> o -> r ∈ remove_first o l.
Proof.
  intros Hin Hne. induction l as [|x l IH]; [done|]. cbn.
  apply elem_of_cons in Hin as [<-|Hin].
  - rewrite bool_decide_eq_false_2 by done. by left.
  - case_bool_decide; [done|]. right. auto.
Qed.

Ltac use_lowest :=
  unfold delete_lowest;
  repeat match goal with
         | H : lowest_metric _ = _ |- _ => rewrite H
         end.

Ltac pick_defaults :=
  first
    [ exists false, false, None; reflexivity
    | exists true, false, None; use_lowest; reflexivity
    | exists false, true; eexists; reflexivity
    | exists true, true; eexists; use_lowest; reflexivity ].

Lemma ends_with (evs : list event) e x rest :
  rev evs = x :: e :: rest -> evs = (rev rest ++ [e; x])%list.
Proof.
  intros H. rewrite <- (rev_involutive evs), H. cbn.
  by rewrite <- !app_assoc.
Qed.

(** C3, amended: a switch never raises, and it gives up exactly at the first
    command that cannot be started or, being one of the checked commands
    (the listing of the tunnel's routes, the [ip route add], the
    [iptables -A]), exits with a non-zero status: it then runs nothing
    more, logs an error and returns false.  A non-zero status of the
    unchecked [ip route del] and [iptables -D], or of the [iptables -C]
    test, does not stop it, and without an aborting command it returns
    true.  What the steps before the abort did stays: the links and the
    other routes are untouched, no masquerade rule has been added (at most
    the other backend's rule has been removed), and the default routes are
    the prior ones, possibly without the one of lowest metric and possibly
    with the target's.  The prior state is intact when the very first
    command could not be started. *)
Theorem failed_switch_keeps_partial_state ci pt th b w :
  let self := monitor ci pt th in
  let k := w_kernel w in
  exists ok w' evs,
    SwitchTo self b w = (Ret ok, w') /\
    w_trace w' = (w_trace w ++ evs)%list /\
    ok = negb (existsb aborting evs) /\
    (next_fault (w_faults w) = FaultSpawn -> ok = false /\ w_kernel w' = k) /\
    (ok = false ->
     (exists pre e msg,
         evs = (pre ++ [e; EvLog error msg])%list /\
         aborting e = true /\ existsb aborting pre = false) /\
     k_links (w_kernel w') = k_links k /\
     k_others (w_kernel w') = k_others k /\
     (k_nat (w_kernel w') = k_nat k \/
      k_nat (w_kernel w') = remove_first (rule_of self (other b)) (k_nat k)) /\
     (exists (deleted added : bool) gw,
         k_defaults (w_kernel w') =
         (if added then <[0%N := mkNexthop gw (interface_of self b)]> else id)
           ((if deleted then delete_lowest else id) (k_defaults k)))).
Proof.
  intros self k.
  set (Q := fun (r : result bool) w' => exists ok evs, r = Ret ok /\
    w_trace w' = (w_trace w ++ evs)%list /\
    ok = negb (existsb aborting evs) /\
    (next_fault (w_faults w) = FaultSpawn -> ok = false /\ w_kernel w' = k) /\
    (ok = false ->
     (exists pre e msg,
         evs = (pre ++ [e; EvLog error msg])%list /\
         aborting e = true /\ existsb aborting pre = false) /\
     k_links (w_kernel w') = k_links k /\
     k_others (w_kernel w') = k_others k /\
     (k_nat (w_kernel w') = k_nat k \/
      k_nat (w_kernel w') = remove_first (rule_of self (other b)) (k_nat k)) /\
     (exists (deleted added : bool) gw,
         k_defaults (w_kernel w') =
         (if added then <[0%N := mkNexthop gw (interface_of self b)]> else id)
           ((if deleted then delete_lowest else id) (k_defaults k))))).
  cut (wp (SwitchTo self b) w Q).
  { unfold wp, Q. destruct (SwitchTo self b w) as [r w']. simpl.
    intros (rb & evs & -> & H). eauto. }
  subst k self.
  destruct b; unfold SwitchTo, switch_to_tailscale, switch_to_openvpn.
  all: wp_go.
  all: wp_post Q.
  all: split; [reflexivity|].
  all: cbn [w_faults] in *; split; [first [by intros _|congruence]|].
  all: try (intros [=]; fail).
  all: intros _; split;
    [eexists _, _, _; split; [apply ends_with; reflexivity|];
     split; reflexivity|].
  all: split; [reflexivity|]. all: split; [reflexivity|].
  all: split; [first [by left|by right]|].
  all: cbn [other interface_of]; pick_defaults.
Qed.

(** C3, as stated, fails: the secondary link has gone; the switch to the
    secondary backend deletes the default route, cannot install the new one,
    and returns false leaving the primary's masquerade rule without any
    route. *)
Lemma failed_switch_loses_route :
  let r := SwitchTo (monitor 30 5 "1.1.1.1") Secondary (quiet secondary_gone) in
  r.1 = Ret false /\
  k_defaults (w_kernel r.2) = ∅ /\
  k_nat (w_kernel r.2) = [mkMasq "tailscale0" client_net] /\
  w_kernel r.2 <> secondary_gone.
Proof.
  cbv zeta. repeat split; try (vm_compute; reflexivity).
  intros H. apply (f_equal k_defaults) in H. vm_compute in H. discriminate H.
Qed.

Ltac in_after_nat :=
  cbn [holds_rule k_nat];
  first
    [ assumption
    | apply elem_of_app; left; in_after_nat
    | apply elem_of_remove_first; [in_after_nat|by apply target_not_other] ].

(** C2, amended: the commands of a switch are issued in the order of
    [switch_commands]: the masquerade rule on the other backend's interface
    is removed before the rule on the target interface is looked for and, if
    missing, appended.  A successful switch ends with the target's rule
    installed; and when that rule was installed before the switch, every
    kernel state the switch passes through holds it. *)
Theorem switch_removes_then_installs ci pt th b w :
  let self := monitor ci pt th in
  exists ok w' evs gw,
    SwitchTo self b w = (Ret ok, w') /\
    w_trace w' = (w_trace w ++ evs)%list /\
    commands evs `prefix_of` switch_commands self b gw /\
    (ok = true -> rule_of self b ∈ k_nat (w_kernel w')) /\
    (rule_of self b ∈ k_nat (w_kernel w) -> Forall (holds_rule (rule_of self b)) evs).
Proof.
  intros self.
  set (Q := fun (r : result bool) w' => exists ok evs, r = Ret ok /\
    w_trace w' = (w_trace w ++ evs)%list /\
    exists gw,
    commands evs `prefix_of` switch_commands self b gw /\
    (ok = true -> rule_of self b ∈ k_nat (w_kernel w')) /\
    (rule_of self b ∈ k_nat (w_kernel w) -> Forall (holds_rule (rule_of self b)) evs)).
  cut (wp (SwitchTo self b) w Q).
  { unfold wp, Q. destruct (SwitchTo self b w) as [r w']. simpl.
    intros (rb & evs & -> & ? & gw & H). eauto 10. }
  subst self.
  destruct b; unfold SwitchTo, switch_to_tailscale, switch_to_openvpn.
  all: wp_go.
  all: wp_post Q.
  all: eexists; split; [eexists; reflexivity|].
  all: split;
    [ first [ by intros ?
            | intros _; first [ by eapply bool_decide_eq_true_1
                              | apply elem_of_app; right; apply list_elem_of_singleton; reflexivity ] ]
    | ].
  all: intros Hin; repeat (constructor; [first [exact I|in_after_nat]|]); constructor.
  Unshelve. all: exact None.
Qed.

(** C2, as stated, fails: traffic runs through the secondary backend with
    its one masquerade rule; during the switch to the primary backend the
    rule is deleted before the new one is appended, and two commands see a
    chain with no masquerade rule for the client subnet. *)
Lemma switch_passes_through_no_rule :
  let self := monitor 30 5 "1.1.1.1" in
  let r := SwitchTo self Primary (quiet on_secondary) in
  r.1 = Ret true /\
  length (client_rules self on_secondary) = 1%nat /\
  omap (fun e => match e with
                 | EvRun c _ k => Some (c, length (client_rules self k))
                 | _ => None
                 end) (w_trace r.2) =
  [(IpRouteDelDefault, 1%nat);
   (IpRouteShowDev "tailscale0", 1%nat);
   (IpRouteAddDefault None "tailscale0", 1%nat);
   (IptMasquerade IptDelete "tun0" client_net, 0%nat);
   (IptMasquerade IptCheck "tailscale0" client_net, 0%nat);
   (IptMasquerade IptAppend "tailscale0" client_net, 1%nat)].
Proof. vm_compute. auto. Qed.

(** ** A switch without faults *)

Lemma wp_run_quiet c check cap w (Q : result CompletedProcess -> World -> Prop) :
  w_faults w = [] ->
  Q (completed check cap (exec c (w_kernel w)).1)
    (mkWorld (exec c (w_kernel w)).2 []
       (w_trace w ++ [EvRun c (Some (returncode (exec c (w_kernel w)).1))
                        (exec c (w_kernel w)).2])) ->
  wp (run_command c check cap) w Q.
Proof.
  intros Hf HQ. apply wp_run; rewrite Hf; try discriminate.
  intros _. unfold record. by rewrite Hf.
Qed.

Ltac wp_quiet_simpl :=
  unfold completed;
  cbn [is_Exception is_CalledProcessError andb negb returncode stdout
       w_kernel w_faults w_trace].

Ltac wp_step_quiet :=
  first
    [ wp_struct
    | lazymatch goal with
      | |- wp (run_command _ _ _) _ _ => apply wp_run_quiet; [reflexivity|]
      end
    | wp_branch ];
  wp_quiet_simpl.

Lemma exec_show_dev_kernel i k : (exec (IpRouteShowDev i) k).2 = k.
Proof. cbn. by destruct (k_links k !! i). Qed.

Lemma exec_check_kernel o s k : (exec (IptMasquerade IptCheck o s) k).2 = k.
Proof. reflexivity. Qed.

Lemma exec_append_status o s k :
  returncode (exec (IptMasquerade IptAppend o s) k).1 = 0.
Proof. reflexivity. Qed.

(** A command that exits with a non-zero status has changed nothing. *)
Lemma exec_failure_kernel c k :
  (returncode (exec c k).1 =? 0) = false -> (exec c k).2 = k.
Proof.
  destruct c as [i|i|i t h| |i| |via dev|[] o s]; cbn;
    repeat case_match; cbn; try done.
Qed.

Lemma switch_settles self b k tr :
  w_kernel (SwitchTo self b (mkWorld k [] tr)).2 = settle self b k /\
  w_faults (SwitchTo self b (mkWorld k [] tr)).2 = [].
Proof.
  set (Q := fun (r : result bool) w' =>
              w_kernel w' = settle self b k /\ w_faults w' = []).
  change (wp (SwitchTo self b) (mkWorld k [] tr) (fun r w' => Q r w')).
  destruct b; unfold SwitchTo, switch_to_tailscale, switch_to_openvpn.
  all: repeat wp_step_quiet.
  all: unfold Q; split; [|reflexivity].
  all: cbn [w_kernel]; unfold settle, succeeds, after; cbn [interface_of other].
  all: rewrite ?exec_show_dev_kernel, ?exec_check_kernel in *.
  all: repeat match goal with
         | H : negb _ = true |- _ => apply negb_true_iff in H
         | H : negb _ = false |- _ => apply negb_false_iff in H
         end.
  all: try (rewrite exec_append_status in *; discriminate).
  all: repeat match goal with
         | H : (returncode (exec ?c ?k').1 =? 0) = false |- _ =>
             rewrite (exec_failure_kernel c k' H)
         end.
  all: repeat match goal with
         | H : search_gateway _ = _ |- _ => rewrite H; clear H
         | H : (_ =? _) = _ |- _ => rewrite H; clear H
         end; cbn [andb].
  all: reflexivity.
Qed.

(** ** Metrics of the policy table *)

Lemma foldr_min_None (l : list N) :
  foldr (fun k acc => match acc with
                        | None => Some k
                        | Some j => Some (N.min k j)
                        end) None l = None -> l = [].
Proof. destruct l as [|x l]; [done|]. cbn. by case_match. Qed.

Lemma foldr_min_Some (l : list N) i :
  foldr (fun k acc => match acc with
                        | None => Some k
                        | Some j => Some (N.min k j)
                        end) None l = Some i ->
  i ∈ l /\ forall j, j ∈ l -> (i <= j)%N.
Proof.
  revert i. induction l as [|x l IH]; intros i; [done|]. cbn.
  destruct (foldr _ None l) as [m|] eqn:E.
  - intros [= <-]. destruct (IH m eq_refl) as [Hin Hle]. split.
    + destruct (N.min_spec x m) as [[_ ->]|[_ ->]]; [left|by right].
    + intros j [->|Hj]%elem_of_cons; [lia|]. specialize (Hle j Hj). lia.
  - intros [= <-]. apply foldr_min_None in E as ->. split; [left|].
    intros j [->|Hj]%elem_of_cons; [lia|]. by apply elem_of_nil in Hj.
Qed.

Lemma lowest_metric_None (m : gmap N nexthop) :
  lowest_metric m = None -> m = ∅.
Proof.
  intros H%foldr_min_None. apply fmap_nil_inv in H.
  by apply map_to_list_empty_iff.
Qed.

Lemma lowest_metric_Some (m : gmap N nexthop) i :
  lowest_metric m = Some i ->
  is_Some (m !! i) /\ forall j, is_Some (m !! j) -> (i <= j)%N.
Proof.
  intros [Hin Hle]%foldr_min_Some. split.
  - apply list_elem_of_fmap in Hin as ([i' v] & -> & Hv).
    apply elem_of_map_to_list in Hv. by exists v.
  - intros j [v Hv]. apply Hle. apply list_elem_of_fmap. exists (j, v).
    split; [done|]. by apply elem_of_map_to_list.
Qed.

Lemma lowest_metric_empty : lowest_metric ∅ = None.
Proof. unfold lowest_metric. by rewrite map_to_list_empty. Qed.

Lemma lowest_metric_zero (m : gmap N nexthop) nh :
  lowest_metric (<[0%N := nh]> m) = Some 0%N.
Proof.
  destruct (lowest_metric (<[0%N := nh]> m)) as [i|] eqn:E.
  - apply lowest_metric_Some in E as [_ Hle].
    assert (i <= 0)%N by (apply Hle; rewrite lookup_insert_eq; eauto).
    f_equal. lia.
  - apply lowest_metric_None in E.
    by apply insert_non_empty in E.
Qed.

Lemma delete_lowest_small (m : gmap N nexthop) :
  (size m <= 1)%nat -> delete_lowest m = ∅.
Proof.
  intros Hs. unfold delete_lowest.
  destruct (lowest_metric m) as [i|] eqn:E.
  - apply lowest_metric_Some in E as [[v Hv] _].
    apply map_size_empty_iff.
    pose proof (map_size_delete i m) as Hd. rewrite Hv in Hd. lia.
  - by apply lowest_metric_None.
Qed.

Lemma after_del_default k :
  after IpRouteDelDefault k =
  mkKernel (k_links k) (delete_lowest (k_defaults k)) (k_others k) (k_nat k).
Proof.
  unfold after, delete_lowest. cbn.
  destruct (lowest_metric (k_defaults k)); [done|]. by destruct k.
Qed.

(** ** Idempotence of a switch *)

Lemma settle_small self b k :
  (size (k_defaults k) <= 1)%nat ->
  settle self b k = settle self b (mkKernel (k_links k) ∅ (k_others k) (k_nat k)).
Proof.
  intros Hs. unfold settle. rewrite !after_del_default. cbn [k_links k_defaults k_others k_nat].
  rewrite delete_lowest_small by done.
  rewrite delete_lowest_small by (rewrite map_size_empty; lia). done.
Qed.

Lemma settle_empty self b L O N :
  settle self b (mkKernel L ∅ O N) =
  match route_for self b L with
  | Some nh =>
      mkKernel L (<[0%N := nh]> ∅) O
        (ensure_only (rule_of self b) (rule_of self (other b)) N)
  | None => mkKernel L ∅ O N
  end.
Proof.
  unfold settle. rewrite after_del_default. cbn [k_links k_defaults k_others k_nat].
  rewrite delete_lowest_small by (rewrite map_size_empty; lia).
  unfold route_for, ensure_only, succeeds, after, rule_of.
  destruct b; cbn [interface_of other exec fst snd k_links k_defaults k_others k_nat];
    destruct (L !! _) as [l|]; cbn -[search_gateway]; try done;
    rewrite ?lookup_empty; cbn -[search_gateway].
  - destruct (search_gateway (lk_routes l)) as [g|]; cbn.
    + destruct (bool_decide (g ∈ lk_onlink l)); cbn; [|done].
      repeat (case_bool_decide; cbn); done.
    + repeat (case_bool_decide; cbn); done.
  - repeat (case_bool_decide; cbn); done.
Qed.

Lemma occurrences_remove_first o l :
  (occurrences o l <= 1)%nat -> o ∉ remove_first o l.
Proof.
  unfold occurrences. induction l as [|x l IH];
    [intros _; cbn; apply not_elem_of_nil|].
  rewrite filter_cons. cbn [remove_first]. case_decide as Hx.
  - subst x. cbn [length]. rewrite bool_decide_eq_true_2 by done. intros Hl Hin.
    assert (o ∈ filter (fun x => x = o) l) as Hf
      by (by apply list_elem_of_filter).
    destruct (filter _ l); [by apply elem_of_nil in Hf|cbn in Hl; lia].
  - rewrite bool_decide_eq_false_2 by done. intros Hl Hin.
    apply elem_of_cons in Hin as [->|Hin]; [done|]. by apply IH.
Qed.

Lemma ensure_only_idem t o l :
  t <> o -> (occurrences o l <= 1)%nat ->
  ensure_only t o (ensure_only t o l) = ensure_only t o l.
Proof.
  intros Hne Hocc.
  assert ((o ∉ ensure_only t o l) /\ (t ∈ ensure_only t o l)) as [Ho Ht].
  { unfold ensure_only. cbn zeta.
    assert (o ∉ (if bool_decide (o ∈ l) then remove_first o l else l)) as Ho.
    { case_bool_decide; [by apply occurrences_remove_first|done]. }
    set (l' := if bool_decide (o ∈ l) then remove_first o l else l) in *.
    clearbody l'. case_bool_decide as Ht; split; try done.
    - intros [?|Hin]%elem_of_app; [done|].
      apply list_elem_of_singleton in Hin. done.
    - apply elem_of_app. right. by apply list_elem_of_singleton. }
  unfold ensure_only at 1. cbn zeta.
  rewrite (bool_decide_eq_false_2 _ Ho).
  by rewrite (bool_decide_eq_true_2 _ Ht).
Qed.

Lemma settle_idem ci pt th b k :
  let self := monitor ci pt th in
  (size (k_defaults k) <= 1)%nat ->
  (occurrences (rule_of self (other b)) (k_nat k) <= 1)%nat ->
  settle self b (settle self b k) = settle self b k.
Proof.
  intros self Hs Ho.
  rewrite (settle_small self b k Hs), settle_empty.
  destruct (route_for self b (k_links k)) as [nh|] eqn:E.
  - rewrite settle_small by (cbn; rewrite insert_empty, map_size_singleton; lia).
    cbn [k_links k_others k_nat]. rewrite settle_empty, E.
    rewrite ensure_only_idem; [done| |done].
    by destruct b.
  - by rewrite settle_empty, E.
Qed.

(** C7, amended: from a state whose policy table holds at most one default
    route and whose chain holds the other backend's masquerade rule at most
    once, a second switch to the same backend, run right after the first
    with no fault in either, leaves the routing state the first one left. *)
Theorem switch_twice_is_switch_once ci pt th b k :
  let self := monitor ci pt th in
  (size (k_defaults k) <= 1)%nat ->
  (occurrences (rule_of self (other b)) (k_nat k) <= 1)%nat ->
  let once := (SwitchTo self b (quiet k)).2 in
  w_kernel (SwitchTo self b once).2 = w_kernel once.
Proof.
  intros self Hs Ho once.
  destruct (switch_settles self b k []) as [Hk Hf].
  fold (quiet k) in Hk, Hf. fold once in Hk, Hf.
  destruct once as [k1 f1 t1]. cbn in Hk, Hf. subst k1 f1.
  destruct (switch_settles self b (settle self b k) t1) as [-> _].
  cbn. by apply settle_idem.
Qed.

Lemma switch_twice_is_switch_once_witness :
  let self := monitor 30 5 "1.1.1.1" in
  let once := (SwitchTo self Primary (quiet on_secondary)).2 in
  w_kernel (SwitchTo self Primary once).2 = w_kernel once.
Proof.
  apply (switch_twice_is_switch_once 30 5 "1.1.1.1" Primary on_secondary).
  - vm_compute. lia.
  - vm_compute. lia.
Defined.

(** C7, as stated, fails: with the secondary backend's rule present twice,
    the first switch to the primary backend removes one copy and the second
    switch removes the other. *)
Lemma second_switch_removes_second_copy :
  let self := monitor 30 5 "1.1.1.1" in
  let once := (SwitchTo self Primary (quiet doubled_rule)).2 in
  let twice := (SwitchTo self Primary once).2 in
  k_nat (w_kernel once) =
    [mkMasq "tun0" client_net; mkMasq "tailscale0" client_net] /\
  k_nat (w_kernel twice) = [mkMasq "tailscale0" client_net] /\
  w_kernel twice <> w_kernel once.
Proof.
  cbv zeta. split; [by vm_compute|]. split; [by vm_compute|].
  intros H. apply (f_equal k_nat) in H. vm_compute in H. discriminate H.
Qed.

(** The bound on the default routes is needed as well: with two default
    routes and no link for the target, each failing switch deletes one. *)
Lemma failing_switches_drain_routes :
  let self := monitor 30 5 "1.1.1.1" in
  let once := (SwitchTo self Secondary (quiet two_routes_no_link)).2 in
  let twice := (SwitchTo self Secondary once).2 in
  size (k_defaults (w_kernel once)) = 1%nat /\
  size (k_defaults (w_kernel twice)) = 0%nat.
Proof. by vm_compute. Qed.
(** ** The poll loop *)

Lemma sleep_returns secs : 0 <= secs <= sleep_max -> returns (sleep secs).
Proof.
  intros H w. unfold sleep.
  destruct (secs <? - sleep_max) eqn:E1; [unfold sleep_max in *; lia|].
  destruct (sleep_max <? secs) eqn:E2; [lia|]. cbn [orb].
  destruct (secs <? 0) eqn:E; [lia|].
  by eexists _, _.
Qed.

Lemma sleep_accepts secs w :
  0 <= secs <= sleep_max -> sleep secs w = emit (EvSleep secs) w.
Proof.
  intros H. unfold sleep.
  destruct (secs <? - sleep_max) eqn:E1; [unfold sleep_max in *; lia|].
  destruct (sleep_max <? secs) eqn:E2; [lia|]. cbn [orb].
  by destruct (secs <? 0) eqn:E; [lia|].
Qed.

Lemma sleep_negative secs w :
  - sleep_max <= secs < 0 ->
  sleep secs w = (Raise (ValueError "sleep length must be non-negative"), w).
Proof.
  intros H. unfold sleep.
  destruct (secs <? - sleep_max) eqn:E1; [lia|].
  destruct (sleep_max <? secs) eqn:E2; [unfold sleep_max in *; lia|]. cbn [orb].
  destruct (secs <? 0) eqn:E; [done|lia].
Qed.

Lemma sleep_overflow secs w :
  secs < - sleep_max \/ sleep_max < secs ->
  sleep secs w
  = (Raise (OverflowError "timestamp too large to convert to C _PyTime_t"), w).
Proof.
  intros H. unfold sleep.
  destruct (secs <? - sleep_max) eqn:E1; [done|].
  destruct (sleep_max <? secs) eqn:E2; [done|lia].
Qed.

(** The exception of [time.sleep] for an interval it refuses. *)
Lemma sleep_refuses secs w :
  secs < 0 \/ sleep_max < secs ->
  exists e, sleep secs w = (Raise e, w) /\ is_Exception e = true /\
            (e = ValueError "sleep length must be non-negative" \/
             e = OverflowError "timestamp too large to convert to C _PyTime_t").
Proof.
  intros H.
  destruct (Z_lt_le_dec secs (- sleep_max)) as [Hlo|Hlo];
    [|destruct (Z_lt_le_dec sleep_max secs) as [Hhi|Hhi]].
  - eexists. split; [apply sleep_overflow; lia|]. split; [done|by right].
  - eexists. split; [apply sleep_overflow; lia|]. split; [done|by right].
  - eexists. split; [apply sleep_negative; lia|]. split; [done|by left].
Qed.

Section LoopFacts.

Variable outside : nat -> Kernel -> Kernel.
Variable signal_at : nat -> bool.

Lemma during_sleep_interval n self w :
  check_interval (during_sleep outside signal_at n self w).1
  = check_interval self.
Proof. unfold during_sleep. by destruct (signal_at n). Qed.

Lemma during_sleep_running n self w :
  running (during_sleep outside signal_at n self w).1
  = running self && negb (signal_at n).
Proof.
  unfold during_sleep. destruct (signal_at n); cbn; [|by rewrite andb_true_r].
  by rewrite andb_false_r.
Qed.

Lemma loop_from_survives iterations : forall n self w,
  0 <= check_interval self <= sleep_max ->
  exists self' w',
    (loop_from outside signal_at iterations n self w
     = (StillRunning, self', w')) \/
    (loop_from outside signal_at iterations n self w = (Stopped, self', w') /\
     running self' = false /\
     (running self = true ->
      exists j, (n <= j < n + iterations)%nat /\ signal_at j = true)).
Proof.
  induction iterations as [|k IH]; intros n self w Hci.
  - eexists _, _. left. reflexivity.
  - cbn [loop_from]. destruct (running self) eqn:Hrun; cbn [negb].
    + assert (returns (monitor_cycle self;;; sleep (check_interval self)))
        as Hret.
      { apply returns_bind; [apply monitor_cycle_returns|intros _].
        by apply sleep_returns. }
      destruct (Hret w) as ([] & w1 & ->).
      destruct (during_sleep outside signal_at n self w1) as [self1 w2] eqn:E.
      assert (check_interval self1 = check_interval self) as Hci1.
      { by rewrite <- (during_sleep_interval n self w1), E. }
      assert (running self1 = negb (signal_at n)) as Hrun1.
      { pose proof (during_sleep_running n self w1) as H.
        by rewrite E, Hrun in H. }
      destruct (IH (S n) self1 w2) as (self' & w' & [H|(H & Hs & Hj)]);
        [lia| |]; eexists _, _; [left; exact H|right].
      split; [exact H|]. split; [exact Hs|]. intros _.
      destruct (signal_at n) eqn:Hsig.
      * exists n. split; [lia|done].
      * destruct (Hj Hrun1) as (j & Hj1 & Hj2). exists j. split; [lia|done].
    + eexists _, _. right. split; [reflexivity|]. split; [exact Hrun|done].
Qed.

End LoopFacts.

(** With a poll interval that [time.sleep] accepts, no exception leaves the
    loop: it ends only by finding the running flag cleared, which a signal
    received during an earlier sleep has done. *)
Lemma loop_survives outside signal_at iterations self w :
  0 <= check_interval self <= sleep_max ->
  exists self' w',
    (monitor_loop outside signal_at iterations self w
     = (StillRunning, self', w')) \/
    (monitor_loop outside signal_at iterations self w = (Stopped, self', w') /\
     running self' = false /\
     exists j, (j < iterations)%nat /\ signal_at j = true).
Proof.
  intros Hci. unfold monitor_loop.
  destruct (loop_from_survives outside signal_at iterations 0
              (set_running self true)
              (_log_with_timestamp info "VPN failover monitor started" w).2 Hci)
    as (self' & w' & [H|(H & Hs & Hj)]); exists self', w'; [by left|right].
  split; [exact H|]. split; [exact Hs|].
  destruct (Hj eq_refl) as (j & Hj1 & Hj2). exists j. split; [lia|done].
Qed.

(** C8, where the code misses what it attempts: the handler of the loop
    catches every [Exception] of a cycle and logs it, and then sleeps
    outside any handler.  With a poll interval that [time.sleep] refuses, a
    negative one or one too large, the sleep that ends the first cycle
    raises, the handler logs the error, its own sleep raises the same
    exception, and that exception leaves the loop: whatever the state of
    the kernel, whatever commands fail, and with no signal received.  The
    running flag is still set and the loop has not logged its stop. *)
Theorem unprotected_sleep_ends_loop outside signal_at iterations self w :
  check_interval self < 0 \/ sleep_max < check_interval self ->
  exists e w1 w',
    monitor_cycle self
      (_log_with_timestamp info "VPN failover monitor started" w).2
    = (Ret tt, w1) /\
    sleep (check_interval self) w1 = (Raise e, w1) /\
    is_Exception e = true /\
    w_kernel w' = w_kernel w1 /\
    w_trace w' =
      (w_trace w1 ++ [EvLog error ("Monitor error: " ++ exn_str e)])%list /\
    monitor_loop outside signal_at (S iterations) self w
    = (Escaped e, set_running self true, w').
Proof.
  intros Hci. unfold monitor_loop.
  set (w0 := (_log_with_timestamp info "VPN failover monitor started" w).2).
  destruct (monitor_cycle_returns self w0) as ([] & w1 & Hc).
  destruct (sleep_refuses (check_interval self) w1 Hci) as (e & Hs & He & _).
  set (w2 := mkWorld (w_kernel w1) (w_faults w1)
               (w_trace w1 ++ [EvLog error ("Monitor error: " ++ exn_str e)])).
  destruct (sleep_refuses (check_interval self) w2 Hci) as (e2 & Hs2 & _ & _).
  assert (e2 = e) as ->.
  { revert Hs Hs2. unfold sleep, raise, emit.
    destruct (_ || _); [|destruct (_ <? 0)]; intros; congruence. }
  exists e, w1, w2. split; [exact Hc|]. split; [exact Hs|]. split; [exact He|].
  split; [reflexivity|]. split; [reflexivity|].
  cbn [loop_from set_running running negb].
  change (check_interval (set_running self true)) with (check_interval self).
  assert (monitor_cycle (set_running self true) = monitor_cycle self) as ->
    by reflexivity.
  unfold bind at 1. rewrite Hc. rewrite Hs.
  destruct e; try discriminate He.
  all: unfold bind, _log_with_timestamp, emit; cbn [fst snd].
  all: change (mkWorld _ _ _) with w2; by rewrite Hs2.
Qed.

Lemma unprotected_sleep_ends_loop_witness :
  let self := monitor (-1) 5 "1.1.1.1" in
  exists e w1 w',
    monitor_cycle self
      (_log_with_timestamp info "VPN failover monitor started"
         (quiet on_secondary)).2
    = (Ret tt, w1) /\
    sleep (check_interval self) w1 = (Raise e, w1) /\
    is_Exception e = true /\
    w_kernel w' = w_kernel w1 /\
    w_trace w' =
      (w_trace w1 ++ [EvLog error ("Monitor error: " ++ exn_str e)])%list /\
    monitor_loop nobody no_signal 1 self (quiet on_secondary)
    = (Escaped e, set_running self true, w').
Proof.
  apply (unprotected_sleep_ends_loop nobody no_signal 0
           (monitor (-1) 5 "1.1.1.1") (quiet on_secondary)).
  left. cbn. reflexivity.
Defined.

(** The same at two concrete intervals, evaluated: the exception that
    leaves the loop and the last line logged; [main] then exits with
    status 1. *)
Lemma refused_intervals_end_loop :
  let r := monitor_loop nobody no_signal 1 (monitor (-1) 5 "1.1.1.1")
             (quiet on_secondary) in
  let r' := monitor_loop nobody no_signal 1 (monitor 10000000000 5 "1.1.1.1")
              (quiet on_secondary) in
  r.1.1 = Escaped (ValueError "sleep length must be non-negative") /\
  running r.1.2 = true /\
  last (w_trace r.2) =
  Some (EvLog error "Monitor error: sleep length must be non-negative") /\
  r'.1.1 =
  Escaped (OverflowError "timestamp too large to convert to C _PyTime_t") /\
  running r'.1.2 = true /\
  last (w_trace r'.2) =
  Some (EvLog error
          "Monitor error: timestamp too large to convert to C _PyTime_t") /\
  (main nobody no_signal 1 (-1) 5 "1.1.1.1" false (quiet on_secondary)).1
  = Exit 1.
Proof. by vm_compute. Qed.

(** ** The router configuration *)

Module ConfigFacts.
Import Config.

Ltac value_error :=
  intros ? ?;
  repeat (first [ discriminate
                | match goal with
                  | H : Raise _ = Raise _ |- _ => injection H as <-; eauto
                  | H : context [match ?x with _ => _ end] |- _ =>
                      destruct x eqn:?
                  | H : context [if ?x then _ else _] |- _ => destruct x eqn:?
                  end ]).

Lemma parse_octet_error s : only_ValueError (Ipaddress._parse_octet s).
Proof. unfold Ipaddress._parse_octet. value_error. Qed.

Lemma ip_int_error s : only_ValueError (Ipaddress._ip_int_from_string s).
Proof.
  unfold Ipaddress._ip_int_from_string. intros e.
  destruct (negb (truthy s)); [intros [= <-]; eauto|].
  destruct (Ipaddress.split "." s) as [|o1 [|o2 [|o3 [|o4 [|]]]]];
    try (intros [= <-]; eauto; fail).
  pose proof (parse_octet_error o1). pose proof (parse_octet_error o2).
  pose proof (parse_octet_error o3). pose proof (parse_octet_error o4).
  destruct (Ipaddress._parse_octet o1), (Ipaddress._parse_octet o2),
    (Ipaddress._parse_octet o3), (Ipaddress._parse_octet o4);
    intros [= <-]; eauto.
Qed.

Lemma address_error s : only_ValueError (Ipaddress.IPv4Address s).
Proof.
  unfold Ipaddress.IPv4Address. intros e.
  destruct (Text.contains "/" s); [intros [= <-]; eauto|apply ip_int_error].
Qed.

Lemma netmask_error s : only_ValueError (Ipaddress._make_netmask s).
Proof.
  unfold Ipaddress._make_netmask, Ipaddress._prefix_from_ip_string.
  value_error.
Qed.

Lemma network_error s strict : only_ValueError (Ipaddress.IPv4Network s strict).
Proof.
  unfold Ipaddress.IPv4Network. intros e.
  destruct (Ipaddress.split "/" s) as [|addr rest]; [intros [= <-]; eauto|].
  pose proof (address_error addr) as Ha.
  destruct rest as [|mask [|? ?]].
  - destruct (Ipaddress.IPv4Address addr); [|intros [= <-]; eauto].
    destruct (negb _); [destruct strict|]; try discriminate.
    intros [= <-]; eauto.
  - destruct (Ipaddress.IPv4Address addr); [|intros [= <-]; eauto].
    pose proof (netmask_error mask) as Hm.
    destruct (Ipaddress._make_netmask mask); [|intros [= <-]; eauto].
    destruct (negb _); [destruct strict|]; try discriminate.
    intros [= <-]; eauto.
  - intros [= <-]; eauto.
Qed.

Lemma check_addresses_error c n : only_ValueError (check_addresses c n).
Proof.
  unfold check_addresses. intros e.
  pose proof (address_error (usb_ip c)) as H1.
  pose proof (address_error (usb_dhcp_start c)) as H2.
  pose proof (address_error (usb_dhcp_end c)) as H3.
  destruct (Ipaddress.IPv4Address (usb_ip c)); [|intros [= <-]; eauto].
  destruct (Ipaddress.IPv4Address (usb_dhcp_start c)); [|intros [= <-]; eauto].
  destruct (Ipaddress.IPv4Address (usb_dhcp_end c)); [|intros [= <-]; eauto].
  repeat (destruct (negb _); [intros [= <-]; eauto|]).
  destruct (_ <=? _); [intros [= <-]; eauto|discriminate].
Qed.

Lemma check_addresses_ok c n :
  check_addresses c n = Ret tt <->
  exists ip lo hi,
    Ipaddress.IPv4Address (usb_ip c) = Ret ip /\
    Ipaddress.IPv4Address (usb_dhcp_start c) = Ret lo /\
    Ipaddress.IPv4Address (usb_dhcp_end c) = Ret hi /\
    Ipaddress.contains n ip = true /\
    Ipaddress.contains n lo = true /\
    Ipaddress.contains n hi = true /\
    lo < hi.
Proof.
  unfold check_addresses. split.
  - destruct (Ipaddress.IPv4Address (usb_ip c)) as [ip|]; [|discriminate].
    destruct (Ipaddress.IPv4Address (usb_dhcp_start c)) as [lo|]; [|discriminate].
    destruct (Ipaddress.IPv4Address (usb_dhcp_end c)) as [hi|]; [|discriminate].
    destruct (Ipaddress.contains n ip) eqn:?; [|discriminate].
    destruct (Ipaddress.contains n lo) eqn:?; [|discriminate].
    destruct (Ipaddress.contains n hi) eqn:?; [|discriminate].
    cbn. destruct (Z.leb_spec hi lo); [discriminate|]. intros _.
    exists ip, lo, hi. repeat split; try done.
  - intros (ip & lo & hi & -> & -> & -> & -> & -> & -> & Hlt). cbn.
    destruct (Z.leb_spec hi lo); [lia|done].
Qed.

Lemma check_addresses_network c v n :
  check_addresses (setattr c F_usb_network v) n = check_addresses c n.
Proof. by destruct c. Qed.

(** Construction runs [validate].  It succeeds exactly on acceptable
    fields, returning them with the network rewritten in normal form; on
    any other fields it raises [ValueError]. *)
Lemma construction_validates fields :
  (acceptable fields ->
   exists network,
     Ipaddress.IPv4Network (usb_network fields) false = Ret network /\
     RouterConfig_new fields =
     Ret (setattr fields F_usb_network (Ipaddress.network_str network))) /\
  (~ acceptable fields ->
   exists msg, RouterConfig_new fields = Raise (ValueError msg)).
Proof.
  unfold RouterConfig_new, validate, acceptable. split.
  - intros (n & ip & lo & hi & Hn & Hip & Hlo & Hhi & H1 & H2 & H3 & Hlt & Hp).
    exists n. split; [done|]. rewrite Hn.
    rewrite check_addresses_network.
    assert (check_addresses fields n = Ret tt) as ->.
    { apply check_addresses_ok. exists ip, lo, hi. done. }
    replace (dashboard_port (setattr fields F_usb_network _))
      with (dashboard_port fields) by (by destruct fields).
    destruct (Z.leb_spec 1 (dashboard_port fields)); [|lia].
    destruct (Z.leb_spec (dashboard_port fields) 65535); [done|lia].
  - intros Hbad.
    pose proof (network_error (usb_network fields) false) as Hn.
    destruct (Ipaddress.IPv4Network (usb_network fields) false) as [n|e].
    + rewrite check_addresses_network.
      pose proof (check_addresses_error fields n) as Hc.
      destruct (check_addresses fields n) as [[]|e] eqn:Ec.
      * replace (dashboard_port (setattr fields F_usb_network _))
          with (dashboard_port fields) by (by destruct fields).
        destruct (negb _) eqn:Ep; [eauto|].
        exfalso. apply Hbad.
        apply check_addresses_ok in Ec as (ip & lo & hi & ?).
        exists n, ip, lo, hi. apply negb_false_iff, andb_true_iff in Ep.
        destruct Ep as [?%Z.leb_le ?%Z.leb_le]. intuition.
      * destruct (Hc e eq_refl) as [m ->]. cbn. eauto.
    + destruct (Hn e eq_refl) as [m ->]. cbn. eauto.
Qed.

Lemma getattr_setattr {T} (f : field T) (v : T) cfg :
  getattr (setattr cfg f v) f = v.
Proof. by destruct cfg, f. Qed.

End ConfigFacts.

(** [main] on its monitoring path logs what the loop logs, and at most one
    line more. *)
Lemma main_trace_head outside signal_at iterations ci pt th w :
  exists st evs,
    w_trace (main outside signal_at (S iterations) ci pt th false w).2 =
    (w_trace w ++ EvLog info "VPN failover monitor started"
       :: EvRun IpRouteShowTable st (w_kernel w) :: evs)%list.
Proof.
  unfold main.
  destruct (loop_trace_head outside signal_at iterations
              (VPNMonitor_init ci pt th) w) as (st & evs & H).
  exists st.
  destruct (monitor_loop outside signal_at (S iterations)
              (VPNMonitor_init ci pt th) w) as [[how self'] w1].
  cbn [snd] in H.
  destruct how as [| |e|]; try (exists evs; exact H).
  destruct e; eexists (evs ++ [_])%list; cbn; rewrite H;
    by rewrite <- app_assoc.
Qed.

(** C9, as stated, fails on its last two clauses.  The controller starts
    under values no check has seen: [main] builds the monitor from its
    options as they come, here a probe timeout of -5 seconds and an empty
    test target, and two cycles later the loop is still running, having
    pinged with these values; a client subnet that [RouterConfig] refuses
    does not reach it, the monitor carrying its own.  And a configuration
    that passed validation can be changed afterwards, no check running
    then. *)
Lemma controller_starts_unvalidated_and_config_changes :
  let r := main nobody no_signal 2 30 (-5) "" false (quiet on_secondary) in
  r.1 = Running /\
  List.filter (fun c => match c with Ping _ _ _ => true | _ => false end)
    (commands (w_trace r.2))
  = [Ping "tailscale0" (-5) ""; Ping "tun0" (-5) "";
     Ping "tailscale0" (-5) ""; Ping "tun0" (-5) ""] /\
  Config.RouterConfig_new
    (Config.setattr Config.default Config.F_usb_network "not-a-network")
  = Raise (ValueError "Invalid USB network: Expected 4 octets") /\
  usb_network (VPNMonitor_init 30 (-5) "") = "192.168.64.0/24" /\
  exists cfg,
    Config.RouterConfig_new Config.default = Ret cfg /\
    Config.dashboard_port (Config.setattr cfg Config.F_dashboard_port 0) = 0 /\
    Config.setattr cfg Config.F_dashboard_port 0 <> cfg /\
    Config.validate (Config.setattr cfg Config.F_dashboard_port 0)
    = Raise (ValueError "Invalid dashboard port").
Proof.
  split; [by vm_compute|]. split; [by vm_compute|].
  split; [by vm_compute|]. split; [reflexivity|].
  eexists. split; [vm_compute; reflexivity|].
  repeat split. intros H. apply (f_equal Config.dashboard_port) in H.
  discriminate H.
Qed.

(** C9, amended: validation guards the construction of [RouterConfig], and
    nothing else.  Construction succeeds exactly on acceptable fields,
    returning them with the network rewritten in normal form, and raises
    [ValueError] on any other fields.  The failover controller is not built
    from a [RouterConfig]: whatever its three options are, [main] starts
    the loop, which announces itself and reads the policy table.  And an
    assignment to a field of a configuration stores the value as given. *)
Theorem validation_guards_construction_only fields :
  ((Config.acceptable fields ->
    exists network,
      Ipaddress.IPv4Network (Config.usb_network fields) false = Ret network /\
      Config.RouterConfig_new fields =
      Ret (Config.setattr fields Config.F_usb_network
             (Ipaddress.network_str network))) /\
   (~ Config.acceptable fields ->
    exists msg, Config.RouterConfig_new fields = Raise (ValueError msg))) /\
  (forall outside signal_at iterations ci pt th w,
      exists st evs,
        w_trace (main outside signal_at (S iterations) ci pt th false w).2 =
        (w_trace w ++ EvLog info "VPN failover monitor started"
           :: EvRun IpRouteShowTable st (w_kernel w) :: evs)%list) /\
  (forall T (f : Config.field T) (v : T) cfg,
      Config.getattr (Config.setattr cfg f v) f = v).
Proof.
  split; [apply ConfigFacts.construction_validates|].
  split; [intros; apply main_trace_head|].
  intros. apply ConfigFacts.getattr_setattr.
Qed.
(** * Further properties *)

(** ** Readings and the routing state *)

Lemma get_current_vpn_kernel self w :
  w_kernel (get_current_vpn self w).2 = w_kernel w.
Proof.
  rewrite get_current_vpn_eq. by destruct (next_fault (w_faults w)).
Qed.

Lemma probe_reads self i w :
  exists r evs,
    check_interface_connectivity self i w
    = (Ret r, mkWorld (w_kernel w) (w_faults (check_interface_connectivity self i w).2)
                (w_trace w ++ evs)%list) /\
    commands evs `prefix_of` probe_commands self i.
Proof.
  set (Q := fun (r : result bool) (w' : World) => exists rb evs, r = Ret rb /\
    w_trace w' = (w_trace w ++ evs)%list /\
    w_kernel w' = w_kernel w /\
    commands evs `prefix_of` probe_commands self i).
  cut (wp (check_interface_connectivity self i) w Q).
  { unfold wp, Q. destruct (check_interface_connectivity self i w) as [r [k f t]].
    cbn. intros (rb & evs & -> & -> & -> & H). eauto. }
  unfold check_interface_connectivity, check_interface_exists.
  wp_go.
  all: wp_post Q.
  all: split; [reflexivity|].
  all: unfold probe_commands; cbn; eexists; reflexivity.
Qed.

(** Execution on a world without pending faults. *)
Ltac wp_step_exec :=
  first
    [ wp_struct
    | lazymatch goal with
      | |- wp (run_command _ _ _) _ _ => apply wp_run_quiet; [reflexivity|]
      end
    | wp_branch ];
  wp_simpl.

Lemma probe_quiet self i k tr :
  exists tr',
    check_interface_connectivity self i (mkWorld k [] tr)
    = (Ret (reachable self k i), mkWorld k [] tr').
Proof.
  set (Q := fun (r : result bool) (w' : World) =>
              r = Ret (reachable self k i) /\
              w_kernel w' = k /\ w_faults w' = []).
  cut (wp (check_interface_connectivity self i) (mkWorld k [] tr) Q).
  { unfold wp, Q.
    destruct (check_interface_connectivity self i _) as [r [k' f t]].
    cbn. intros (-> & -> & ->). eauto. }
  unfold check_interface_connectivity, check_interface_exists.
  subst Q. unfold reachable.
  destruct (k_links k !! i) as [l|] eqn:E.
  - destruct (Text.contains "inet " (render_addr i l)) eqn:Ec,
      (bool_decide (test_host self ∈ lk_reach l)) eqn:Ed.
    all: repeat (wp_step_exec; rewrite ?E, ?Ec, ?Ed; wp_simpl).
    all: try discriminate; done.
  - repeat (wp_step_exec; rewrite ?E; wp_simpl); try discriminate; done.
Qed.

Lemma reader_quiet self k tr :
  get_current_vpn self (mkWorld k [] tr)
  = (Ret (classify_listing self (listing k)),
     mkWorld k [] (tr ++ [EvRun IpRouteShowTable (Some 0) k])).
Proof. by rewrite get_current_vpn_eq. Qed.

(** X1: a probe is a pure reading.  Whatever faults occur, it returns an
    answer, leaves the routing state as it found it, and issues no other
    commands than the three of [probe_commands], in that order, stopping at
    the first one that decides the answer. *)
Theorem probe_is_read_only self b w :
  exists r w' evs,
    Probe self b w = (Ret r, w') /\
    w_kernel w' = w_kernel w /\
    w_trace w' = (w_trace w ++ evs)%list /\
    commands evs `prefix_of` probe_commands self (interface_of self b).
Proof.
  destruct (probe_reads self (interface_of self b) w) as (r & evs & E & Hc).
  unfold Probe. rewrite E. eauto 10.
Qed.

(** X2: [get_status] never raises and never changes the routing state.
    It runs the listing of the policy table and then the two probes, and
    reports the running flag of the object.  When no fault occurs the
    report is a function of the kernel state: the backend the listing names,
    and for each backend whether its link exists, has an address and lets
    the test host answer. *)
Theorem get_status_is_read_only self w :
  exists st w' c1 c2,
    get_status self w = (Ret st, w') /\
    w_kernel w' = w_kernel w /\
    commands (emitted (get_status self) w) = (IpRouteShowTable :: c1 ++ c2)%list /\
    c1 `prefix_of` probe_commands self (tailscale_interface self) /\
    c2 `prefix_of` probe_commands self (openvpn_interface self) /\
    st_monitor_running st = running self /\
    (w_faults w = [] ->
     st = mkStatus (classify_listing self (listing (w_kernel w)))
            (reachable self (w_kernel w) (tailscale_interface self))
            (reachable self (w_kernel w) (openvpn_interface self))
            (running self)).
Proof.
  assert (exists cur st0,
             get_current_vpn self w =
             (Ret cur, record w IpRouteShowTable st0 (w_kernel w)) /\
             (w_faults w = [] ->
              cur = classify_listing self (listing (w_kernel w))))
    as (cur & st0 & E0 & Hcur).
  { rewrite get_current_vpn_eq.
    destruct (w_faults w) as [|[] ?]; cbn; eexists _, _; split; try reflexivity;
      done. }
  set (w1 := record w IpRouteShowTable st0 (w_kernel w)) in *.
  destruct (probe_reads self (tailscale_interface self) w1)
    as (up1 & ev1 & E1 & P1).
  set (w2 := mkWorld (w_kernel w1) _ _) in E1.
  destruct (probe_reads self (openvpn_interface self) w2)
    as (up2 & ev2 & E2 & P2).
  set (w3 := mkWorld (w_kernel w2) _ _) in E2.
  assert (get_status self w = (Ret (mkStatus cur up1 up2 (running self)), w3))
    as E.
  { unfold get_status, bind. by rewrite E0, E1, E2. }
  exists (mkStatus cur up1 up2 (running self)), w3,
    (commands ev1), (commands ev2).
  split; [exact E|]. split; [reflexivity|]. split.
  { rewrite (emitted_app _ w
               (EvRun IpRouteShowTable st0 (w_kernel w) :: ev1 ++ ev2)).
    - unfold commands. cbn. by rewrite omap_app.
    - rewrite E. subst w3 w2 w1. cbn. by rewrite <- !app_assoc. }
  split; [exact P1|]. split; [exact P2|]. split; [reflexivity|].
  intros Hf. rewrite (Hcur Hf).
  destruct w as [k f tr]. cbn in Hf. subst f.
  destruct (probe_quiet self (tailscale_interface self) k
              (tr ++ [EvRun IpRouteShowTable st0 k])) as (tr1 & Q1).
  change (mkWorld k [] (tr ++ [EvRun IpRouteShowTable st0 k])) with w1 in Q1.
  rewrite Q1 in E1. apply pair_equal_spec in E1 as [[= <-] Hw2].
  clearbody w3 w2. subst w2.
  destruct (probe_quiet self (openvpn_interface self) k tr1) as (tr2 & Q2).
  rewrite Q2 in E2. by apply pair_equal_spec in E2 as [[= <-] _].
Qed.

(** ** What a cycle does to the routing state *)

Lemma cycle_readings self w :
  exists cur up1 up2 w3 evs,
    monitor_cycle self w = failover self cur up1 up2 w3 /\
    w_kernel w3 = w_kernel w /\
    w_trace w3 = (w_trace w ++ evs)%list.
Proof.
  assert (exists cur st0,
             get_current_vpn self w =
             (Ret cur, record w IpRouteShowTable st0 (w_kernel w)))
    as (cur & st0 & E0).
  { rewrite get_current_vpn_eq. destruct (next_fault (w_faults w)); eauto. }
  set (w1 := record w IpRouteShowTable st0 (w_kernel w)) in *.
  destruct (probe_reads self (tailscale_interface self) w1)
    as (up1 & ev1 & E1 & _).
  set (w2 := mkWorld (w_kernel w1) _ _) in E1.
  destruct (probe_reads self (openvpn_interface self) w2)
    as (up2 & ev2 & E2 & _).
  set (w3 := mkWorld (w_kernel w2) _ _) in E2.
  exists cur, up1, up2, w3, (EvRun IpRouteShowTable st0 (w_kernel w) :: ev1 ++ ev2).
  split; [|split; [reflexivity|]].
  - unfold monitor_cycle, bind. by rewrite E0, E1, E2.
  - subst w3 w2 w1. cbn. by rewrite <- !app_assoc.
Qed.

Lemma failover_by_decision self cur up1 up2 :
  match decision cur up1 up2 with
  | Some b =>
      exists lvl msg,
        failover self cur up1 up2 =
        (_log_with_timestamp lvl msg;;; SwitchTo self b;;; ret tt)
  | None =>
      failover self cur up1 up2 = ret tt \/
      exists lvl msg, failover self cur up1 up2 = _log_with_timestamp lvl msg
  end.
Proof. destruct cur, up1, up2; cbn; eauto. Qed.

(** X3: a cycle changes the routing state only inside a switch: when the
    history of the cycle holds no announcement of a switch, the kernel state
    after the cycle is the one before it, whatever faults occurred. *)
Theorem cycle_changes_routing_only_by_switch self w :
  (forall b, switch_announce b ∉ emitted (monitor_cycle self) w) ->
  w_kernel (monitor_cycle self w).2 = w_kernel w.
Proof.
  intros Hno.
  destruct (cycle_readings self w) as (cur & up1 & up2 & w3 & evs & E & Hk & Ht).
  pose proof (failover_by_decision self cur up1 up2) as Hd.
  destruct (decision cur up1 up2) as [b|].
  - exfalso. destruct Hd as (lvl & msg & Hf).
    destruct (switch_events self b
                (mkWorld (w_kernel w3) (w_faults w3)
                   (w_trace w3 ++ [EvLog lvl msg])))
      as (ok & w' & evs' & Es & Hs & _).
    apply (Hno b).
    rewrite (emitted_app _ w
               (evs ++ EvLog lvl msg :: switch_announce b :: evs')).
    + apply elem_of_app. right. right. left.
    + rewrite E, Hf. unfold bind, _log_with_timestamp, emit at 1.
      cbn. rewrite Es. cbn. rewrite Hs. cbn. rewrite Ht.
      by rewrite <- !app_assoc.
  - rewrite E. destruct Hd as [->|(lvl & msg & ->)]; exact Hk.
Qed.

Lemma cycle_changes_routing_only_by_switch_witness :
  w_kernel (monitor_cycle (monitor 30 5 "1.1.1.1") (quiet both_down)).2
  = w_kernel (quiet both_down).
Proof.
  apply (cycle_changes_routing_only_by_switch (monitor 30 5 "1.1.1.1")
           (quiet both_down)).
  intros b. vm_compute. destruct b; not_in_list.
Defined.

(** ** What a successful switch has done *)

Lemma active_default_zero (L : gmap string Link) (D : gmap N nexthop) O N' nh :
  active_default (mkKernel L (<[0%N := nh]> D) O N') = Some nh.
Proof.
  unfold active_default. cbn [k_defaults].
  rewrite lowest_metric_zero. cbn. by rewrite lookup_insert_eq.
Qed.

(** X4: when a switch returns true, whatever faults occurred on the way, the
    default route in effect in the policy table leaves through the target
    backend's interface, that interface exists, the links are untouched, and
    the last line of the history is the success message. *)
Theorem successful_switch_routes_through_target self b w w' :
  SwitchTo self b w = (Ret true, w') ->
  (exists gw,
      active_default (w_kernel w')
      = Some (mkNexthop gw (interface_of self b))) /\
  is_Some (k_links (w_kernel w) !! interface_of self b) /\
  k_links (w_kernel w') = k_links (w_kernel w) /\
  exists msg, last (w_trace w') = Some (EvLog info msg).
Proof.
  set (Q := fun (r : result bool) (w' : World) => r = Ret true ->
    (exists gw,
        active_default (w_kernel w')
        = Some (mkNexthop gw (interface_of self b))) /\
    is_Some (k_links (w_kernel w) !! interface_of self b) /\
    k_links (w_kernel w') = k_links (w_kernel w) /\
    exists msg, last (w_trace w') = Some (EvLog info msg)).
  cut (wp (SwitchTo self b) w Q).
  { unfold wp, Q. intros H E. rewrite E in H. by apply H. }
  destruct b; unfold SwitchTo, switch_to_tailscale, switch_to_openvpn.
  all: wp_go.
  all: unfold Q; wp_simpl; try (intros [=]; fail); intros _.
  all: cbn [interface_of].
  all: rewrite active_default_zero, last_snoc.
  all: repeat split; eauto.
Qed.

Lemma successful_switch_routes_through_target_witness :
  let self := monitor 30 5 "1.1.1.1" in
  let w' := (SwitchTo self Primary (quiet on_secondary)).2 in
  (exists gw,
      active_default (w_kernel w')
      = Some (mkNexthop gw (interface_of self Primary))) /\
  is_Some (k_links (w_kernel (quiet on_secondary)) !! interface_of self Primary) /\
  k_links (w_kernel w') = k_links (w_kernel (quiet on_secondary)) /\
  exists msg, last (w_trace w') = Some (EvLog info msg).
Proof.
  apply (successful_switch_routes_through_target (monitor 30 5 "1.1.1.1")
           Primary (quiet on_secondary)).
  vm_compute. reflexivity.
Defined.

(** ** A switch without faults, in closed form *)

Lemma delete_lowest_zero_free (m : gmap N nexthop) :
  delete_lowest m !! 0%N = None.
Proof.
  unfold delete_lowest. destruct (lowest_metric m) as [i|] eqn:E.
  - apply lowest_metric_Some in E as [_ Hle].
    destruct (decide (i = 0%N)) as [->|Hi]; [by rewrite lookup_delete_eq|].
    rewrite lookup_delete_ne by done.
    destruct (m !! 0%N) eqn:E0; [|done].
    assert (i <= 0)%N by (apply Hle; eauto). lia.
  - apply lowest_metric_None in E as ->. apply lookup_empty.
Qed.


Lemma settle_eq self b k :
  settle self b k =
  match route_for self b (k_links k) with
  | Some nh =>
      mkKernel (k_links k) (<[0%N := nh]> (delete_lowest (k_defaults k)))
        (k_others k)
        (ensure_only (rule_of self b) (rule_of self (other b)) (k_nat k))
  | None =>
      mkKernel (k_links k) (delete_lowest (k_defaults k)) (k_others k) (k_nat k)
  end.
Proof.
  unfold settle. rewrite after_del_default.
  pose proof (delete_lowest_zero_free (k_defaults k)) as H0.
  set (D := delete_lowest (k_defaults k)) in *. clearbody D.
  unfold route_for, ensure_only, succeeds, after, rule_of.
  destruct b; cbn [interface_of other exec fst snd k_links k_defaults k_others k_nat];
    destruct (k_links k !! _) as [l|]; cbn -[search_gateway]; try done;
    rewrite ?H0; cbn -[search_gateway].
  - destruct (search_gateway (lk_routes l)) as [g|]; cbn.
    + destruct (bool_decide (g ∈ lk_onlink l)); cbn; [|done].
      repeat (case_bool_decide; cbn); done.
    + repeat (case_bool_decide; cbn); done.
  - repeat (case_bool_decide; cbn); done.
Qed.

(** ** The reader and the routes that are not default routes *)

Lemma primary_name_plain :
  "tailscale0" <> "" /\ Text.contains Text.newline "tailscale0" = false.
Proof. split; [discriminate|reflexivity]. Qed.

Lemma listing_avoids_primary k :
  others_avoid "tailscale0" k ->
  (forall i nh, k_defaults k !! i = Some nh ->
                Text.contains "tailscale0" (render_route (i, nh)) = false) ->
  Text.contains "tailscale0" (stdout (listing k)) = false.
Proof.
  intros Ho Hd. unfold listing. cbn [stdout].
  destruct primary_name_plain as [H1 H2].
  rewrite render_table_contains by done.
  rewrite (others_avoid_existsb _ _ Ho), orb_false_r.
  apply not_true_is_false. intros (e & He & Hc)%existsb_exists.
  destruct e as [i nh]. apply list_elem_of_In, elem_of_map_to_list in He.
  by rewrite (Hd i nh He) in Hc.
Qed.

(** With the single default route through the tunnel and no other route
    naming the primary interface, the reader answers Secondary. *)
Lemma classify_secondary_only ci pt th k L N' :
  others_avoid "tailscale0" k ->
  classify_listing (monitor ci pt th)
    (listing (mkKernel L (<[0%N := mkNexthop None "tun0"]> ∅) (k_others k) N'))
  = openvpn.
Proof.
  intros Ho. set (k1 := mkKernel _ _ _ _).
  assert (Text.contains "tailscale0" (stdout (listing k1)) = false) as H1.
  { apply listing_avoids_primary; [exact Ho|]. intros i nh. subst k1.
    cbn [k_defaults]. rewrite insert_empty.
    intros [<- <-]%lookup_singleton_Some. reflexivity. }
  assert (Text.contains "tun0" (stdout (listing k1)) = true) as H2.
  { apply (render_table_names_dev _ _ 0%N (mkNexthop None "tun0")).
    apply lookup_insert_eq. }
  unfold listing in *. cbn [stdout] in *.
  rewrite classify_listing_eq, H1, H2.
  by rewrite (TextFacts.contains_nonempty "tun0" _ ltac:(discriminate) H2).
Qed.

(** With no default route and no other route naming the primary interface,
    the reader does not answer Primary. *)
Lemma classify_others_only ci pt th k L N' :
  others_avoid "tailscale0" k ->
  classify_listing (monitor ci pt th) (listing (mkKernel L ∅ (k_others k) N'))
  <> tailscale.
Proof.
  intros Ho. set (k1 := mkKernel _ _ _ _).
  assert (Text.contains "tailscale0" (stdout (listing k1)) = false) as H1.
  { apply listing_avoids_primary; [exact Ho|]. intros i nh. subst k1.
    cbn [k_defaults]. by rewrite lookup_empty. }
  unfold listing in *. cbn [stdout] in *.
  rewrite classify_listing_eq, H1.
  destruct (truthy _); [|discriminate].
  by destruct (Text.contains "tun0" _).
Qed.

(** A reading other than Primary shows that no listed route names the
    primary interface. *)
Lemma not_primary_others_avoid ci pt th k :
  classify_listing (monitor ci pt th) (listing k) <> tailscale ->
  others_avoid "tailscale0" k.
Proof.
  intros Hc. apply existsb_others_avoid.
  destruct (Text.contains "tailscale0" (stdout (listing k))) eqn:E.
  { exfalso. apply Hc. by apply classify_primary_mentioned. }
  unfold listing in E. cbn [stdout] in E.
  destruct primary_name_plain as [H1 H2].
  rewrite render_table_contains in E by done.
  by apply orb_false_iff in E as [_ E].
Qed.

(** Execution on a world without pending faults, every kernel condition
    being a case. *)
Ltac wp_step_cases :=
  first
    [ wp_struct
    | lazymatch goal with
      | |- wp (run_command _ _ _) _ _ => apply wp_run_quiet; [reflexivity|]
      | |- context [lowest_metric ?m] => wp_case (lowest_metric m)
      | |- context [@lookup string Link _ _ ?i ?m] =>
          lazymatch goal with
          | H : @lookup string Link _ _ i m = _ |- _ => rewrite H
          | _ => wp_case (@lookup string Link _ _ i m)
          end
      | |- context [@lookup N nexthop _ _ ?i ?m] =>
          wp_case (@lookup N nexthop _ _ i m)
      | |- context [bool_decide ?P] => wp_case (bool_decide P)
      end
    | wp_branch ];
  wp_simpl.

Lemma switch_quiet_result self b k tr :
  (SwitchTo self b (mkWorld k [] tr)).1 = Ret (installs self b k).
Proof.
  set (Q := fun (r : result bool) (w' : World) =>
              r = Ret (installs self b k)).
  change (wp (SwitchTo self b) (mkWorld k [] tr) Q).
  pose proof (delete_lowest_zero_free (k_defaults k)) as H0.
  unfold delete_lowest in H0.
  destruct b; unfold SwitchTo, switch_to_tailscale, switch_to_openvpn.
  all: repeat wp_step_cases.
  all: repeat match goal with
         | H : lowest_metric _ = _ |- _ => rewrite H in H0; clear H
         end.
  all: try congruence.
  all: unfold Q, installs, route_for; cbn [interface_of].
  all: repeat match goal with
         | H : _ !! _ = _ |- _ => rewrite H; clear H
         end; cbn -[search_gateway].
  all: repeat match goal with
         | H : search_gateway _ = _ |- _ => rewrite H; clear H
         | H : bool_decide _ = _ |- _ => rewrite H; clear H
         end; try reflexivity.
Qed.

Lemma switch_quiet self b k tr :
  exists tr',
    SwitchTo self b (mkWorld k [] tr)
    = (Ret (installs self b k), mkWorld (settle self b k) [] tr').
Proof.
  pose proof (switch_quiet_result self b k tr) as Hr.
  destruct (switch_settles self b k tr) as [Hk Hf].
  destruct (SwitchTo self b (mkWorld k [] tr)) as [r [k' f' tr']].
  cbn in *. subst. eauto.
Qed.

(** X5: after a switch that ran without fault and returned true, the reader
    names the backend switched to: always for the primary backend, and for
    the secondary one when the policy table held at most one default route
    before the switch and none of its other routes is listed with the name
    of the primary interface. *)
Theorem reader_agrees_after_switch ci pt th b k :
  let self := monitor ci pt th in
  let r := SwitchTo self b (quiet k) in
  r.1 = Ret true ->
  b = Primary \/
  ((size (k_defaults k) <= 1)%nat /\ others_avoid "tailscale0" k) ->
  (CurrentBackend self r.2).1 = Ret (vpn_of b).
Proof.
  intros self r. subst r. unfold quiet.
  destruct (switch_quiet self b k []) as (tr' & ->). cbn [fst snd].
  intros [= Hi] Hb. unfold CurrentBackend. rewrite reader_quiet. cbn [fst].
  f_equal. rewrite settle_eq. unfold installs in Hi.
  destruct (route_for self b (k_links k)) as [nh|] eqn:E; [|discriminate].
  destruct b; cbn [vpn_of].
  - unfold listing. cbn [k_defaults k_others].
    apply classify_primary_mentioned.
    assert (nh_dev nh = "tailscale0") as <-.
    { unfold route_for in E. cbn in E.
      destruct (k_links k !! "tailscale0"); [|discriminate]. cbn in E.
      destruct (match search_gateway _ with Some _ => _ | None => _ end);
        [by injection E as <-|discriminate]. }
    apply (render_table_names_dev _ _ 0%N). apply lookup_insert_eq.
  - destruct Hb as [|[Hs Ho]]; [discriminate|].
    rewrite delete_lowest_small by done.
    unfold route_for in E. cbn in E.
    destruct (k_links k !! "tun0"); [|discriminate]. injection E as <-.
    subst self. by apply classify_secondary_only.
Qed.

Lemma reader_agrees_after_switch_witness :
  let self := monitor 30 5 "1.1.1.1" in
  let r := SwitchTo self Secondary (quiet secondary_up_subnet) in
  (CurrentBackend self r.2).1 = Ret (vpn_of Secondary).
Proof.
  apply (reader_agrees_after_switch 30 5 "1.1.1.1" Secondary
           secondary_up_subnet).
  - vm_compute. reflexivity.
  - right. split; [vm_compute; lia|].
    unfold others_avoid. vm_compute. repeat constructor.
Defined.

(** ** The masquerade rules after a switch *)

Lemma occurrences_app r (l1 l2 : list masq) :
  occurrences r (l1 ++ l2) = (occurrences r l1 + occurrences r l2)%nat.
Proof. unfold occurrences. by rewrite filter_app, length_app. Qed.

Lemma occurrences_cons r x (l : list masq) :
  occurrences r (x :: l) =
  ((if bool_decide (x = r) then 1 else 0) + occurrences r l)%nat.
Proof.
  unfold occurrences. rewrite filter_cons.
  case_decide; [rewrite bool_decide_eq_true_2|rewrite bool_decide_eq_false_2];
    done.
Qed.

Lemma occurrences_elem_of r (l : list masq) :
  r ∈ l <-> (0 < occurrences r l)%nat.
Proof.
  induction l as [|x l IH].
  - split; [by intros ?%elem_of_nil|cbn; lia].
  - rewrite occurrences_cons, elem_of_cons, IH. case_bool_decide as Hx; cbn.
    + split; [lia|by left].
    + split; [intros [Heq|?]; [by subst|lia]|intros ?; right; lia].
Qed.

Lemma occurrences_removed o (l : list masq) :
  occurrences o (remove_first o l) = Nat.pred (occurrences o l).
Proof.
  induction l as [|x l IH]; [done|]. cbn [remove_first].
  rewrite occurrences_cons. case_bool_decide; [done|].
  by rewrite occurrences_cons, bool_decide_eq_false_2.
Qed.

Lemma occurrences_kept r o (l : list masq) :
  r <> o -> occurrences r (remove_first o l) = occurrences r l.
Proof.
  intros Hne. induction l as [|x l IH]; [done|]. cbn [remove_first].
  rewrite occurrences_cons. case_bool_decide as Hx.
  - subst x. by rewrite bool_decide_eq_false_2 by done.
  - by rewrite occurrences_cons, IH.
Qed.

Lemma ensure_only_counts t o (l : list masq) :
  t <> o ->
  occurrences t (ensure_only t o l) = Nat.max 1 (occurrences t l) /\
  occurrences o (ensure_only t o l) = Nat.pred (occurrences o l) /\
  forall r, r <> t -> r <> o ->
            occurrences r (ensure_only t o l) = occurrences r l.
Proof.
  intros Hne. unfold ensure_only.
  set (l' := if bool_decide (o ∈ l) then remove_first o l else l).
  assert (occurrences o l' = Nat.pred (occurrences o l)) as Ho.
  { subst l'. case_bool_decide as Hin; [apply occurrences_removed|].
    apply (not_iff_compat (occurrences_elem_of o l)) in Hin. lia. }
  assert (forall r, r <> o -> occurrences r l' = occurrences r l) as Hr.
  { intros r Hro. subst l'. case_bool_decide; [by apply occurrences_kept|done]. }
  clearbody l'. case_bool_decide as Ht.
  - apply occurrences_elem_of in Ht. rewrite Ho. rewrite (Hr t Hne) in *.
    split; [lia|]. split; [done|]. intros r _ ?. by apply Hr.
  - apply (not_iff_compat (occurrences_elem_of t l')) in Ht.
    rewrite !occurrences_app, Ho. rewrite (Hr t Hne) in *.
    rewrite !occurrences_cons, bool_decide_eq_true_2 by done.
    rewrite (bool_decide_eq_false_2 (t = o)) by done. cbn.
    split; [lia|]. split; [lia|]. intros r Hrt Hro.
    rewrite occurrences_app, occurrences_cons, bool_decide_eq_false_2 by done.
    rewrite Hr by done. cbn. lia.
Qed.

(** X6: a switch that runs without fault and returns true reconciles the
    chain rule by rule: the target's rule is appended only when the chain
    does not hold it (its count becomes one, or stays what it was), exactly
    one copy of the other backend's rule is removed if there is one, and no
    other rule is added or removed. *)
Theorem switch_reconciles_nat ci pt th b k :
  let self := monitor ci pt th in
  let r := SwitchTo self b (quiet k) in
  r.1 = Ret true ->
  let chain := k_nat (w_kernel r.2) in
  occurrences (rule_of self b) chain
  = Nat.max 1 (occurrences (rule_of self b) (k_nat k)) /\
  occurrences (rule_of self (other b)) chain
  = Nat.pred (occurrences (rule_of self (other b)) (k_nat k)) /\
  forall r', r' <> rule_of self b -> r' <> rule_of self (other b) ->
             occurrences r' chain = occurrences r' (k_nat k).
Proof.
  intros self r. subst r. unfold quiet.
  destruct (switch_quiet self b k []) as (tr' & ->). cbn [fst snd w_kernel].
  intros [= Hi]. rewrite settle_eq. unfold installs in Hi.
  destruct (route_for self b (k_links k)); [|discriminate]. cbn [k_nat].
  apply ensure_only_counts, target_not_other.
Qed.

Lemma switch_reconciles_nat_witness :
  let self := monitor 30 5 "1.1.1.1" in
  let r := SwitchTo self Primary (quiet doubled_rule) in
  let chain := k_nat (w_kernel r.2) in
  occurrences (rule_of self Primary) chain
  = Nat.max 1 (occurrences (rule_of self Primary) (k_nat doubled_rule)) /\
  occurrences (rule_of self (other Primary)) chain
  = Nat.pred (occurrences (rule_of self (other Primary)) (k_nat doubled_rule)) /\
  forall r', r' <> rule_of self Primary -> r' <> rule_of self (other Primary) ->
             occurrences r' chain = occurrences r' (k_nat doubled_rule).
Proof.
  apply (switch_reconciles_nat 30 5 "1.1.1.1" Primary doubled_rule).
  vm_compute. reflexivity.
Defined.

(** ** A cycle without faults, and the steady state *)

Lemma cycle_quiet self k tr :
  exists tr',
    monitor_cycle self (mkWorld k [] tr)
    = (Ret tt, mkWorld (cycle_settle self k) [] tr').
Proof.
  unfold cycle_settle, monitor_cycle, bind at 1. rewrite reader_quiet.
  destruct (probe_quiet self (tailscale_interface self) k
              (tr ++ [EvRun IpRouteShowTable (Some 0) k])) as (tr1 & E1).
  unfold bind at 1. rewrite E1.
  destruct (probe_quiet self (openvpn_interface self) k tr1) as (tr2 & E2).
  unfold bind at 1. rewrite E2.
  pose proof (failover_by_decision self (classify_listing self (listing k))
                (reachable self k (tailscale_interface self))
                (reachable self k (openvpn_interface self))) as Hd.
  destruct (decision _ _ _) as [b|].
  - destruct Hd as (lvl & msg & ->).
    unfold bind, _log_with_timestamp, emit. cbn [w_kernel w_faults w_trace].
    destruct (switch_quiet self b k (tr2 ++ [EvLog lvl msg])) as (tr' & ->).
    cbn. eauto.
  - destruct Hd as [->|(lvl & msg & ->)]; cbn; eauto.
Qed.

Lemma reachable_links self k k' i :
  k_links k' = k_links k -> reachable self k' i = reachable self k i.
Proof. unfold reachable. by intros ->. Qed.

Lemma settle_links self b k : k_links (settle self b k) = k_links k.
Proof. rewrite settle_eq. by destruct (route_for self b (k_links k)). Qed.

Lemma reachable_exists self k i :
  reachable self k i = true -> is_Some (k_links k !! i).
Proof. unfold reachable. destruct (k_links k !! i); [eauto|discriminate]. Qed.

Lemma cycle_settle_fixed ci pt th k :
  let self := monitor ci pt th in
  (size (k_defaults k) <= 1)%nat ->
  others_avoid "tailscale0" k ->
  cycle_settle self (cycle_settle self k) = cycle_settle self k.
Proof.
  intros self Hs Ho. unfold cycle_settle at 1.
  set (k1 := cycle_settle self k).
  assert (k_links k1 = k_links k) as HL.
  { subst k1. unfold cycle_settle.
    destruct (decision _ _ _); [apply settle_links|done]. }
  rewrite !(reachable_links self k k1) by done.
  subst k1. unfold cycle_settle.
  set (up1 := reachable self k (tailscale_interface self)).
  set (up2 := reachable self k (openvpn_interface self)).
  assert (up1 = true -> is_Some (k_links k !! "tailscale0")) as H1
    by apply reachable_exists.
  assert (up2 = true -> is_Some (k_links k !! "tun0")) as H2
    by apply reachable_exists.
  clearbody up1 up2.
  destruct (decision (classify_listing self (listing k)) up1 up2) as [b|] eqn:Ed;
    [|by rewrite Ed].
  assert (match b with
          | Primary => up1 = true
          | Secondary => up1 = false /\ up2 = true
          end) as Hup.
  { destruct (classify_listing self (listing k)), up1, up2, b;
      cbn in Ed; try discriminate; done. }
  rewrite settle_eq, delete_lowest_small by done.
  destruct (route_for self b (k_links k)) as [nh|] eqn:E.
  - assert (classify_listing self
              (listing (mkKernel (k_links k) (<[0%N := nh]> ∅) (k_others k)
                          (ensure_only (rule_of self b)
                             (rule_of self (other b)) (k_nat k))))
            = vpn_of b) as ->.
    { subst self. destruct b; cbn [vpn_of].
      - unfold listing. cbn [k_defaults k_others].
        apply classify_primary_mentioned.
        assert (nh_dev nh = "tailscale0") as <-.
        { unfold route_for in E. cbn in E.
          destruct (k_links k !! "tailscale0"); [|discriminate]. cbn in E.
          destruct (match search_gateway _ with Some _ => _ | None => _ end);
            [by injection E as <-|discriminate]. }
        apply (render_table_names_dev _ _ 0%N). apply lookup_insert_eq.
      - unfold route_for in E. cbn in E.
        destruct (k_links k !! "tun0"); [|discriminate]. injection E as <-.
        by apply classify_secondary_only. }
    destruct b; cbn [vpn_of]; [by rewrite Hup|].
    destruct Hup as [-> ->]. done.
  - destruct b.
    + pose proof (classify_others_only ci pt th k (k_links k) (k_nat k) Ho)
        as Hn.
      assert (decision
                (classify_listing self
                   (listing (mkKernel (k_links k) ∅ (k_others k) (k_nat k))))
                up1 up2 = Some Primary) as ->.
      { rewrite Hup. subst self.
        by destruct (classify_listing _ (listing (mkKernel _ _ _ _))). }
      rewrite settle_eq. cbn [k_links k_defaults k_others k_nat].
      rewrite E. rewrite delete_lowest_small; [done|].
      rewrite map_size_empty. lia.
    + destruct Hup as [_ Hup]. destruct (H2 Hup) as [l Hl].
      unfold route_for in E. cbn in E. by rewrite Hl in E.
Qed.

(** X7: no flapping in a steady environment.  From a policy table that
    holds at most one default route and no other route listed with the name
    of the primary interface, a cycle that runs without fault brings the
    routing state to a fixed point: a second cycle over the same links,
    again without fault, leaves the kernel state exactly as the first one
    left it. *)
Theorem cycle_twice_is_cycle_once ci pt th k :
  let self := monitor ci pt th in
  (size (k_defaults k) <= 1)%nat ->
  others_avoid "tailscale0" k ->
  let once := (monitor_cycle self (quiet k)).2 in
  w_kernel (monitor_cycle self once).2 = w_kernel once.
Proof.
  intros self Hs Ho once. subst once. unfold quiet.
  destruct (cycle_quiet self k []) as (tr1 & ->). cbn [snd].
  destruct (cycle_quiet self (cycle_settle self k) tr1) as (tr2 & ->).
  cbn [snd w_kernel]. by apply cycle_settle_fixed.
Qed.

Lemma cycle_twice_is_cycle_once_witness :
  let self := monitor 30 5 "1.1.1.1" in
  let once := (monitor_cycle self (quiet secondary_up_subnet)).2 in
  w_kernel (monitor_cycle self once).2 = w_kernel once.
Proof.
  apply (cycle_twice_is_cycle_once 30 5 "1.1.1.1" secondary_up_subnet).
  - vm_compute. lia.
  - unfold others_avoid. vm_compute. repeat constructor.
Defined.

(** ** The loop in a steady environment *)

Lemma monitor_cycle_running self b :
  monitor_cycle (set_running self b) = monitor_cycle self.
Proof. reflexivity. Qed.

Lemma loop_steady iterations : forall n self w,
  running self = true ->
  0 <= check_interval self <= sleep_max ->
  w_faults w = [] ->
  cycle_settle self (w_kernel w) = w_kernel w ->
  exists w',
    loop_from nobody no_signal iterations n self w = (StillRunning, self, w') /\
    w_kernel w' = w_kernel w.
Proof.
  induction iterations as [|it IH]; intros n self [k f tr] Hrun Hci Hf Hfix;
    cbn [w_kernel w_faults] in *; subst f.
  - eexists. split; reflexivity.
  - cbn [loop_from]. rewrite Hrun. cbn [negb].
    destruct (cycle_quiet self k tr) as (tr1 & E).
    unfold bind at 1. rewrite E. rewrite Hfix.
    rewrite sleep_accepts by done.
    cbn [emit during_sleep no_signal nobody w_kernel w_faults w_trace].
    destruct (IH (S n) self
                (mkWorld k [] (tr1 ++ [EvSleep (check_interval self)])))
      as (w' & El & Hk); try done.
    exists w'. by split.
Qed.



(** ** Failover and failback in one cycle *)

Lemma cycle_quiet_kernel self k cur up1 up2 :
  classify_listing self (listing k) = cur ->
  reachable self k (tailscale_interface self) = up1 ->
  reachable self k (openvpn_interface self) = up2 ->
  w_kernel (monitor_cycle self (quiet k)).2 =
  match decision cur up1 up2 with
  | Some b => settle self b k
  | None => k
  end.
Proof.
  intros <- <- <-. unfold quiet.
  by destruct (cycle_quiet self k []) as (tr' & ->).
Qed.

(** X15: failover.  The primary backend does not answer, the secondary
    does, the policy table holds at most one default route and no other
    route listed with the name of the primary interface, and no fault
    occurs: after one cycle the reader names the secondary backend.  If it
    did not before, the cycle has left the table with the single default
    route through the secondary interface, the secondary's masquerade rule
    present (appended only if it was missing), and one copy less of the
    primary's rule. *)
Theorem cycle_fails_over ci pt th k :
  let self := monitor ci pt th in
  (size (k_defaults k) <= 1)%nat ->
  others_avoid "tailscale0" k ->
  reachable self k (tailscale_interface self) = false ->
  reachable self k (openvpn_interface self) = true ->
  let k' := w_kernel (monitor_cycle self (quiet k)).2 in
  classify_listing self (listing k') = openvpn /\
  (classify_listing self (listing k) <> openvpn ->
   k_defaults k' = {[0%N := mkNexthop None (openvpn_interface self)]} /\
   occurrences (rule_of self Secondary) (k_nat k')
   = Nat.max 1 (occurrences (rule_of self Secondary) (k_nat k)) /\
   occurrences (rule_of self Primary) (k_nat k')
   = Nat.pred (occurrences (rule_of self Primary) (k_nat k))).
Proof.
  intros self Hs Ho H1 H2 k'. subst k'.
  rewrite (cycle_quiet_kernel self k _ false true eq_refl H1 H2).
  destruct (classify_listing self (listing k)) eqn:Ec; cbn [decision negb andb];
    [|done| ].
  all: rewrite settle_eq, delete_lowest_small by done.
  all: destruct (reachable_exists self k _ H2) as [l Hl].
  all: unfold route_for; cbn [interface_of]; rewrite Hl; cbn [mbind option_bind].
  all: split; [subst self; by apply classify_secondary_only|intros _].
  all: rewrite insert_empty.
  all: split; [done|]. all: cbn [k_nat].
  all: destruct (ensure_only_counts (rule_of self Secondary)
                   (rule_of self Primary) (k_nat k)) as (? & ? & _);
    [by apply (target_not_other ci pt th Secondary)|done].
Qed.

Lemma cycle_fails_over_witness :
  let self := monitor 30 5 "1.1.1.1" in
  let k := secondary_up_subnet in
  let k' := w_kernel (monitor_cycle self (quiet k)).2 in
  classify_listing self (listing k') = openvpn /\
  (classify_listing self (listing k) <> openvpn ->
   k_defaults k' = {[0%N := mkNexthop None (openvpn_interface self)]} /\
   occurrences (rule_of self Secondary) (k_nat k')
   = Nat.max 1 (occurrences (rule_of self Secondary) (k_nat k)) /\
   occurrences (rule_of self Primary) (k_nat k')
   = Nat.pred (occurrences (rule_of self Primary) (k_nat k))).
Proof.
  apply (cycle_fails_over 30 5 "1.1.1.1" secondary_up_subnet).
  - vm_compute. lia.
  - unfold others_avoid. vm_compute. repeat constructor.
  - vm_compute. reflexivity.
  - vm_compute. reflexivity.
Defined.

(** X16: a failback that cannot complete.  The primary link answers the
    probe, but its default route cannot be installed (the gateway found in
    its route listing is not accepted as a next hop), and traffic is not on
    the primary backend.  The cycle deletes the default route of the policy
    table, fails to install the new one and leaves the table empty, the
    masquerade rules untouched; the next cycle ends in the same state.  The
    monitor does not fall back to the secondary backend, whether or not it
    answers. *)
Theorem failed_failback_leaves_no_route ci pt th k :
  let self := monitor ci pt th in
  (size (k_defaults k) <= 1)%nat ->
  reachable self k (tailscale_interface self) = true ->
  installs self Primary k = false ->
  classify_listing self (listing k) <> tailscale ->
  let k' := w_kernel (monitor_cycle self (quiet k)).2 in
  k_defaults k' = ∅ /\
  k_nat k' = k_nat k /\
  k_links k' = k_links k /\
  w_kernel (monitor_cycle self (quiet k')).2 = k'.
Proof.
  intros self Hs H1 Hi Hc k'. subst k'.
  assert (decision (classify_listing self (listing k)) true
            (reachable self k (openvpn_interface self)) = Some Primary) as Hd.
  { by destruct (classify_listing self (listing k)). }
  rewrite (cycle_quiet_kernel self k _ _ _ eq_refl H1 eq_refl), Hd.
  rewrite settle_eq, delete_lowest_small by done.
  unfold installs in Hi.
  destruct (route_for self Primary (k_links k)) eqn:E; [discriminate|].
  split; [done|]. split; [done|]. split; [done|].
  set (k1 := mkKernel (k_links k) ∅ (k_others k) (k_nat k)).
  assert (classify_listing self (listing k1) <> tailscale) as Hn.
  { subst self k1. by apply classify_others_only, not_primary_others_avoid
      with ci pt th. }
  assert (decision (classify_listing self (listing k1)) true
            (reachable self k1 (openvpn_interface self)) = Some Primary)
    as Hd1.
  { by destruct (classify_listing self (listing k1)). }
  rewrite (cycle_quiet_kernel self k1 _ true
             (reachable self k1 (openvpn_interface self)) eq_refl);
    [|by rewrite (reachable_links self k k1)|done].
  rewrite Hd1. rewrite settle_eq. cbn [k_links k_defaults k_others k_nat k1].
  rewrite E, delete_lowest_small; [done|]. rewrite map_size_empty. lia.
Qed.

Lemma failed_failback_leaves_no_route_witness :
  let self := monitor 30 5 "1.1.1.1" in
  let k := primary_unroutable in
  let k' := w_kernel (monitor_cycle self (quiet k)).2 in
  k_defaults k' = ∅ /\
  k_nat k' = k_nat k /\
  k_links k' = k_links k /\
  w_kernel (monitor_cycle self (quiet k')).2 = k'.
Proof.
  apply (failed_failback_leaves_no_route 30 5 "1.1.1.1" primary_unroutable).
  - vm_compute. lia.
  - vm_compute. reflexivity.
  - vm_compute. reflexivity.
  - vm_compute. discriminate.
Defined.

(** X17: failback.  The primary backend answers, its default route can be
    installed, the policy table holds at most one default route and no
    fault occurs: after one cycle the reader names the primary backend,
    whatever the secondary does.  If it did not before, the default route in
    effect leaves through the primary interface, the primary's masquerade
    rule is present (appended only if it was missing), and one copy less of
    the secondary's rule is left. *)
Theorem cycle_fails_back ci pt th k :
  let self := monitor ci pt th in
  (size (k_defaults k) <= 1)%nat ->
  reachable self k (tailscale_interface self) = true ->
  installs self Primary k = true ->
  let k' := w_kernel (monitor_cycle self (quiet k)).2 in
  classify_listing self (listing k') = tailscale /\
  (classify_listing self (listing k) <> tailscale ->
   (exists gw,
       k_defaults k' = {[0%N := mkNexthop gw (tailscale_interface self)]}) /\
   occurrences (rule_of self Primary) (k_nat k')
   = Nat.max 1 (occurrences (rule_of self Primary) (k_nat k)) /\
   occurrences (rule_of self Secondary) (k_nat k')
   = Nat.pred (occurrences (rule_of self Secondary) (k_nat k))).
Proof.
  intros self Hs H1 Hi k'. subst k'.
  rewrite (cycle_quiet_kernel self k _ _ _ eq_refl H1 eq_refl).
  destruct (classify_listing self (listing k)) eqn:Ec; cbn [decision negb andb];
    [done| |].
  all: rewrite settle_eq, delete_lowest_small by done.
  all: unfold installs in Hi.
  all: destruct (route_for self Primary (k_links k)) as [nh|] eqn:E;
    [|discriminate].
  all: assert (exists gw, nh = mkNexthop gw "tailscale0") as [gw ->].
  1, 3: unfold route_for in E; cbn in E;
    destruct (k_links k !! "tailscale0"); [|discriminate]; cbn in E;
    destruct (match search_gateway _ with Some _ => _ | None => _ end);
    [injection E as <-; eauto|discriminate].
  all: rewrite insert_empty.
  all: split;
    [subst self; apply classify_primary_mentioned;
     apply (render_table_names_dev _ _ 0%N (mkNexthop gw "tailscale0"));
     apply lookup_singleton_eq|intros _].
  all: split; [by exists gw|]. all: cbn [k_nat].
  all: destruct (ensure_only_counts (rule_of self Primary)
                   (rule_of self Secondary) (k_nat k)) as (? & ? & _);
    [by apply (target_not_other ci pt th Primary)|done].
Qed.

Lemma cycle_fails_back_witness :
  let self := monitor 30 5 "1.1.1.1" in
  let k := on_secondary in
  let k' := w_kernel (monitor_cycle self (quiet k)).2 in
  classify_listing self (listing k') = tailscale /\
  (classify_listing self (listing k) <> tailscale ->
   (exists gw,
       k_defaults k' = {[0%N := mkNexthop gw (tailscale_interface self)]}) /\
   occurrences (rule_of self Primary) (k_nat k')
   = Nat.max 1 (occurrences (rule_of self Primary) (k_nat k)) /\
   occurrences (rule_of self Secondary) (k_nat k')
   = Nat.pred (occurrences (rule_of self Secondary) (k_nat k))).
Proof.
  apply (cycle_fails_back 30 5 "1.1.1.1" on_secondary).
  - vm_compute. lia.
  - vm_compute. reflexivity.
  - vm_compute. reflexivity.
Defined.

(** ** Stopping the loop *)

Section LoopStop.

Variable outside : nat -> Kernel -> Kernel.
Variable signal_at : nat -> bool.

Lemma finish_stopped self w :
exists w',
  finish Stopped self w = (Stopped, self, w') /\
  last (w_trace w') = Some (EvLog info "VPN failover monitor stopped").
Proof.
eexists. split; [reflexivity|]. cbn. apply last_snoc.
Qed.

Lemma loop_from_stops j : forall n self w,
0 <= check_interval self <= sleep_max ->
signal_at (n + j) = true ->
exists self' w',
  running self' = false /\
  last (w_trace w') = Some (EvLog info "VPN failover monitor stopped") /\
  forall extra,
    loop_from outside signal_at (j + 2 + extra) n self w
    = (Stopped, self', w').
Proof.
induction j as [|j IH]; intros n self w Hci Hsig.
- rewrite Nat.add_0_r in Hsig.
  destruct (running self) eqn:Hrun.
  + assert (returns (monitor_cycle self;;; sleep (check_interval self)))
      as Hret.
    { apply returns_bind; [apply monitor_cycle_returns|intros _].
      by apply sleep_returns. }
    destruct (Hret w) as ([] & w1 & E).
    destruct (finish_stopped (_signal_handler self)
                (mkWorld (outside n (w_kernel w1)) (w_faults w1) (w_trace w1)))
      as (w' & Ef & Hl).
    exists (_signal_handler self), w'. split; [done|]. split; [done|].
    intros extra. cbn [Nat.add loop_from]. rewrite Hrun. cbn [negb].
    rewrite E. unfold during_sleep. rewrite Hsig. exact Ef.
  + destruct (finish_stopped self w) as (w' & Ef & Hl).
    exists self, w'. split; [done|]. split; [done|].
    intros extra. cbn [Nat.add loop_from]. by rewrite Hrun.
- destruct (running self) eqn:Hrun.
  + assert (returns (monitor_cycle self;;; sleep (check_interval self)))
      as Hret.
    { apply returns_bind; [apply monitor_cycle_returns|intros _].
      by apply sleep_returns. }
    destruct (Hret w) as ([] & w1 & E).
    destruct (during_sleep outside signal_at n self w1) as [self1 w2] eqn:Ed.
    assert (check_interval self1 = check_interval self) as Hci1.
    { by rewrite <- (during_sleep_interval outside signal_at n self w1), Ed. }
    destruct (IH (S n) self1 w2) as (self' & w' & Hr & Hl & Hloop).
    { lia. }
    { by replace (S n + j)%nat with (n + S j)%nat by lia. }
    exists self', w'. split; [done|]. split; [done|].
    intros extra. cbn [Nat.add loop_from]. rewrite Hrun. cbn [negb].
    rewrite E, Ed. apply Hloop.
  + destruct (finish_stopped self w) as (w' & Ef & Hl).
    exists self, w'. split; [done|]. split; [done|].
    intros extra. cbn [Nat.add loop_from]. by rewrite Hrun.
Qed.

End LoopStop.



(** ** The gateway extracted from the route listing *)

Module GatewayFacts.
Import Text StringFacts.

Lemma span_split s :
exists post,
  s = (span_digits_dots s ++ post)%string /\
  Forall (fun c => is_digit c || is_dot c = true)
    (chars (span_digits_dots s)) /\
  (post = "" \/
   exists c post', post = String c post' /\ is_digit c || is_dot c = false).
Proof.
induction s as [|a s (post & Hs & Hr & Hp)]; cbn.
- exists "". repeat split; [constructor|by left].
- destruct (is_digit a || is_dot a) eqn:E.
  + exists post. rewrite app_cons. split; [by rewrite <- Hs|].
    split; [by constructor|done].
  + exists (String a s). cbn. split; [done|]. split; [constructor|].
    right. eauto.
Qed.

Lemma match_here_shape s g :
match_gateway_here s = Some g ->
exists r post,
  s = (g ++ post)%string /\ g = ("100." ++ r)%string /\ r <> "" /\
  Forall (fun c => is_digit c || is_dot c = true) (chars r) /\
  (post = "" \/
   exists c post', post = String c post' /\ is_digit c || is_dot c = false).
Proof.
unfold match_gateway_here.
destruct (prefix "100." s) eqn:Ep; [|discriminate].
destruct s as [|c1 [|c2 [|c3 [|c4 s]]]]; cbn [prefix] in Ep;
  rewrite ?andb_false_r in Ep; try discriminate.
rewrite andb_true_r in Ep.
apply andb_true_iff in Ep as [<-%Ascii.eqb_eq Ep].
apply andb_true_iff in Ep as [<-%Ascii.eqb_eq Ep].
apply andb_true_iff in Ep as [<-%Ascii.eqb_eq <-%Ascii.eqb_eq].
cbn [drop].
destruct (span_split s) as (post & Hs & Hr & Hp).
destruct (span_digits_dots s) as [|a r] eqn:E; [discriminate|].
intros [= <-]. exists (String a r), post.
split; [by rewrite Hs|]. repeat split; done.
Qed.

Lemma search_from_shape s : forall b g,
search_gateway_from b s = Some g ->
exists pre r post,
  s = (pre ++ g ++ post)%string /\ g = ("100." ++ r)%string /\ r <> "" /\
  Forall (fun c => is_digit c || is_dot c = true) (chars r) /\
  (pre = "" /\ b = true \/ exists pre', pre = (pre' ++ newline)%string) /\
  (post = "" \/
   exists c post', post = String c post' /\ is_digit c || is_dot c = false).
Proof.
induction s as [|c s IH]; intros b g; [discriminate|]. cbn [search_gateway_from].
destruct (if b then match_gateway_here (String c s) else None) as [g'|] eqn:E.
- intros [= ->]. destruct b; [|discriminate].
  apply match_here_shape in E as (r & post & Hs & Hg & Hr & Hc & Hp).
  exists "", r, post. rewrite app_empty. repeat split; try done. by left.
- intros (pre & r & post & Hs & Hg & Hr & Hc & Hpre & Hp)%IH.
  exists (String c pre), r, post. rewrite app_cons, <- Hs.
  repeat split; try done. right.
  destruct Hpre as [[-> Hn]|[pre' ->]].
  + exists "". rewrite app_empty. unfold newline. f_equal.
    unfold is_newline in Hn. apply Nat.eqb_eq in Hn.
    by rewrite <- Hn, ascii_nat_embedding.
  + by exists (String c pre').
Qed.

End GatewayFacts.

(** X9: the gateway the switch to the primary backend takes from the route
    listing of the tunnel interface is the text ["100."] followed by the
    longest run of digits and dots after it, at least one, found at the
    start of the listing or right after a line break.  Nothing else is
    asked of it: the run need not be a well-formed address. *)
Theorem gateway_match_shape text g :
  search_gateway text = Some g ->
  exists pre r post,
    text = (pre ++ g ++ post)%string /\ g = ("100." ++ r)%string /\ r <> "" /\
    Forall (fun c => Text.is_digit c || Text.is_dot c = true) (chars r) /\
    (pre = "" \/ exists pre', pre = (pre' ++ Text.newline)%string) /\
    (post = "" \/
     exists c post',
       post = String c post' /\ Text.is_digit c || Text.is_dot c = false).
Proof.
  intros (pre & r & post & Hs & Hg & Hr & Hc & Hpre & Hp)
    %GatewayFacts.search_from_shape.
  exists pre, r, post. repeat split; try done.
  destruct Hpre as [[-> _]|?]; [by left|by right].
Qed.

Lemma gateway_match_shape_witness :
  exists pre r post,
    ("fd7a::/48 dev tailscale0" ++ Text.newline
     ++ "100.64.0.1/10 dev tailscale0 scope link")%string
    = (pre ++ "100.64.0.1" ++ post)%string /\
    "100.64.0.1" = ("100." ++ r)%string /\ r <> "" /\
    Forall (fun c => Text.is_digit c || Text.is_dot c = true) (chars r) /\
    (pre = "" \/ exists pre', pre = (pre' ++ Text.newline)%string) /\
    (post = "" \/
     exists c post',
       post = String c post' /\ Text.is_digit c || Text.is_dot c = false).
Proof.
  apply (gateway_match_shape
           ("fd7a::/48 dev tailscale0" ++ Text.newline
     ++ "100.64.0.1/10 dev tailscale0 scope link")%string "100.64.0.1").
  vm_compute. reflexivity.
Defined.

(** ** The address of an interface *)

Module InetFacts.
Import Text StringFacts.

Lemma prefix_drop p s :
prefix p s = true -> s = (p ++ drop (String.length p) s)%string.
Proof.
revert s. induction p as [|a p IH]; intros s; [done|].
destruct s as [|b s]; cbn [prefix]; [discriminate|].
intros [->%Ascii.eqb_eq H]%andb_true_iff.
cbn [String.length drop]. rewrite app_cons. f_equal. by apply IH.
Qed.

Lemma span_digits_split s :
s = ((span_digits s).1 ++ (span_digits s).2)%string /\
Forall (fun c => is_digit c = true) (chars (span_digits s).1).
Proof.
induction s as [|c s [IH1 IH2]]; cbn [span_digits].
- split; [done|constructor].
- destruct (is_digit c) eqn:E; cbn [fst snd].
  + rewrite app_cons, <- IH1. split; [done|by constructor].
  + split; [done|constructor].
Qed.

Lemma digits_then_shape c s d r :
digits_then c s = Some (d, r) -> s = (d ++ String c r)%string /\ digits d.
Proof.
unfold digits_then. destruct (span_digits_split s) as [Hs Hd].
destruct (span_digits s) as [[|x d'] [|c' r']]; cbn [fst snd] in *;
  try discriminate.
destruct (Ascii.eqb c' c) eqn:E; [|discriminate].
apply Ascii.eqb_eq in E as ->. intros [= <- <-]. by split_and!.
Qed.

Lemma match_inet_shape s ip :
match_inet_here s = Some ip ->
exists a b c d rest,
  ip = (a ++ "." ++ b ++ "." ++ c ++ "." ++ d)%string /\
  digits a /\ digits b /\ digits c /\ digits d /\
  s = (("inet " ++ ip ++ "/") ++ rest)%string.
Proof.
unfold match_inet_here.
destruct (prefix "inet " s) eqn:Ep; [|discriminate].
apply prefix_drop in Ep. cbn [String.length] in Ep.
destruct (digits_then "." (drop 5 s)) as [[a r1]|] eqn:E1; [|discriminate].
destruct (digits_then "." r1) as [[b r2]|] eqn:E2; [|discriminate].
destruct (digits_then "." r2) as [[c r3]|] eqn:E3; [|discriminate].
destruct (digits_then "/" r3) as [[d r4]|] eqn:E4; [|discriminate].
apply digits_then_shape in E1 as [H1 Da], E2 as [H2 Db], E3 as [H3 Dc],
  E4 as [H4 Dd].
destruct (span_digits r4) as [[|x y] z]; [discriminate|]. intros [= <-].
exists a, b, c, d, r4. split_and!; try done.
rewrite Ep at 1. rewrite H1, H2, H3, H4.
by rewrite !app_assoc.
Qed.

Lemma search_inet_shape s ip :
search_inet s = Some ip ->
(exists a b c d,
    ip = (a ++ "." ++ b ++ "." ++ c ++ "." ++ d)%string /\
    digits a /\ digits b /\ digits c /\ digits d) /\
contains ("inet " ++ ip ++ "/") s = true.
Proof.
induction s as [|x s IH]; cbn [search_inet].
- destruct (match_inet_here "") eqn:E; [|discriminate].
  discriminate E.
- destruct (match_inet_here (String x s)) as [ip'|] eqn:E.
  + intros [= ->].
    apply match_inet_shape in E as (a & b & c & d & rest & Hip & ? & ? & ? & ? & Hs).
    split; [by exists a, b, c, d|]. rewrite Hs.
    apply TextFacts.contains_here.
  + intros [Hshape Hc]%IH. split; [done|].
    cbn [contains]. rewrite Hc. apply orb_true_r.
Qed.

End InetFacts.

(** X14: [get_interface_ip] never raises and only reads: it runs the one
    command that lists the addresses of the interface and leaves the kernel
    state alone.  It answers nothing when the command fails or cannot be
    run or the interface does not exist.  An address it answers is four
    non-empty runs of decimal digits joined by dots, found in the listing of
    an existing interface between the word [inet] and a slash; the runs are
    not checked to be octets. *)
Theorem get_interface_ip_reads interface w :
  exists r st,
    get_interface_ip interface w
    = (Ret r, record w (IpAddrShow interface) st (w_kernel w)) /\
    (next_fault (w_faults w) <> NoFault \/
     k_links (w_kernel w) !! interface = None -> r = None) /\
    forall ip,
      r = Some ip ->
      (exists a b c d,
          ip = (a ++ "." ++ b ++ "." ++ c ++ "." ++ d)%string /\
          digits a /\ digits b /\ digits c /\ digits d) /\
      exists l,
        k_links (w_kernel w) !! interface = Some l /\
        Text.contains ("inet " ++ ip ++ "/") (render_addr interface l) = true.
Proof.
  unfold get_interface_ip, try_except, bind, run_command.
  destruct (next_fault (w_faults w)) eqn:Ef.
  - cbn [exec]. destruct (k_links (w_kernel w) !! interface) as [l|] eqn:El.
    + cbn -[render_addr search_inet truthy].
      destruct (truthy (render_addr interface l));
        cbn -[render_addr search_inet].
      * eexists _, _. split; [reflexivity|]. split.
        { intros [?|?]; congruence. }
        intros ip Hip.
        apply InetFacts.search_inet_shape in Hip as [? ?]. eauto.
      * eexists _, _. split; [reflexivity|]. split; [done|]. intros ? [=].
    + cbn. eexists _, _. split; [reflexivity|]. split; [done|]. intros ? [=].
  - cbn. eexists _, _. split; [reflexivity|]. split; [done|]. intros ? [=].
  - cbn. eexists _, _. split; [reflexivity|]. split; [done|]. intros ? [=].
Qed.

(** ** The choice of the WAN interface *)

Lemma exists_reads i w :
  exists b st,
    check_interface_exists i w
    = (Ret b, record w (IpLinkShow i) st (w_kernel w)) /\
    (w_faults w = [] ->
     b = match k_links (w_kernel w) !! i with
         | Some _ => true
         | None => false
         end).
Proof.
  unfold check_interface_exists, try_except, bind, run_command.
  destruct (w_faults w) as [|[] ?] eqn:Ef; cbn [next_fault exec].
  - destruct (k_links (w_kernel w) !! i); cbn; eexists _, _;
      (split; [reflexivity|done]).
  - destruct (k_links (w_kernel w) !! i); cbn; eexists _, _;
      (split; [reflexivity|done]).
  - cbn. eexists _, _. split; [reflexivity|done].
  - cbn. eexists _, _. split; [reflexivity|done].
Qed.

Lemma first_existing_reads interfaces : forall w,
  exists r w',
    first_existing interfaces w = (Ret r, w') /\
    w_kernel w' = w_kernel w /\
    (w_faults w = [] -> w_faults w' = []) /\
    (r ∈ interfaces \/ r = "wlan0") /\
    (w_faults w = [] ->
     match list_find (fun i => is_Some (k_links (w_kernel w) !! i)) interfaces
     with
     | Some (_, i) => r = i
     | None => r = "wlan0"
     end).
Proof.
  induction interfaces as [|i rest IH]; intros w; cbn [first_existing].
  - eexists _, _. split; [reflexivity|]. repeat split; auto.
  - destruct (exists_reads i w) as (b & st & E & Hb).
    unfold bind. rewrite E. destruct b.
    + eexists _, _. split; [reflexivity|]. split; [reflexivity|].
      split; [by intros Hf; cbn; rewrite Hf|]. split; [left; left|].
      intros Hf. specialize (Hb Hf). cbn [list_find].
      destruct (k_links (w_kernel w) !! i) eqn:El; [|discriminate].
      rewrite decide_True by eauto. done.
    + destruct (IH (record w (IpLinkShow i) st (w_kernel w)))
        as (r & w' & Er & Hk & Hf' & Hr & Hq).
      exists r, w'. split; [exact Er|]. split; [exact Hk|].
      split; [by intros Hf; apply Hf'; cbn; rewrite Hf|].
      split; [destruct Hr; [left; by right|by right]|].
      intros Hf. specialize (Hb Hf). cbn [list_find].
      destruct (k_links (w_kernel w) !! i) eqn:El; [discriminate|].
      rewrite decide_False by (by intros [? ?]).
      assert (w_faults (record w (IpLinkShow i) st (w_kernel w)) = []) as Hf2
        by (cbn; by rewrite Hf).
      specialize (Hq Hf2). cbn [record w_kernel] in Hq.
      destruct (list_find _ rest) as [[? ?]|]; cbn; done.
Qed.

(** X19: the WAN interface the command line tool picks.  The choice never
    raises and only reads; whatever faults occur it is one of [wlan0],
    [eth0] and [enp0s3].  When no fault occurs it is the first of these, in
    that order, that exists; when none of them exists it is [wlan0] all the
    same: the fallback names an interface that is not there. *)
Theorem wan_interface_choice w :
  exists r w',
    _get_wan_interface w = (Ret r, w') /\
    w_kernel w' = w_kernel w /\
    r ∈ ["wlan0"; "eth0"; "enp0s3"] /\
    (w_faults w = [] ->
     let links := k_links (w_kernel w) in
     r = match links !! "wlan0", links !! "eth0", links !! "enp0s3" with
         | Some _, _, _ => "wlan0"
         | None, Some _, _ => "eth0"
         | None, None, Some _ => "enp0s3"
         | None, None, None => "wlan0"
         end).
Proof.
  unfold _get_wan_interface.
  destruct (first_existing_reads ["wlan0"; "eth0"; "enp0s3"] w)
    as (r & w' & E & Hk & _ & Hr & Hq).
  exists r, w'. split; [exact E|]. split; [exact Hk|]. split.
  { destruct Hr as [?| ->]; [done|left]. }
  intros Hf. specialize (Hq Hf). cbv zeta.
  set (links := k_links (w_kernel w)) in *.
  cbn [list_find] in Hq.
  destruct (links !! "wlan0") eqn:E1.
  { by rewrite decide_True in Hq by eauto. }
  rewrite decide_False in Hq by (by intros [? ?]).
  destruct (links !! "eth0") eqn:E2.
  { by rewrite decide_True in Hq by eauto. }
  rewrite decide_False in Hq by (by intros [? ?]).
  destruct (links !! "enp0s3") eqn:E3.
  { by rewrite decide_True in Hq by eauto. }
  by rewrite decide_False in Hq by (by intros [? ?]).
Qed.

(** ** Printing and parsing addresses *)

Module AddressFacts.
Import Ipaddress StringFacts.

Lemma octets_checked :
forallb (fun i =>
           match _parse_octet (pretty (N.of_nat i)) with
           | Ret z =>
               (z =? Z.of_nat i)
               && negb (Text.contains "." (pretty (N.of_nat i)))
               && negb (Text.contains "/" (pretty (N.of_nat i)))
           | Raise _ => false
           end) (seq 0 256) = true.
Proof. vm_compute. reflexivity. Qed.

Lemma octet_text (n : N) :
(n < 256)%N ->
_parse_octet (pretty n) = Ret (Z.of_N n) /\
Text.contains "." (pretty n) = false /\
Text.contains "/" (pretty n) = false.
Proof.
intros Hn. pose proof octets_checked as H.
rewrite forallb_forall in H. specialize (H (N.to_nat n)).
rewrite N2Nat.id, N_nat_Z in H.
assert (In (N.to_nat n) (seq 0 256)) as Hin by (apply in_seq; lia).
apply H in Hin.
destruct (_parse_octet (pretty n)) as [z|]; [|discriminate Hin].
apply andb_true_iff in Hin as [[Hz H1]%andb_true_iff H2].
apply Z.eqb_eq in Hz. apply negb_true_iff in H1, H2. by subst z.
Qed.

Lemma prefixes_checked :
forallb (fun i =>
           match _prefix_from_prefix_string (pretty (N.of_nat i)) with
           | Ret z =>
               (z =? Z.of_nat i)
               && negb (Text.contains "/" (pretty (N.of_nat i)))
           | Raise _ => false
           end) (seq 0 33) = true.
Proof. vm_compute. reflexivity. Qed.

Lemma prefix_text (n : N) :
(n <= 32)%N ->
_prefix_from_prefix_string (pretty n) = Ret (Z.of_N n) /\
Text.contains "/" (pretty n) = false.
Proof.
intros Hn. pose proof prefixes_checked as H.
rewrite forallb_forall in H. specialize (H (N.to_nat n)).
rewrite N2Nat.id, N_nat_Z in H.
assert (In (N.to_nat n) (seq 0 33)) as Hin by (apply in_seq; lia).
apply H in Hin.
destruct (_prefix_from_prefix_string (pretty n)) as [z|]; [|discriminate Hin].
apply andb_true_iff in Hin as [Hz H1].
apply Z.eqb_eq in Hz. apply negb_true_iff in H1. by subst z.
Qed.

(** A property checked on every prefix length holds of each of them. *)
Lemma prefix_cases (f : Z -> bool) :
forallb (fun i => f (Z.of_nat i)) (seq 0 33) = true ->
forall p, 0 <= p <= 32 -> f p = true.
Proof.
intros H p Hp. rewrite forallb_forall in H.
specialize (H (Z.to_nat p)). rewrite Z2Nat.id in H by lia.
apply H, in_seq. lia.
Qed.

Lemma contains_char c d s :
Text.contains (String c "") (String d s)
= Ascii.eqb c d || Text.contains (String c "") s.
Proof. cbn [Text.contains Text.prefix]. by rewrite andb_true_r. Qed.

Lemma contains_char_app c a b :
Text.contains (String c "") (a ++ b)
= Text.contains (String c "") a || Text.contains (String c "") b.
Proof.
induction a as [|d a IH]; [by rewrite app_empty|].
by rewrite app_cons, !contains_char, IH, orb_assoc.
Qed.

Lemma split_none sep s :
Text.contains (String sep "") s = false -> split sep s = [s].
Proof.
induction s as [|c s IH]; [done|]. rewrite contains_char.
intros [Hc Hs]%orb_false_iff. cbn [split].
rewrite Ascii.eqb_sym, Hc. by rewrite IH.
Qed.

Lemma split_app sep a b :
Text.contains (String sep "") a = false ->
split sep (a ++ String sep b) = a :: split sep b.
Proof.
induction a as [|c a IH].
- intros _. rewrite app_empty. cbn [split]. by rewrite Ascii.eqb_refl.
- rewrite contains_char. intros [Hc Hs]%orb_false_iff.
  rewrite app_cons. cbn [split]. rewrite Ascii.eqb_sym, Hc. by rewrite IH.
Qed.

Lemma octet_range ip i : 0 <= octet ip i < 256.
Proof.
unfold octet. change 255 with (Z.ones 8). rewrite Z.land_ones by lia.
apply Z.mod_pos_bound. lia.
Qed.

Lemma octets_join ip :
0 <= ip < 2 ^ 32 ->
from_octets (octet ip 0) (octet ip 1) (octet ip 2) (octet ip 3) = ip.
Proof.
intros H. unfold from_octets, octet.
cbn [Z.mul Z.sub Z.add Z.opp Z.pos_sub Pos.mul].
rewrite <- (Z.mod_small ip (2 ^ 32)) at 5 by lia.
change 255 with (Z.ones 8). Z.bitblast.
Qed.

(** An address printed and parsed again is the same address. *)
Lemma address_roundtrip ip :
0 <= ip < 2 ^ 32 -> IPv4Address (address_str ip) = Ret ip.
Proof.
intros Hip. unfold IPv4Address, address_str.
pose proof (octet_range ip 0) as R0. pose proof (octet_range ip 1) as R1.
pose proof (octet_range ip 2) as R2. pose proof (octet_range ip 3) as R3.
destruct (octet_text (Z.to_N (octet ip 0))) as (P0 & D0 & S0); [lia|].
destruct (octet_text (Z.to_N (octet ip 1))) as (P1 & D1 & S1); [lia|].
destruct (octet_text (Z.to_N (octet ip 2))) as (P2 & D2 & S2); [lia|].
destruct (octet_text (Z.to_N (octet ip 3))) as (P3 & D3 & S3); [lia|].
rewrite Z2N.id in P0, P1, P2, P3 by lia.
set (p0 := pretty (Z.to_N (octet ip 0))) in *.
set (p1 := pretty (Z.to_N (octet ip 1))) in *.
set (p2 := pretty (Z.to_N (octet ip 2))) in *.
set (p3 := pretty (Z.to_N (octet ip 3))) in *.
clearbody p0 p1 p2 p3.
rewrite !app_cons, !app_empty.
assert (Text.contains "/" (p0 ++ String "." (p1 ++ String "." (p2 ++ String "." p3)))
        = false) as ->.
{ rewrite !contains_char_app, !contains_char, !contains_char_app, !contains_char,
    !contains_char_app, !contains_char, S0, S1, S2, S3. reflexivity. }
unfold _ip_int_from_string.
assert (truthy (p0 ++ String "." (p1 ++ String "." (p2 ++ String "." p3)))
        = true) as -> by (by destruct p0).
cbn [negb].
rewrite (split_app "." p0) by done. rewrite (split_app "." p1) by done.
rewrite (split_app "." p2) by done. rewrite (split_none "." p3) by done.
rewrite P0, P1, P2, P3. by rewrite octets_join.
Qed.

End AddressFacts.

(** ** Parsed addresses and networks *)

Module NetworkFacts.
Import Ipaddress StringFacts AddressFacts.

Lemma int_acc_nonneg s : forall acc,
all_digits s = true -> 0 <= acc -> 0 <= int_acc acc s.
Proof.
induction s as [|c s IH]; intros acc; cbn [all_digits int_acc]; [done|].
intros [Hd Hs]%andb_true_iff Hacc. apply IH; [done|].
unfold Text.is_digit in Hd. apply andb_true_iff in Hd as [H1%Nat.leb_le _].
lia.
Qed.

Lemma parse_octet_range s a : _parse_octet s = Ret a -> 0 <= a <= 255.
Proof.
unfold _parse_octet.
destruct (negb (truthy s)); [discriminate|].
destruct (negb (isdigit s)) eqn:Hd; [discriminate|].
destruct (Nat.ltb _ _); [discriminate|].
destruct (_ && _); [discriminate|].
destruct (255 <? int s) eqn:Hle; [discriminate|].
intros [= <-]. apply Z.ltb_ge in Hle. split; [|done].
apply int_acc_nonneg; [|done]. apply negb_false_iff in Hd.
by destruct s.
Qed.

Lemma from_octets_range a b c d :
0 <= a <= 255 -> 0 <= b <= 255 -> 0 <= c <= 255 -> 0 <= d <= 255 ->
0 <= from_octets a b c d < 2 ^ 32.
Proof.
intros Ha Hb Hc Hd.
rewrite <- (Z.mod_small a (2 ^ 8)), <- (Z.mod_small b (2 ^ 8)),
  <- (Z.mod_small c (2 ^ 8)), <- (Z.mod_small d (2 ^ 8)) by lia.
assert (from_octets (a mod 2 ^ 8) (b mod 2 ^ 8) (c mod 2 ^ 8) (d mod 2 ^ 8)
        = from_octets (a mod 2 ^ 8) (b mod 2 ^ 8) (c mod 2 ^ 8) (d mod 2 ^ 8)
          mod 2 ^ 32) as ->.
{ unfold from_octets. Z.bitblast. }
apply Z.mod_pos_bound. lia.
Qed.

Lemma ip_int_range s ip : _ip_int_from_string s = Ret ip -> 0 <= ip < 2 ^ 32.
Proof.
unfold _ip_int_from_string.
destruct (negb (truthy s)); [discriminate|].
destruct (split "." s) as [|o1 [|o2 [|o3 [|o4 [|]]]]]; try discriminate.
pose proof (parse_octet_range o1) as H1. pose proof (parse_octet_range o2) as H2.
pose proof (parse_octet_range o3) as H3. pose proof (parse_octet_range o4) as H4.
destruct (_parse_octet o1), (_parse_octet o2), (_parse_octet o3),
  (_parse_octet o4); try discriminate.
intros [= <-]. apply from_octets_range; auto.
Qed.

Lemma address_range s ip : IPv4Address s = Ret ip -> 0 <= ip < 2 ^ 32.
Proof.
unfold IPv4Address. destruct (Text.contains "/" s); [discriminate|].
apply ip_int_range.
Qed.

Lemma bit_length_nonneg x : 0 <= bit_length x.
Proof.
unfold bit_length. destruct (x =? 0); [done|].
pose proof (Z.log2_nonneg x). lia.
Qed.

Lemma make_netmask_range s p : _make_netmask s = Ret p -> 0 <= p <= 32.
Proof.
assert (forall x q, _prefix_from_ip_int x = Ret q -> 0 <= q <= 32) as Hint.
{ intros x q. unfold _prefix_from_ip_int, _count_righthand_zero_bits,
    max_prefixlen.
  destruct (negb _); [discriminate|]. intros [= <-].
  destruct (x =? 0); [lia|].
  pose proof (bit_length_nonneg (Z.land (Z.lnot x) (x - 1))). lia. }
unfold _make_netmask, _prefix_from_prefix_string, _prefix_from_ip_string,
  max_prefixlen.
destruct (negb (isdigit s)).
- destruct (_ip_int_from_string s) as [x|]; [|discriminate].
  destruct (_prefix_from_ip_int x) as [q|] eqn:E1; [intros [= <-]; eauto|].
  destruct (_prefix_from_ip_int (Z.lxor x ALL_ONES)) as [q|] eqn:E2;
    [intros [= <-]; eauto|discriminate].
- destruct (_ && _) eqn:E.
  + intros [= <-]. apply andb_true_iff in E as [?%Z.leb_le ?%Z.leb_le]. lia.
  + destruct (_ip_int_from_string s) as [x|]; [|discriminate].
    destruct (_prefix_from_ip_int x) as [q|] eqn:E1; [intros [= <-]; eauto|].
    destruct (_prefix_from_ip_int (Z.lxor x ALL_ONES)) as [q|] eqn:E2;
      [intros [= <-]; eauto|discriminate].
Qed.

Lemma land_range x m : 0 <= x < 2 ^ 32 -> 0 <= Z.land x m < 2 ^ 32.
Proof.
intros Hx. rewrite <- (Z.mod_small x (2 ^ 32)) by lia.
assert (Z.land (x mod 2 ^ 32) m = Z.land (x mod 2 ^ 32) m mod 2 ^ 32) as ->
  by Z.bitblast.
apply Z.mod_pos_bound. lia.
Qed.

Lemma network_well_formed s strict n :
IPv4Network s strict = Ret n -> well_formed_network n.
Proof.
unfold IPv4Network.
destruct (split "/" s) as [|addr rest]; [discriminate|].
assert (forall packed p,
           0 <= packed < 2 ^ 32 -> 0 <= p <= 32 ->
           (if negb (Z.land packed (_ip_int_from_prefix p) =? packed)
            then if strict then Raise (ValueError "has host bits set")
                 else Ret (mkNetwork (Z.land packed (_ip_int_from_prefix p)) p)
            else Ret (mkNetwork packed p)) = Ret n ->
           well_formed_network n) as Hend.
{ intros packed p Hpacked Hp.
  destruct (Z.land packed _ =? packed) eqn:E; cbn [negb].
  - intros [= <-]. apply Z.eqb_eq in E.
    unfold well_formed_network, netmask. cbn [network_address prefixlen].
    split; [lia|]. split; [lia|done].
  - destruct strict; [discriminate|]. intros [= <-].
    split; [by apply land_range|]. split; [done|].
    unfold netmask. cbn [network_address prefixlen].
    by rewrite <- Z.land_assoc, Z.land_diag. }
pose proof (address_range addr) as Ha.
destruct rest as [|mask [|? ?]]; [| |discriminate].
- destruct (IPv4Address addr) as [packed|]; [|discriminate].
  apply Hend; [by apply Ha|]. unfold max_prefixlen. lia.
- destruct (IPv4Address addr) as [packed|]; [|discriminate].
  pose proof (make_netmask_range mask) as Hm.
  destruct (_make_netmask mask) as [p|]; [|discriminate].
  apply Hend; [by apply Ha|by apply Hm].
Qed.

(** A network printed and parsed again is the same network, also under
  strict parsing. *)
Lemma network_roundtrip n strict :
well_formed_network n -> IPv4Network (network_str n) strict = Ret n.
Proof.
intros (Ha & Hp & Hm). destruct n as [na p].
unfold netmask in Hm. cbn [network_address prefixlen] in *.
unfold IPv4Network, network_str. cbn [network_address prefixlen].
destruct (prefix_text (Z.to_N p)) as (Pp & Sp); [lia|].
rewrite Z2N.id in Pp by lia.
assert (Text.contains "/" (address_str na) = false) as Hs.
{ pose proof (address_roundtrip na Ha) as H. unfold IPv4Address in H.
  by destruct (Text.contains "/" (address_str na)). }
rewrite app_cons, app_empty.
rewrite (split_app "/" (address_str na)) by done.
rewrite (split_none "/") by done.
rewrite address_roundtrip by done.
unfold _make_netmask. rewrite Pp.
by rewrite Hm, Z.eqb_refl.
Qed.

End NetworkFacts.

(** ** The configuration after construction *)

Module ConfigMore.
Import Ipaddress Config ConfigFacts AddressFacts NetworkFacts.

Lemma validate_ok fields cfg :
validate fields = Ret cfg ->
exists n,
  IPv4Network (usb_network fields) false = Ret n /\
  cfg = setattr fields F_usb_network (network_str n) /\
  check_addresses fields n = Ret tt /\
  1 <= dashboard_port fields <= 65535.
Proof.
unfold validate.
destruct (IPv4Network (usb_network fields) false) as [n|e];
  [|destruct (is_ValueError e); discriminate].
rewrite check_addresses_network.
destruct (check_addresses fields n) as [[]|e] eqn:Ec;
  [|destruct (is_ValueError e); discriminate].
replace (dashboard_port (setattr fields F_usb_network _))
  with (dashboard_port fields) by (by destruct fields).
destruct (negb _) eqn:Ep; [discriminate|]. intros [= <-].
apply negb_false_iff, andb_true_iff in Ep as [?%Z.leb_le ?%Z.leb_le].
exists n. split; [done|]. split; [done|]. split; [done|lia].
Qed.

Lemma validate_network fields n :
IPv4Network (usb_network fields) false = Ret n ->
check_addresses fields n = Ret tt ->
1 <= dashboard_port fields <= 65535 ->
validate fields = Ret (setattr fields F_usb_network (network_str n)).
Proof.
intros Hn Hc Hp. unfold validate. rewrite Hn, check_addresses_network, Hc.
replace (dashboard_port (setattr fields F_usb_network _))
  with (dashboard_port fields) by (by destruct fields).
destruct (Z.leb_spec 1 (dashboard_port fields)); [|lia].
destruct (Z.leb_spec (dashboard_port fields) 65535); [done|lia].
Qed.

(** X10: validation is idempotent.  [validate] rewrites the network field
  in normal form; run again on the object it returned, it accepts it and
  changes nothing more. *)
Theorem validate_is_idempotent fields cfg :
RouterConfig_new fields = Ret cfg -> validate cfg = Ret cfg.
Proof.
intros (n & Hn & -> & Hc & Hp)%validate_ok.
pose proof (network_well_formed _ _ _ Hn) as Hwf.
rewrite (validate_network _ n).
- by destruct fields.
- replace (usb_network (setattr fields F_usb_network (network_str n)))
    with (network_str n) by (by destruct fields).
  by apply network_roundtrip.
- by rewrite check_addresses_network.
- by destruct fields.
Qed.

Lemma validate_is_idempotent_witness :
validate (setattr default F_usb_network "192.168.64.0/24") =
Ret (setattr default F_usb_network "192.168.64.0/24").
Proof.
apply (validate_is_idempotent
         (setattr default F_usb_network "192.168.64.77/255.255.255.0")).
vm_compute. reflexivity.
Defined.

Lemma masks_checked :
forallb (fun i =>
           let m := _ip_int_from_prefix (Z.of_nat i) in
           let h := Z.lxor m ALL_ONES in
           (Z.land m h =? 0) && (h + 1 =? 2 ^ (32 - Z.of_nat i)))
  (seq 0 33) = true.
Proof. vm_compute. reflexivity. Qed.

Lemma hostmask_facts n :
well_formed_network n ->
Z.land (network_address n) (hostmask n) = 0 /\
hostmask n + 1 = 2 ^ (32 - prefixlen n).
Proof.
intros (Ha & Hp & Hm).
pose proof (prefix_cases
              (fun p => let m := _ip_int_from_prefix p in
                        let h := Z.lxor m ALL_ONES in
                        (Z.land m h =? 0) && (h + 1 =? 2 ^ (32 - p)))
              masks_checked (prefixlen n) Hp) as H.
cbv zeta in H. apply andb_true_iff in H as [H1%Z.eqb_eq H2%Z.eqb_eq].
unfold hostmask, netmask in *. split; [|done].
by rewrite <- Hm, <- Z.land_assoc, H1, Z.land_0_r.
Qed.

Lemma num_addresses_pow n :
well_formed_network n ->
num_addresses n = 2 ^ (32 - prefixlen n) /\
broadcast_address n = network_address n + 2 ^ (32 - prefixlen n) - 1.
Proof.
intros Hwf. destruct (hostmask_facts n Hwf) as [H0 H1].
unfold num_addresses, broadcast_address.
rewrite <- (Z.add_nocarry_lor _ _ H0). lia.
Qed.

Lemma single_address n lo hi :
well_formed_network n -> prefixlen n = 32 ->
0 <= lo < 2 ^ 32 -> 0 <= hi < 2 ^ 32 ->
contains n lo = true -> contains n hi = true -> lo = hi.
Proof.
intros _ Hp Hlo Hhi. unfold contains, netmask. rewrite Hp.
change (_ip_int_from_prefix 32) with (Z.ones 32).
rewrite !Z.land_ones, !Z.mod_small by lia.
intros ?%Z.eqb_eq ?%Z.eqb_eq. lia.
Qed.

(** X11: on a configuration that construction accepted,
  [get_network_info] never raises, although it parses the network field
  strictly.  The prefix length it reports is at most 31 (a single-address
  subnet cannot hold the two DHCP bounds), the broadcast address is
  the last address of the subnet, and the host count is
  [2 ^ (32 - prefix) - 2], which is never negative. *)
Theorem network_info_of_valid_config fields cfg :
RouterConfig_new fields = Ret cfg ->
exists n info,
  IPv4Network (usb_network fields) false = Ret n /\
  get_network_info cfg = Ret info /\
  ni_network info = address_str (network_address n) /\
  ni_netmask info = address_str (netmask n) /\
  ni_broadcast info =
    address_str (network_address n + 2 ^ (32 - prefixlen n) - 1) /\
  ni_prefix_length info = prefixlen n /\
  0 <= ni_prefix_length info <= 31 /\
  ni_host_count info = 2 ^ (32 - ni_prefix_length info) - 2 /\
  0 <= ni_host_count info.
Proof.
intros (n & Hn & -> & Hc & Hp)%validate_ok.
pose proof (network_well_formed _ _ _ Hn) as Hwf.
destruct (num_addresses_pow n Hwf) as [Hnum Hb].
apply check_addresses_ok in Hc
  as (ip & lo & hi & _ & Hlo & Hhi & _ & Clo & Chi & Hlt).
assert (prefixlen n <= 31) as H31.
{ destruct Hwf as (? & ? & ?).
  destruct (decide (prefixlen n = 32)) as [H32|]; [|lia].
  apply address_range in Hlo, Hhi.
  assert (lo = hi); [|lia].
  by apply (single_address n). }
exists n. eexists. split; [done|]. split.
{ unfold get_network_info.
  replace (usb_network (setattr fields F_usb_network (network_str n)))
    with (network_str n) by (by destruct fields).
  rewrite (network_roundtrip n true Hwf). reflexivity. }
cbn [ni_network ni_netmask ni_broadcast ni_prefix_length ni_host_count].
rewrite Hb, Hnum. destruct Hwf as (? & ? & ?).
repeat split; try done; try lia.
assert (2 ^ 1 <= 2 ^ (32 - prefixlen n)) by (apply Z.pow_le_mono_r; lia).
lia.
Qed.

Lemma network_info_of_valid_config_witness :
exists n info,
  IPv4Network (usb_network default) false = Ret n /\
  get_network_info (setattr default F_usb_network "192.168.64.0/24")
  = Ret info /\
  ni_network info = address_str (network_address n) /\
  ni_netmask info = address_str (netmask n) /\
  ni_broadcast info =
    address_str (network_address n + 2 ^ (32 - prefixlen n) - 1) /\
  ni_prefix_length info = prefixlen n /\
  0 <= ni_prefix_length info <= 31 /\
  ni_host_count info = 2 ^ (32 - ni_prefix_length info) - 2 /\
  0 <= ni_host_count info.
Proof.
apply (network_info_of_valid_config default).
vm_compute. reflexivity.
Defined.

Lemma covering_checked :
forallb (fun i =>
           let p := Z.of_nat i in
           let m := _ip_int_from_prefix p in
           Bool.eqb (Z.land 3232251905 m =? Z.land 3232252054 m) (p <=? 24)
           && (if p <=? 24
               then (Z.land 3232251905 m =? Z.land 3232251904 m)
                    && (Z.land 3232251954 m =? Z.land 3232251904 m)
                    && (Z.land 3232252054 m =? Z.land 3232251904 m)
               else true))
  (seq 0 33) = true.
Proof. vm_compute. reflexivity. Qed.

Lemma covering p :
0 <= p <= 32 ->
let m := _ip_int_from_prefix p in
(Z.land 3232251905 m = Z.land 3232252054 m -> p <= 24) /\
(p <= 24 ->
 Z.land 3232251905 m = Z.land 3232251904 m /\
 Z.land 3232251954 m = Z.land 3232251904 m /\
 Z.land 3232252054 m = Z.land 3232251904 m).
Proof.
intros Hp m. subst m.
pose proof (prefix_cases
              (fun p =>
                 let m := _ip_int_from_prefix p in
                 Bool.eqb (Z.land 3232251905 m =? Z.land 3232252054 m)
                   (p <=? 24)
                 && (if p <=? 24
                     then (Z.land 3232251905 m =? Z.land 3232251904 m)
                          && (Z.land 3232251954 m =? Z.land 3232251904 m)
                          && (Z.land 3232252054 m =? Z.land 3232251904 m)
                     else true))
              covering_checked p Hp) as H.
cbv zeta in H.
apply andb_true_iff in H as [H1%Bool.eqb_prop H2]. split.
- intros E. apply Z.eqb_eq in E. rewrite E in H1. symmetry in H1.
  by apply Z.leb_le in H1.
- intros Hle. apply Z.leb_le in Hle. rewrite Hle in H2.
  apply andb_true_iff in H2 as [[?%Z.eqb_eq ?%Z.eqb_eq]%andb_true_iff ?%Z.eqb_eq].
  done.
Qed.

(** X12: the installer builds its configuration from the network given on
  the command line and the default router address and DHCP bounds.
  Construction succeeds exactly when that network is [192.168.64.0/24] or
  a network that contains it: a prefix of at most 24 bits whose network
  address is [192.168.64.0] cut to that prefix.  Any other network makes
  the installer fail with the exception of [validate]. *)
Theorem installer_accepts_only_covering_networks
  use_exit vpn_failover wan net cfg :
installer_config use_exit vpn_failover wan net = Ret cfg <->
exists n,
  IPv4Network net false = Ret n /\
  prefixlen n <= 24 /\
  network_address n = Z.land default_base (netmask n) /\
  cfg = mkConfig (network_str n) "192.168.64.1" "192.168.64.50"
          "192.168.64.150" wan "usb0" "tailscale0" "tun0"
          use_exit vpn_failover false 8000 "0.0.0.0".
Proof.
unfold installer_config, RouterConfig_new.
set (fields := setattr _ F_usb_network net).
assert (IPv4Address (usb_ip fields) = Ret 3232251905) as A1 by reflexivity.
assert (IPv4Address (usb_dhcp_start fields) = Ret 3232251954) as A2
  by reflexivity.
assert (IPv4Address (usb_dhcp_end fields) = Ret 3232252054) as A3
  by reflexivity.
change default_base with 3232251904.
split.
- intros (n & Hn & -> & Hc & Hp)%validate_ok.
  pose proof (network_well_formed _ _ _ Hn) as (Ha & Hlen & Hm).
  apply check_addresses_ok in Hc
    as (ip & lo & hi & Hip & Hlo & Hhi & Cip & Clo & Chi & Hlt).
  rewrite A1 in Hip. rewrite A2 in Hlo. rewrite A3 in Hhi.
  injection Hip as <-. injection Hlo as <-. injection Hhi as <-.
  unfold contains in *. apply Z.eqb_eq in Cip, Clo, Chi.
  destruct (covering (prefixlen n) Hlen) as [H24 Hcov]. fold (netmask n) in *.
  assert (prefixlen n <= 24) as Hle by (apply H24; congruence).
  destruct (Hcov Hle) as (E1 & _ & _).
  exists n. split; [done|]. split; [done|]. split; [congruence|].
  reflexivity.
- intros (n & Hn & Hle & Hna & ->).
  pose proof (network_well_formed _ _ _ Hn) as (Ha & Hlen & Hm).
  destruct (covering (prefixlen n) Hlen) as [_ Hcov]. fold (netmask n) in *.
  destruct (Hcov Hle) as (E1 & E2 & E3).
  rewrite (validate_network fields n); [reflexivity|exact Hn| |by cbn].
  apply check_addresses_ok. exists 3232251905, 3232251954, 3232252054.
  unfold contains. rewrite Hna, E1, E2, E3, !Z.eqb_refl. by repeat split.
Qed.

End ConfigMore.

(** X13: the two validators of [utils] never raise, and every text that
    [validate_ip_address] accepts is accepted by [validate_network_cidr] as
    well: an address alone is a network of one address. *)
Theorem validators_agree s :
  (exists b, validate_ip_address s = Ret b) /\
  (exists b, validate_network_cidr s = Ret b) /\
  (validate_ip_address s = Ret true -> validate_network_cidr s = Ret true).
Proof.
  unfold validate_ip_address, validate_network_cidr.
  pose proof (ConfigFacts.address_error s) as Ha.
  pose proof (ConfigFacts.network_error s false) as Hn.
  split; [|split].
  - destruct (Ipaddress.IPv4Address s) as [|e]; [eauto|].
    destruct (Ha e eq_refl) as [m ->]. cbn. eauto.
  - destruct (Ipaddress.IPv4Network s false) as [|e]; [eauto|].
    destruct (Hn e eq_refl) as [m ->]. cbn. eauto.
  - destruct (Ipaddress.IPv4Address s) as [ip|e] eqn:E;
      [intros _|by destruct (is_ValueError e)].
    unfold Ipaddress.IPv4Network.
    assert (Text.contains "/" s = false) as Hs.
    { unfold Ipaddress.IPv4Address in E.
      by destruct (Text.contains "/" s). }
    rewrite (AddressFacts.split_none "/" s Hs), E.
    by destruct (negb _).
Qed.
